(** * Monitoring of CRAB jobs

    Shallow embedding of [nanoaod/monitor_crab_jobs.py]: the status parser,
    the aggregation loop of the main section and the report renderer
    ([define_css_style], [make_progress_bar], [web]), followed by the
    properties of the program that its specification states and by
    further properties of its code.

    Conventions of the embedding.
    - A Python [str] is a Rocq [string]; the character with code [n] of the
      Rocq string is the code point [n] of the Python string (code points
      below 256).
    - A Python [float] is an IEEE-754 binary64 number, [spec_float] with
      precision 53 and maximal exponent 1024.
    - A Python [dict] is an association list in insertion order.
    - Code that reads or changes the outside world (file system, standard
      output, external commands) threads a [world] and may raise.
    - The file system maps the paths that the program names to
      directories and regular files; a command line has the effect that
      the shell gives it when its paths are plain words. *)

From Stdlib Require Import String Ascii List ZArith Bool Arith Lia.
From Stdlib Require Import DecimalString.
From Stdlib Require Import Sorting.Sorted Sorting.Permutation.
From Stdlib Require Import Floats.SpecFloat.
Import ListNotations.

Local Open Scope string_scope.

(* ================================================================== *)
(** ** Python strings *)
(* ================================================================== *)

Module Str.

Definition chr (n : nat) : string := String (ascii_of_nat n) EmptyString.

(** The newline character and the double quote, which the HTML text of
    the program uses throughout, and the tabulator. *)
Definition nl : string := chr 10.
Definition dq : string := chr 34.
Definition tab : string := chr 9.

(** [q s] is [s] between double quotes. *)
Definition q (s : string) : string := dq ++ s ++ dq.

Definition is_empty (s : string) : bool :=
  match s with EmptyString => true | String _ _ => false end.

(** [str.isspace] on one character. *)
Definition isspace (c : ascii) : bool :=
  let n := nat_of_ascii c in
  (((9 <=? n) && (n <=? 13)) || ((28 <=? n) && (n <=? 32))
   || (n =? 133) || (n =? 160))%nat.

(** [s.startswith(p)]. *)
Definition startswith (s p : string) : bool := String.prefix p s.

(** [s.endswith(p)]. *)
Definition endswith (s p : string) : bool :=
  (String.length p <=? String.length s)%nat
  && String.eqb
       (String.substring (String.length s - String.length p)
                         (String.length p) s) p.

(** [sub in s]. *)
Fixpoint contains (sub s : string) : bool :=
  String.prefix sub s
  || match s with
     | EmptyString => false
     | String _ t => contains sub t
     end.

(** [c in chars] for a character. *)
Fixpoint mem_char (c : ascii) (chars : string) : bool :=
  match chars with
  | EmptyString => false
  | String d t => Ascii.eqb c d || mem_char c t
  end.

(** [new.join(s)] for the characters of [s], with [new] also in front
    and behind: what [s.replace('', new)] returns. *)
Fixpoint interleave (new s : string) : string :=
  match s with
  | EmptyString => new
  | String c t => new ++ String c (interleave new t)
  end.

(** The scan of [s.replace(old, new)]: [skip] counts the characters of
    an occurrence of [old] that are still to be passed over. *)
Fixpoint replace_from (old new : string) (skip : nat) (s : string)
  : string :=
  match s with
  | EmptyString => EmptyString
  | String c t =>
      match skip with
      | S k => replace_from old new k t
      | O =>
          if String.prefix old s
          then new ++ replace_from old new (String.length old - 1) t
          else String c (replace_from old new 0 t)
      end
  end.

(** [s.replace(old, new)]. *)
Definition replace (s old new : string) : string :=
  if is_empty old then interleave new s else replace_from old new 0 s.

(** The scan of [s.count(sub)] for a non-empty [sub]. *)
Fixpoint count_from (sub : string) (skip : nat) (s : string) : nat :=
  match s with
  | EmptyString => 0
  | String c t =>
      match skip with
      | S k => count_from sub k t
      | O =>
          if String.prefix sub s
          then S (count_from sub (String.length sub - 1) t)
          else count_from sub 0 t
      end
  end.

(** [s.count(sub)]. *)
Definition count (s sub : string) : nat :=
  if is_empty sub then S (String.length s) else count_from sub 0 s.

(** The scan of [s.split(sep)] for a non-empty [sep]; [cur] is the piece
    read so far. *)
Fixpoint split_from (sep : string) (skip : nat) (cur s : string)
  : list string :=
  match s with
  | EmptyString => [cur]
  | String c t =>
      match skip with
      | S k => split_from sep k cur t
      | O =>
          if String.prefix sep s
          then cur :: split_from sep (String.length sep - 1) EmptyString t
          else split_from sep 0 (cur ++ String c EmptyString) t
      end
  end.

(** [s.split(sep)]; every separator in the program is a non-empty
    literal (Python raises ValueError on an empty one). *)
Definition split (s sep : string) : list string :=
  split_from sep 0 EmptyString s.

(** The scan of [s.split()]: pieces between runs of white space. *)
Fixpoint split_ws_from (cur s : string) : list string :=
  match s with
  | EmptyString => if is_empty cur then [] else [cur]
  | String c t =>
      if isspace c
      then (if is_empty cur then split_ws_from EmptyString t
            else cur :: split_ws_from EmptyString t)
      else split_ws_from (cur ++ String c EmptyString) t
  end.

(** [s.split()]. *)
Definition split_ws (s : string) : list string :=
  split_ws_from EmptyString s.

Fixpoint lstrip (chars s : string) : string :=
  match s with
  | EmptyString => EmptyString
  | String c t => if mem_char c chars then lstrip chars t else s
  end.

Fixpoint rstrip (chars s : string) : string :=
  match s with
  | EmptyString => EmptyString
  | String c t =>
      let t' := rstrip chars t in
      if is_empty t' && mem_char c chars then EmptyString
      else String c t'
  end.

(** [s.strip(chars)]. *)
Definition strip (s chars : string) : string :=
  rstrip chars (lstrip chars s).

Definition lower_char (c : ascii) : ascii :=
  let n := nat_of_ascii c in
  if (((65 <=? n) && (n <=? 90))
      || ((192 <=? n) && (n <=? 222) && negb (n =? 215)))%nat
  then ascii_of_nat (n + 32) else c.

(** [s.lower()]. *)
Fixpoint lower (s : string) : string :=
  match s with
  | EmptyString => EmptyString
  | String c t => String (lower_char c) (lower t)
  end.

(** [sep.join(l)]. *)
Definition join (sep : string) (l : list string) : string :=
  String.concat sep l.

(** [str(z)] for an [int]. *)
Definition of_Z (z : Z) : string := NilZero.string_of_int (Z.to_int z).

Definition of_nat (n : nat) : string := of_Z (Z.of_nat n).

(** [str(b)] for a [bool]. *)
Definition of_bool (b : bool) : string := if b then "True" else "False".

(** What reading a file in text mode does to line ends: a carriage
    return, with the line feed after it if there is one, becomes one
    line feed. [after_cr] tells that the previous character was a
    carriage return. *)
Fixpoint universal_newlines (after_cr : bool) (s : string) : string :=
  match s with
  | EmptyString => EmptyString
  | String c t =>
      let n := nat_of_ascii c in
      if (n =? 13)%nat then nl ++ universal_newlines true t
      else if (n =? 10)%nat && after_cr then universal_newlines false t
      else String c (universal_newlines false t)
  end.

(** Line boundaries of [str.splitlines]. *)
Definition is_linebreak (c : ascii) : bool :=
  let n := nat_of_ascii c in
  (((10 <=? n) && (n <=? 13)) || ((28 <=? n) && (n <=? 30))
   || (n =? 133))%nat.

Fixpoint splitlines_from (after_cr : bool) (cur s : string)
  : list string :=
  match s with
  | EmptyString => if is_empty cur then [] else [cur]
  | String c t =>
      let n := nat_of_ascii c in
      if (n =? 10)%nat && after_cr then splitlines_from false cur t
      else if is_linebreak c
      then cur :: splitlines_from (n =? 13)%nat EmptyString t
      else splitlines_from false (cur ++ String c EmptyString) t
  end.

(** [s.splitlines()]. *)
Definition splitlines (s : string) : list string :=
  splitlines_from false EmptyString s.

(** [s.isascii()]. *)
Fixpoint isascii (s : string) : bool :=
  match s with
  | EmptyString => true
  | String c t => (nat_of_ascii c <? 128)%nat && isascii t
  end.

End Str.

(* ================================================================== *)
(** ** Python floats *)
(* ================================================================== *)

Module Float.

Local Open Scope Z_scope.

Definition prec : Z := 53.
Definition emax : Z := 1024.

Definition float : Type := spec_float.

Definition nan : float := S754_nan.
Definition zero : float := S754_zero false.

(** The float nearest to [n * 10 ^ e] (ties to even), with sign [neg]:
    the value that the digits and the exponent of a decimal literal
    denote. *)
Definition of_decimal (neg : bool) (n e : Z) : float :=
  match n with
  | Zpos _ =>
      match e with
      | Zneg k =>
          let '(m, e2, l) :=
            SFdiv_core_binary prec emax n 0 (10 ^ Zpos k) 0 in
          binary_round_aux prec emax neg m e2 l
      | _ =>
          match n * 10 ^ e with
          | Zpos m => binary_round prec emax neg m 0
          | _ => S754_nan
          end
      end
  | _ => S754_zero neg
  end.

(** [float(z)] for an [int] (below the overflow threshold). *)
Definition of_Z (z : Z) : float := of_decimal (z <? 0) (Z.abs z) 0.

(** [x + y]. *)
Definition add (x y : float) : float := SFadd prec emax x y.

(** *** Reading a float: [float(s)] *)

(** White space that [float] drops at both ends of its argument. *)
Definition isspace (c : ascii) : bool :=
  let n := nat_of_ascii c in
  (((9 <=? n) && (n <=? 13)) || (n =? 32) || (n =? 133) || (n =? 160))%nat.

Definition isdigit (c : ascii) : bool :=
  let n := nat_of_ascii c in ((48 <=? n) && (n <=? 57))%nat.

Definition digit_val (c : ascii) : Z := Z.of_nat (nat_of_ascii c - 48).

Definition lower_ascii (c : ascii) : ascii :=
  let n := nat_of_ascii c in
  if ((65 <=? n) && (n <=? 90))%nat then ascii_of_nat (n + 32) else c.

Fixpoint lstrip (cs : list ascii) : list ascii :=
  match cs with
  | c :: t => if isspace c then lstrip t else cs
  | [] => []
  end.

Definition strip (cs : list ascii) : list ascii :=
  rev (lstrip (rev (lstrip cs))).

(** Underscores may stand between two digits only; [prev] is the
    character before. The result is the text without them. *)
Fixpoint drop_underscores (prev : ascii) (cs : list ascii)
  : option (list ascii) :=
  match cs with
  | [] => if Ascii.eqb prev "_" then None else Some []
  | c :: t =>
      if Ascii.eqb c "_"
      then (if isdigit prev then drop_underscores c t else None)
      else if Ascii.eqb prev "_" && negb (isdigit c) then None
      else option_map (cons c) (drop_underscores c t)
  end.

(** The longest prefix of digits, and the rest. *)
Fixpoint span_digits (cs : list ascii) : list ascii * list ascii :=
  match cs with
  | c :: t =>
      if isdigit c
      then let '(d, r) := span_digits t in (c :: d, r)
      else ([], cs)
  | [] => ([], [])
  end.

Definition digits_val (ds : list ascii) : Z :=
  fold_left (fun acc c => 10 * acc + digit_val c) ds 0.

(** An optional sign: [true] for minus. *)
Definition take_sign (cs : list ascii) : bool * list ascii :=
  match cs with
  | c :: t =>
      if Ascii.eqb c "-" then (true, t)
      else if Ascii.eqb c "+" then (false, t)
      else (false, cs)
  | [] => (false, [])
  end.

(** A decimal number without sign: digits, an optional point and
    digits, an optional exponent; at least one digit before the
    exponent, and nothing behind. The result is [(n, e)] for the value
    [n * 10 ^ e]. *)
Definition parse_decimal (cs : list ascii) : option (Z * Z) :=
  let '(ip, r1) := span_digits cs in
  let '(fp, r2) :=
    match r1 with
    | c :: r => if Ascii.eqb c "." then span_digits r else ([], r1)
    | [] => ([], r1)
    end in
  match ip, fp with
  | [], [] => None
  | _, _ =>
      let n := digits_val (ip ++ fp)%list in
      let scale := - Z.of_nat (List.length fp) in
      match r2 with
      | [] => Some (n, scale)
      | c :: r3 =>
          if Ascii.eqb (lower_ascii c) "e"
          then
            let '(eneg, r4) := take_sign r3 in
            let '(ed, r5) := span_digits r4 in
            match ed, r5 with
            | _ :: _, [] =>
                let ev := digits_val ed in
                Some (n, (if eneg then - ev else ev) + scale)
            | _, _ => None
            end
          else None
      end
  end.

(** [inf], [infinity] and [nan], in any case. *)
Definition parse_inf_nan (neg : bool) (cs : list ascii) : option float :=
  let w := string_of_list_ascii (map lower_ascii cs) in
  if String.eqb w "inf" || String.eqb w "infinity"
  then Some (S754_infinity neg)
  else if String.eqb w "nan" then Some S754_nan
  else None.

(** [float(s)]; [None] stands for the ValueError that Python raises. *)
Definition of_string (s : string) : option float :=
  match drop_underscores " " (strip (list_ascii_of_string s)) with
  | None => None
  | Some cs =>
      let '(neg, body) := take_sign cs in
      match parse_decimal body with
      | Some (n, e) => Some (of_decimal neg n e)
      | None => parse_inf_nan neg body
      end
  end.

(** *** Writing a float: [repr(x)], which is also [str(x)] and what
    [format] puts for an empty replacement field *)

(** Number of decimal digits of a positive number. *)
Fixpoint ndigits_fuel (fuel : nat) (n : Z) : Z :=
  match fuel with
  | O => 0
  | S k => if n <? 10 then 1 else 1 + ndigits_fuel k (n / 10)
  end.

Definition ndigits (n : Z) : Z := ndigits_fuel (S (Z.to_nat (Z.log2 n))) n.

(** A finite positive float as an exact decimal [(n, e)], value
    [n * 10 ^ e]. *)
Definition exact_decimal (m : positive) (e : Z) : Z * Z :=
  match e with
  | Zneg k => (Zpos m * 5 ^ Zpos k, e)
  | _ => (Zpos m * 2 ^ e, 0)
  end.

(** The decimal with [p] digits that reads back as the float [x],
    value [n * 10 ^ e], and is nearest to it, if there is one. *)
Definition candidate (x : float) (n e p : Z) : option (Z * Z) :=
  let nd := ndigits n in
  if nd <=? p then Some (n, e)
  else
    let unit := 10 ^ (nd - p) in
    let lo := n / unit in
    let r := n mod unit in
    let e' := e + (nd - p) in
    let ok d :=
      match SFcompare (of_decimal false d e') x with
      | Some Eq => true
      | _ => false
      end in
    if r =? 0 then Some (lo, e')
    else
      match ok lo, ok (lo + 1) with
      | true, true =>
          match 2 * r ?= unit with
          | Lt => Some (lo, e')
          | Gt => Some (lo + 1, e')
          | Eq => Some (if Z.even lo then lo else lo + 1, e')
          end
      | true, false => Some (lo, e')
      | false, true => Some (lo + 1, e')
      | false, false => None
      end.

(** The shortest such decimal: [p] grows from [17 - fuel] digits. *)
Fixpoint shortest_from (fuel : nat) (x : float) (n e : Z) : Z * Z :=
  match fuel with
  | O => (n, e)
  | S k =>
      match candidate x n e (17 - Z.of_nat k) with
      | Some d => d
      | None => shortest_from k x n e
      end
  end.

(** Trailing zeros of the digits go to the exponent. *)
Fixpoint strip_zeros (fuel : nat) (n e : Z) : Z * Z :=
  match fuel with
  | O => (n, e)
  | S k =>
      if (n mod 10 =? 0) && negb (n =? 0)
      then strip_zeros k (n / 10) (e + 1)
      else (n, e)
  end.

Definition shortest (m : positive) (e : Z) : Z * Z :=
  let '(n, e10) := exact_decimal m e in
  let '(d, k) := shortest_from 17 (S754_finite false m e) n e10 in
  strip_zeros (Z.to_nat (ndigits d)) d k.

Fixpoint zeros (n : nat) : string :=
  match n with
  | O => EmptyString
  | S k => String "0" (zeros k)
  end.

(** The exponent of the scientific form: a sign and two digits at
    least. *)
Definition exponent_str (x : Z) : string :=
  let a := Z.abs x in
  let sign : string := if x <? 0 then "-"%string else "+"%string in
  let pad : string := if a <? 10 then "0"%string else EmptyString in
  (sign ++ pad ++ Str.of_Z a)%string.

(** The digits [ds] with the decimal point after the first [decpt] of
    them: fixed form unless the point is far from the digits. *)
Definition format_digits (ds : string) (decpt : Z) : string :=
  let nd := Z.of_nat (String.length ds) in
  if (decpt <=? -4) || (16 <? decpt)
  then
    let frac : string :=
      if 1 <? nd
      then ("." ++ String.substring 1 (String.length ds - 1) ds)%string
      else EmptyString in
    (String.substring 0 1 ds ++ frac ++ "e"
     ++ exponent_str (decpt - 1))%string
  else if decpt <=? 0
  then ("0." ++ zeros (Z.to_nat (- decpt)) ++ ds)%string
  else if nd <=? decpt
  then (ds ++ zeros (Z.to_nat (decpt - nd)) ++ ".0")%string
  else
    (String.substring 0 (Z.to_nat decpt) ds ++ "."
     ++ String.substring (Z.to_nat decpt) (Z.to_nat (nd - decpt)) ds
    )%string.

(** [repr(x)]. *)
Definition repr (x : float) : string :=
  match x with
  | S754_nan => "nan"
  | S754_infinity neg => if neg then "-inf" else "inf"
  | S754_zero neg => if neg then "-0.0" else "0.0"
  | S754_finite neg m e =>
      let '(d, k) := shortest m e in
      let ds := Str.of_Z d in
      let sign : string := if neg then "-"%string else EmptyString in
      (sign ++ format_digits ds (Z.of_nat (String.length ds) + k))%string
  end.

End Float.

(* ================================================================== *)
(** ** Python dictionaries, numbers and exceptions *)
(* ================================================================== *)

Module Dict.

(** A dictionary with [str] keys: its items in insertion order. *)
Definition dict (V : Type) : Type := list (string * V).

Section Ops.
Context {V : Type}.

(** [d[k]], [None] when the key is missing. *)
Fixpoint get (k : string) (d : dict V) : option V :=
  match d with
  | [] => None
  | (k', v) :: t => if String.eqb k k' then Some v else get k t
  end.

(** [k in d.keys()]. *)
Definition mem (k : string) (d : dict V) : bool :=
  match get k d with Some _ => true | None => false end.

(** [d[k] = v]: an existing key keeps its place, a new one goes to
    the end. *)
Fixpoint set (k : string) (v : V) (d : dict V) : dict V :=
  match d with
  | [] => [(k, v)]
  | (k', v') :: t =>
      if String.eqb k k' then (k, v) :: t else (k', v') :: set k v t
  end.

(** Removal of a key, if present. *)
Fixpoint remove (k : string) (d : dict V) : dict V :=
  match d with
  | [] => []
  | (k', v') :: t =>
      if String.eqb k k' then remove k t else (k', v') :: remove k t
  end.

(** [list(d.keys())]. *)
Definition keys (d : dict V) : list string := map fst d.

End Ops.

End Dict.

Import Dict(dict).

(** Exceptions that the program raises or lets through. *)
Inductive exn : Type :=
| Exception (msg : string)
| KeyError (key : string)
| ValueError (arg : string)
| IndexError
| NameError (name : string)
| FileExistsError (path : string)
| FileNotFoundError (path : string)
| NotADirectoryError (path : string)
| IsADirectoryError (path : string).

Inductive result (A : Type) : Type :=
| Ok (a : A)
| Raise (e : exn).

Arguments Ok {A} a.
Arguments Raise {A} e.

Definition bind_result {A B : Type} (r : result A) (k : A -> result B)
  : result B :=
  match r with
  | Ok a => k a
  | Raise e => Raise e
  end.

Notation "x <- r ;; k" := (bind_result r (fun x => k))
  (at level 61, r at next level, right associativity).

(** A Python number: an [int] or a [float]. *)
Inductive num : Type :=
| NInt (z : Z)
| NFloat (x : Float.float).

(** The Python values that the renderer compares. *)
Inductive value : Type :=
| VNum (n : num)
| VStr (s : string).

Module Num.

(** [str(n)]. *)
Definition str (n : num) : string :=
  match n with
  | NInt z => Str.of_Z z
  | NFloat x => Float.repr x
  end.

(** [n + x] for a float [x]: the result is a float. *)
Definition add_float (n : num) (x : Float.float) : num :=
  match n with
  | NInt z => NFloat (Float.add (Float.of_Z z) x)
  | NFloat y => NFloat (Float.add y x)
  end.

(** [x == z] for a float and an int: the exact values are compared. *)
Definition float_eq_int (x : Float.float) (z : Z) : bool :=
  match x with
  | S754_zero _ => (z =? 0)%Z
  | S754_finite neg m e =>
      let v := if neg then Zneg m else Zpos m in
      match e with
      | Zneg k => (v =? z * 2 ^ Zpos k)%Z
      | _ => (v * 2 ^ e =? z)%Z
      end
  | _ => false
  end.

(** [a == b] on numbers. *)
Definition eqb (a b : num) : bool :=
  match a, b with
  | NInt x, NInt y => (x =? y)%Z
  | NFloat x, NFloat y => SFeqb x y
  | NInt z, NFloat x | NFloat x, NInt z => float_eq_int x z
  end.

End Num.

(** [a == b]: a number never equals a string. *)
Definition py_eq (a b : value) : bool :=
  match a, b with
  | VNum x, VNum y => Num.eqb x y
  | VStr s, VStr t => String.eqb s t
  | _, _ => false
  end.

(** [float(s)]. *)
Definition py_float (s : string) : result Float.float :=
  match Float.of_string s with
  | Some x => Ok x
  | None => Raise (ValueError s)
  end.

(* ================================================================== *)
(** ** The outside world *)
(* ================================================================== *)

(** The sample records that the main section gathers and [web] renders:
    [{'status': {...}, 'grafana': ...}], each key possibly missing. *)
Record sample : Type := mkSample {
  s_status : option (dict string);
  s_grafana : option string
}.

(** The aggregate data: [{'meta': {...}, 'samples': {...}}]. *)
Record data : Type := mkData {
  d_meta : option (dict string);
  d_samples : option (dict sample)
}.

(** A node of the file system; paths are the strings the program uses,
    as it uses them. There are directories and regular files, no
    links. *)
Inductive node : Type :=
| Dir
| File (content : string).

(** What [print] has written: text, or the aggregate data. *)
Inductive printed : Type :=
| Text (s : string)
| Repr (d : data).

(** The state of a run: the file system, what has been printed, the
    commands given to [os.system], the value of the variable [data] of
    the main section, and every value that [data] has had so far, the
    oldest first. *)
Record world : Type := mkWorld {
  fs : dict node;
  stdout : list printed;
  commands : list string;
  var_data : data;
  trace : list data
}.

Definition with_fs (fs' : dict node) (w : world) : world :=
  mkWorld fs' (stdout w) (commands w) (var_data w) (trace w).

Definition with_stdout (out : list printed) (w : world) : world :=
  mkWorld (fs w) out (commands w) (var_data w) (trace w).

Definition with_commands (cmds : list string) (w : world) : world :=
  mkWorld (fs w) (stdout w) cmds (var_data w) (trace w).

(** An assignment to [data], or to a part of it. *)
Definition with_data (d : data) (w : world) : world :=
  mkWorld (fs w) (stdout w) (commands w) d (trace w ++ [d])%list.

(** A computation on the world that returns or raises. *)
Definition M (A : Type) : Type := world -> result A * world.

Definition ret {A : Type} (a : A) : M A := fun w => (Ok a, w).

Definition raise {A : Type} (e : exn) : M A := fun w => (Raise e, w).

Definition bind {A B : Type} (m : M A) (k : A -> M B) : M B :=
  fun w =>
    match m w with
    | (Ok a, w') => k a w'
    | (Raise e, w') => (Raise e, w')
    end.

Notation "x <~ m ;; k" := (bind m (fun x => k))
  (at level 61, m at next level, right associativity).
Notation "m ;;; k" := (bind m (fun _ => k))
  (at level 61, right associativity).

Definition lift {A : Type} (r : result A) : M A := fun w => (r, w).

Definition when (b : bool) (m : M unit) : M unit := if b then m else ret tt.

(** [print(s)]. *)
Definition print (s : string) : M unit :=
  fun w => (Ok tt, with_stdout (stdout w ++ [Text s])%list w).

(** [print(data)]. *)
Definition print_data (d : data) : M unit :=
  fun w => (Ok tt, with_stdout (stdout w ++ [Repr d])%list w).

Module Os.

(** [os.path.exists(p)]. *)
Definition exists_ (p : string) : M bool :=
  fun w => (Ok (Dict.mem p (fs w)), w).

(** [os.path.isdir(p)]. *)
Definition isdir (p : string) : M bool :=
  fun w => (Ok match Dict.get p (fs w) with
               | Some Dir => true
               | _ => false
               end, w).

(** [os.path.isfile(p)]. *)
Definition isfile (p : string) : M bool :=
  fun w => (Ok match Dict.get p (fs w) with
               | Some (File _) => true
               | _ => false
               end, w).

(** [os.path.join(a, b)]. *)
Definition join (a b : string) : string :=
  if Str.startswith b "/" then b
  else if Str.is_empty a || Str.endswith a "/" then a ++ b
  else a ++ "/" ++ b.

(** The last piece of [split], for a list that [split] returns. *)
Definition last_piece (l : list string) : string := last l EmptyString.

(** [os.path.basename(p)]: what follows the last slash. *)
Definition basename (p : string) : string := last_piece (Str.split p "/").

(** A path made of slashes only: the root directory. *)
Definition is_root (p : string) : bool :=
  negb (Str.is_empty p) && Str.is_empty (Str.rstrip "/" p).

(** [os.path.split(p)]: the head, which is what stands before the last
    slash, without the slashes at its end unless it is made of slashes
    only, and the tail, which is what follows the last slash. *)
Definition split (p : string) : string * string :=
  let tail := basename p in
  let head := String.substring 0 (String.length p - String.length tail) p in
  (if is_root head then head else Str.rstrip "/" head, tail).

(** The directory in which [os.mkdir(p)] makes its entry: the slashes at
    the end of [p] do not count. *)
Definition parent (p : string) : string :=
  let (head, tail) := split p in
  if Str.is_empty tail then fst (split head) else head.

(** [os.mkdir(p)] on the files [files]. The working directory, which the
    empty parent stands for, and the root directory are always there. *)
Definition mkdir (p : string) (files : dict node) : result unit * dict node :=
  if Str.is_empty p then (Raise (FileNotFoundError p), files)
  else if is_root p || Dict.mem p files then (Raise (FileExistsError p), files)
  else if Str.is_empty (parent p) || is_root (parent p)
  then (Ok tt, Dict.set p Dir files)
  else
    match Dict.get (parent p) files with
    | Some Dir => (Ok tt, Dict.set p Dir files)
    | Some (File _) => (Raise (NotADirectoryError p), files)
    | None => (Raise (FileNotFoundError p), files)
    end.

(** The recursion of [os.makedirs(name)]: the head of the path is made
    first when it is missing, and a [FileExistsError] of that call is
    passed over; then the directory itself is made, unless its tail is
    the dot. Each call is on a shorter path, and [fuel] bounds their
    number. *)
Fixpoint makedirs_from (fuel : nat) (name : string) (files : dict node)
  : result unit * dict node :=
  let (head, tail) := split name in
  let (head, tail) := if Str.is_empty tail then split head else (head, tail) in
  match fuel with
  | O => mkdir name files
  | S fuel' =>
      if negb (Str.is_empty head) && negb (Str.is_empty tail)
         && negb (Dict.mem head files)
      then
        let (made, files') := makedirs_from fuel' head files in
        let go_on :=
          if String.eqb tail "." then (Ok tt, files') else mkdir name files' in
        match made with
        | Ok _ => go_on
        | Raise (FileExistsError _) => go_on
        | Raise x => (Raise x, files')
        end
      else mkdir name files
  end.

(** [os.makedirs(p)]. Paths are told apart as strings, and the file
    system has directories and regular files only. *)
Definition makedirs (p : string) : M unit :=
  fun w =>
    let (made, files) := makedirs_from (String.length p) p (fs w) in
    (made, with_fs files w).

(** [open(p, 'r').read()] in text mode. A file holds its text as it is
    read: bytes that fail to decode, on which [read] raises
    UnicodeDecodeError, are not in the model. The output of a command is
    such text when it is ASCII ([Str.isascii]). *)
Definition read (p : string) : M string :=
  fun w =>
    match Dict.get p (fs w) with
    | Some (File c) => (Ok (Str.universal_newlines false c), w)
    | Some Dir => (Raise (IsADirectoryError p), w)
    | None => (Raise (FileNotFoundError p), w)
    end.

(** [open(os.path.join(d, name), 'w')], [write(text)] and [close()],
    for a file [name] in the directory [d]. *)
Definition write (d name text : string) : M unit :=
  fun w =>
    let p := join d name in
    match Dict.get d (fs w) with
    | None => (Raise (FileNotFoundError p), w)
    | Some (File _) => (Raise (NotADirectoryError p), w)
    | Some Dir =>
        match Dict.get p (fs w) with
        | Some Dir => (Raise (IsADirectoryError p), w)
        | _ => (Ok tt, with_fs (Dict.set p (File text) (fs w)) w)
        end
    end.

(** What a shell command does to the file system. *)
Inductive effect : Type :=
| NoEffect                    (* [export ...] in a shell of its own *)
| Remove (p : string)         (* [rm p] *)
| Append (p out : string).    (* [... >> p 2>&1], writing [out] *)

(** [os.system(cmd)]; the exit status is not looked at. *)
Definition system (cmd : string) (eff : effect) : M unit :=
  fun w =>
    let fs' :=
      match eff with
      | NoEffect => fs w
      | Remove p =>
          match Dict.get p (fs w) with
          | Some (File _) => Dict.remove p (fs w)
          | _ => fs w
          end
      | Append p out =>
          match Dict.get p (fs w) with
          | Some (File c) => Dict.set p (File (c ++ out)) (fs w)
          | Some Dir => fs w
          | None => Dict.set p (File out) (fs w)
          end
      end in
    (Ok tt, with_commands (commands w ++ [cmd])%list (with_fs fs' w)).

End Os.

(* ================================================================== *)
(** ** The report renderer *)
(* ================================================================== *)

Import Str(nl, q).

(** Concatenation of the pieces that the program adds to a text one
    after the other. *)
Definition cat (l : list string) : string := String.concat EmptyString l.

(** [sorted(l, key=key)]: the stable sort by the order of strings. *)
Fixpoint insert_by (key : string -> string) (x : string) (l : list string)
  : list string :=
  match l with
  | [] => [x]
  | y :: t =>
      if String.leb (key x) (key y) then x :: y :: t
      else y :: insert_by key x t
  end.

Definition sorted_by (key : string -> string) (l : list string)
  : list string :=
  fold_right (insert_by key) [] l.

(** [sorted(l)]. *)
Definition sorted (l : list string) : list string := sorted_by (fun x => x) l.

(** The reading of the clock, [datetime.now()]. *)
Record datetime : Type := mkDatetime {
  year : nat; month : nat; day : nat;
  hour : nat; minute : nat; second : nat
}.

(** A number with zeros in front up to [width] digits. *)
Definition zero_padded (width n : nat) : string :=
  let s := Str.of_nat n in
  Float.zeros (width - String.length s) ++ s.

(** [now.strftime("%d/%m/%Y %H:%M:%S")], as on Linux, where the year
    is written without zeros in front. *)
Definition strftime (now : datetime) : string :=
  cat [zero_padded 2 (day now); "/"; zero_padded 2 (month now); "/";
       Str.of_nat (year now); " "; zero_padded 2 (hour now); ":";
       zero_padded 2 (minute now); ":"; zero_padded 2 (second now)].

(** The fixed style text of the page. *)
Definition define_css_style : string :=
  cat [
    "<style>";

    "body {" ++ nl;
    "margin: 0;" ++ nl;
    "padding: 0;" ++ nl;
    "width: 100%;" ++ nl;
    "}" ++ nl;

    "h1 {" ++ nl;
    "width: 100%;" ++ nl;
    "text-align: center;" ++ nl;
    "font-size:20px;" ++ nl;
    "margin:0;" ++ nl;
    "padding:0;" ++ nl;
    "background: red;" ++ nl;
    "color: #FFF;" ++ nl;
    "display: inline-block;" ++ nl;
    "}" ++ nl;

    "h3 {" ++ nl;
    "width: 100%;" ++ nl;
    "text-align: center;" ++ nl;
    "font-size:15px;" ++ nl;
    "background: #EAEDED;" ++ nl;
    "margin:0;" ++ nl;
    "padding:0;" ++ nl;
    "display: inline-block;" ++ nl;
    "}" ++ nl;

    ".divide tr td { width:60%; }" ++ nl;

    ".progress-container {" ++ nl;
    "width: 100%;" ++ nl;
    "height: 20px;" ++ nl;
    "border: 1px solid black;" ++ nl;
    "position: relative;" ++ nl;
    "padding: 3px;" ++ nl;
    "}" ++ nl;

    ".progress-text {" ++ nl;
    "position: absolute;" ++ nl;
    "left: 5%;" ++ nl;
    "}" ++ nl;

    ".progress-bar {" ++ nl;
    "position: absolute;" ++ nl;
    "height: 20px;" ++ nl;
    "}" ++ nl;

    "</style>" ++ nl
  ].

(** The statuses that get a segment of the progress bar, with their
    colours, in the order of the bar. *)
Definition colors : dict string :=
  [("finished", "lightgreen");
   ("transferring", "turquoise");
   ("running", "deepskyblue");
   ("failed", "crimson")].

(** The style of one segment. *)
Definition stylestr (cumul : num) (val : Float.float) (color : string)
  : string :=
  cat ["left: "; Num.str cumul; "%; width: "; Float.repr val;
       "%; background-color: "; color].

(** The loop of [make_progress_bar] over [colors]. *)
Fixpoint progress_segments (cs : dict string) (progress_values : dict string)
  (cumul : num) (html : string) : result string :=
  match cs with
  | [] => Ok html
  | (status, color) :: rest =>
      match Dict.get status progress_values with
      | None => progress_segments rest progress_values cumul html
      | Some percentage =>
          val <- py_float (Str.strip percentage "%") ;;
          progress_segments rest progress_values (Num.add_float cumul val)
            (html ++ "<div class=" ++ q "progress-bar" ++ " style="
                  ++ q (stylestr cumul val color) ++ "></div>")
      end
  end.

(** The text over the bar. *)
Definition progress_str (progress_values : dict string) : string :=
  Str.join " " (map (fun kv => fst kv ++ ": " ++ snd kv) progress_values).

(** [make_progress_bar(progress_values)]. *)
Definition make_progress_bar (progress_values : dict string) : result string :=
  html <- progress_segments colors progress_values (NInt 0)
            ("<td> <div class=" ++ q "progress-container" ++ ">") ;;
  Ok (html ++ "<div class=" ++ q "progress-text" ++ ">"
           ++ progress_str progress_values ++ "</div>"
           ++ "</div></td>").

(** The head of the page, up to the table of the meta information. *)
Definition page_head (now : datetime) : string :=
  cat [
    "<html>" ++ nl;
    "<head>" ++ nl ++ define_css_style ++ "</head>" ++ nl;
    "<body>" ++ nl;
    "<table style=" ++ Str.dq ++ "background-color:#2C3E50;color:#EAECEE;";
    "font-size:40px;width:100%;text-align: center;" ++ Str.dq ++ ">";
    "<tr><td>Status of ntuple production</td></tr>";
    "<tr><td style=" ++ q "font-size:15px;" ++ ">Last update: "
      ++ strftime now ++ "</td></tr>";
    "</table>" ++ nl
  ].

(** The meta information. *)
Definition page_meta (data : data) : string :=
  "<div id=" ++ q "meta-info" ++ "><h1>Meta-info</h1></div>" ++ nl
  ++ match d_meta data with
     | Some meta =>
         cat (map (fun kv =>
                cat [
                  "<table class=" ++ q "divide" ++ " cellpadding=" ++ q "5px"
                    ++ " cellspacing=" ++ q "0" ++ ">" ++ nl;
                  "<tr>" ++ nl;
                  "<td style=" ++ q "width:30%" ++ ">" ++ fst kv ++ "</td>";
                  "<td style=" ++ q "widht:70%" ++ ">" ++ snd kv ++ "</td>"
                    ++ nl;
                  "</tr>" ++ nl
                ]) meta)
         ++ "</table>" ++ nl
     | None =>
         cat [
           "<table class=" ++ q "divide" ++ " cellpadding=" ++ q "5px"
             ++ " cellspacing=" ++ q "0" ++ ">" ++ nl;
           "<tr>" ++ nl;
           "<td>(nothing to display)</td>";
           "</tr>" ++ nl;
           "</table>" ++ nl
         ]
     end.

(** The names that a row shows for a sample. *)
Record sample_names : Type := mkNames {
  samplename : string;
  sampleshortname : string;
  versionname : string;
  versionshortname : string;
  production : string
}.

Definition format_sample_name (sample : string) : sample_names :=
  if (Str.count sample "/" =? 2)%nat
  then
    let sampleparts := Str.split sample "/" in
    let samplename := nth 1 sampleparts EmptyString in
    let versionname := nth 2 sampleparts EmptyString in
    mkNames samplename
            (hd EmptyString (Str.split samplename "_"))
            versionname
            (hd EmptyString
                (Str.split (Str.replace versionname "crab_" EmptyString) "-"))
            (nth 0 sampleparts EmptyString)
  else mkNames sample sample "-" "-" "-".

(** The fraction of a status as [web] reads it: [0] when the status is
    missing, else the float before the percent sign. *)
Definition fraction (key : string) (sample_status : dict string)
  : result num :=
  match Dict.get key sample_status with
  | Some percentage =>
      x <- py_float (Str.strip percentage "%") ;; Ok (NFloat x)
  | None => Ok (NInt 0)
  end.

(** The message of the guard against overwriting. *)
Definition irretrievable_msg (samplename : string) : string :=
  cat ["ERROR: the status for the sample " ++ samplename;
       " seems to be irretrievable,";
       " perhaps the submission is too long ago?";
       " Will not update the webpage to avoid overwriting useful information."].

(** The body of the loop of [web] over the samples: the row of one
    sample. The text [status_str] that the program also builds here is
    used nowhere and building it raises nothing; it is left out. *)
Definition web_sample (force : bool) (sampledata : dict sample)
  (sample : string) : result string :=
  let names := format_sample_name sample in
  match Dict.get sample sampledata with
  | None => Raise (KeyError sample)
  | Some record =>
      let sample_grafana :=
        match s_grafana record with
        | Some link => link
        | None => EmptyString
        end in
      match s_status record with
      | None => Raise (KeyError "status")
      | Some sample_status =>
          finished_fraction <- fraction "finished" sample_status ;;
          transferring_fraction <- fraction "transferring" sample_status ;;
          running_fraction <- fraction "running" sample_status ;;
          if negb force
             && ((List.length sample_status =? 1)%nat
                 && Dict.mem "finished" sample_status
                 && py_eq (VNum finished_fraction) (VStr "0%"))
          then Raise (Exception (irretrievable_msg (samplename names)))
          else
            bar <- make_progress_bar sample_status ;;
            Ok (cat [
              "<table class=" ++ q "divide" ++ " cellpadding=" ++ q "5px"
                ++ " cellspacing=" ++ q "0" ++ ">" ++ nl;
              "<tr>" ++ nl;
              "<td style=" ++ q "width:20%" ++ ">" ++ sampleshortname names
                ++ "</td>";
              "<td style=" ++ q "width:20%" ++ ">" ++ versionshortname names
                ++ "</td>";
              bar;
              "<td style=" ++ q "width:20%" ++ "> <a href=" ++ q sample_grafana
                ++ " target=" ++ q "_blank" ++ ">Grafana</a> </td>" ++ nl;
              "</tr>" ++ nl
            ])
      end
  end.

(** The loop of [web] over the sorted samples. *)
Fixpoint web_samples (force : bool) (sampledata : dict sample)
  (samples : list string) (page : string) : result string :=
  match samples with
  | [] => Ok page
  | sample :: rest =>
      row <- web_sample force sampledata sample ;;
      web_samples force sampledata rest (page ++ row)
  end.

(** The order in which [web] goes through the samples. *)
Definition web_order (sampledata : dict sample) : list string :=
  sorted_by Str.lower (Dict.keys sampledata).

(** The text of the page. *)
Definition web_page (now : datetime) (data : data) (force : bool)
  : result string :=
  let page := page_head now ++ page_meta data in
  match d_samples data with
  | None => Raise (KeyError "samples")
  | Some sampledata =>
      let samples := web_order sampledata in
      page <- web_samples force sampledata samples
                (page ++ "<div id=" ++ q "samples"
                      ++ "><h1>Samples</h1></div>" ++ nl) ;;
      Ok (page ++ "</table>" ++ nl ++ "</body>" ++ nl ++ "</html>")
  end.

(** [web(data, webpath, force)], with the reading [now] of the clock. *)
Definition web (now : datetime) (data : data) (webpath : string)
  (force : bool) : M unit :=
  present <~ Os.exists_ webpath ;;
  when (negb present) (Os.makedirs webpath) ;;;
  page <~ lift (web_page now data force) ;;
  Os.write webpath "index.html" page.

(* ================================================================== *)
(** ** The main section: status parser and aggregator *)
(* ================================================================== *)

(** The command-line arguments. *)
Record args : Type := mkArgs {
  simpackdir : string;
  resubmit : bool;
  proxy : option string;
  test : bool
}.

(** What a run takes from its surroundings. *)
Record env : Type := mkEnv {
  argv : args;
  (** [str(args)] *)
  args_str : string;
  (** [os.path.abspath(__file__)] *)
  script : string;
  (** [os.path.abspath(os.path.dirname(__file__))] *)
  thisdir : string;
  (** [glob.glob(os.path.join(args.simpackdir, '**/crab_logs/*'),
      recursive=True)] *)
  glob_crab_logs : list string;
  (** the text that the command given to [os.system] after [n] others
      sends to its output *)
  crab : nat -> string;
  (** [datetime.now()] at the time of rendering *)
  clock : datetime;
  (** [os.getenv('USER')] *)
  user : option string;
  (** [os.path.abspath] *)
  abspath : string -> string
}.

(** [str(o)] for a string or [None]. *)
Definition str_option (o : option string) : string :=
  match o with
  | Some s => s
  | None => "None"
  end.

(** The value of [data]. *)
Definition get_data : M data := fun w => (Ok (var_data w), w).

(** [data = d]. *)
Definition set_data (d : data) : M unit := fun w => (Ok tt, with_data d w).

(** A change of [data['samples']] in place. *)
Definition update_samples (change : dict sample -> result (dict sample))
  : M unit :=
  fun w =>
    match d_samples (var_data w) with
    | None => (Raise (KeyError "samples"), w)
    | Some samples =>
        match change samples with
        | Ok samples' =>
            (Ok tt, with_data (mkData (d_meta (var_data w)) (Some samples')) w)
        | Raise e => (Raise e, w)
        end
    end.

(** A change of [data['samples'][name]] in place. *)
Definition update_sample (name : string) (change : sample -> result sample)
  (samples : dict sample) : result (dict sample) :=
  match Dict.get name samples with
  | None => Raise (KeyError name)
  | Some record =>
      record' <- change record ;; Ok (Dict.set name record' samples)
  end.

(** [data['samples'][name] = {'status': {'finished':'0%'}, 'grafana': ''}] *)
Definition init_sample (name : string) (samples : dict sample)
  : result (dict sample) :=
  Ok (Dict.set name
        (mkSample (Some [("finished", "0%")]) (Some EmptyString)) samples).

(** [data['samples'][name]['status'] = {'crab status': 'failed'}] *)
Definition set_failed (name : string) : dict sample -> result (dict sample) :=
  update_sample name (fun record =>
    Ok (mkSample (Some [("crab status", "failed")]) (s_grafana record))).

(** [data['samples'][name]['status'][status] = frac] *)
Definition set_status (name status frac : string)
  : dict sample -> result (dict sample) :=
  update_sample name (fun record =>
    match s_status record with
    | None => Raise (KeyError "status")
    | Some sample_status =>
        Ok (mkSample (Some (Dict.set status frac sample_status))
                     (s_grafana record))
    end).

(** [data['samples'][name]['grafana'] = link] *)
Definition set_grafana (name link : string)
  : dict sample -> result (dict sample) :=
  update_sample name (fun record =>
    Ok (mkSample (s_status record) (Some link))).

(** The log file of the status command. *)
Definition tmpfile (e : env) : string :=
  Os.join (thisdir e) "monitor_tmp_log.txt".

(** [os.system(cmd)] for a command that sends its output to the log
    file, which the status command of a sample and its resubmission
    command do with [>> tmpfile 2>&1]. The shell reads the command line,
    where the paths stand without quotes: the model takes the
    redirection to reach the log file, as it does when the paths are
    plain ([plain_path]). What the command prints is given by [crab]. *)
Definition run_script (e : env) (cmd : string) : M unit :=
  fun w =>
    Os.system cmd (Os.Append (tmpfile e) (crab e (List.length (commands w))))
              w.

(** [os.system('rm {}'.format(tmpfile))], for a path of the log file
    that the shell takes as it stands. *)
Definition rm_tmpfile (e : env) : M unit :=
  Os.system ("rm " ++ tmpfile e) (Os.Remove (tmpfile e)).

(** The directory that holds the [crab_logs] directory of a sample. *)
Definition workdir (f : string) : string :=
  hd EmptyString (Str.split f "/crab_logs/").

(** The loop that finds the status script of each sample and makes the
    commands. *)
Fixpoint find_commands (e : env) (fproc : list string) : M (list string) :=
  match fproc with
  | [] => ret []
  | f :: rest =>
      let exe := Os.join (workdir f) "crab_status.sh" in
      present <~ Os.exists_ exe ;;
      if negb present
      then raise (Exception
                    ("Could not find crab_status.sh script at location "
                     ++ exe ++ "for sample " ++ f ++ "."))
      else
        let cmd := "cd " ++ workdir f
                   ++ "; bash crab_status.sh " ++ f ++ " >> " ++ tmpfile e
                   ++ " 2>&1" in
        cmds <~ find_commands e rest ;;
        ret (cmd :: cmds)
  end.

(** The loop that sets every sample to 0% finished and an empty link. *)
Fixpoint initialize (fproc : list string) : M unit :=
  match fproc with
  | [] => ret tt
  | f :: rest =>
      update_samples (init_sample (Os.basename f)) ;;; initialize rest
  end.

(** The test of one attempt: the lines of the log file that start with
    the marker are exactly one. *)
Definition thissucces (outlines : list string) : bool :=
  if (0 <? List.length outlines)%nat
  then (List.length
          (filter (fun l => Str.startswith l "Jobs status:") outlines)
        =? 1)%nat
  else false.

(** The loop [while (attempt<5 and not success)]: [remaining] is
    [5 - attempt], and the result is [success]. *)
Fixpoint status_attempts (e : env) (status_cmd : string) (remaining : nat)
  : M bool :=
  match remaining with
  | O => ret false
  | S remaining' =>
      run_script e status_cmd ;;;
      text <~ Os.read (tmpfile e) ;;
      if thissucces (Str.splitlines text) then ret true
      else
        print "Crab status seems to have failed, retrying..." ;;;
        status_attempts e status_cmd remaining'
  end.

(** The job statuses that the parser knows. *)
Definition known_statuses : list string :=
  ["finished"; "running"; "transferring"; "failed"; "killed"; "idle";
   "unsubmitted"; "toRetry"].

(** The loop over the known statuses for one line with the words
    [words]; the result is [jobsfailed]. *)
Fixpoint parse_statuses (name : string) (words : list string)
  (statuses : list string) (jobsfailed : bool) : M bool :=
  match statuses with
  | [] => ret jobsfailed
  | status :: rest =>
      if Str.contains status (hd EmptyString words)
      then
        let frac := nth 1 words "<none>" in
        update_samples (set_status name status frac) ;;;
        let jobsfailed := if String.eqb status "failed" then true
                          else jobsfailed in
        print ("Percentage " ++ status ++ ": " ++ frac) ;;;
        parse_statuses name words rest jobsfailed
      else parse_statuses name words rest jobsfailed
  end.

(** The body of the loop over the lines of the log file; the result is
    the value of the variable [line] and [jobsfailed]. *)
Definition parse_line (name : string) (line : string) (jobsfailed : bool)
  : M (string * bool) :=
  let line := Str.replace line "Jobs status:" EmptyString in
  let words := Str.split_ws line in
  if (List.length words =? 0)%nat then ret (line, jobsfailed)
  else
    jobsfailed <~ parse_statuses name words known_statuses jobsfailed ;;
    if Str.startswith line "Dashboard monitoring URL"
    then
      match nth_error words 3 with
      | None => raise IndexError
      | Some link =>
          update_samples (set_grafana name link) ;;; ret (line, jobsfailed)
      end
    else ret (line, jobsfailed).

(** The loop over the lines of the log file. The variable [line] keeps
    the value it had before the loop when there is no line. *)
Fixpoint parse_lines (name : string) (outlines : list string)
  (line : option string) (jobsfailed : bool) : M (option string * bool) :=
  match outlines with
  | [] => ret (line, jobsfailed)
  | l :: rest =>
      r <~ parse_line name l jobsfailed ;;
      parse_lines name rest (Some (fst r)) (snd r)
  end.

(** The check after the loop, on the variable [line]: the result is
    [statuscompleted]. *)
Definition check_completed (f : string) (line : option string) : M bool :=
  match line with
  | None => raise (NameError "line")
  | Some line =>
      if Str.contains "Status on the scheduler" line
      then
        if Str.contains "COMPLETED" line
        then
          results <~ Os.isfile (f ++ "/results/processedLumis.json") ;;
          ret (negb results)
        else ret false
      else ret false
  end.

(** The end of the body of the loop for a sample whose status command
    has failed: the failure mapping, and on to the next sample. *)
Definition skip_sample (f : string) (line : option string)
  : M (option string) :=
  print "Crab status seems to have failed, skipping this sample." ;;;
  update_samples (set_failed (Os.basename f)) ;;;
  ret line.

(** What follows the parsing of the lines of a sample: the check of
    completion, the resubmission and the report. *)
Definition report_sample (e : env) (f status_cmd : string)
  (line : option string) (jobsfailed : bool) : M (option string) :=
  statuscompleted <~ check_completed f line ;;
  when (jobsfailed && resubmit (argv e))
       (print "Found failed jobs, now resubmitting..." ;;;
        run_script e (Str.replace status_cmd "crab_status.sh"
                                  "crab_command.sh resubmit") ;;;
        print "Done") ;;;
  when statuscompleted (print "This task is completed...") ;;;
  ret line.

(** The end of the body of the loop for a sample whose status command
    has succeeded: the log file is read and parsed. *)
Definition parse_sample (e : env) (f status_cmd : string)
  (line : option string) : M (option string) :=
  text <~ Os.read (tmpfile e) ;;
  let outlines := Str.splitlines text in
  rm_tmpfile e ;;;
  r <~ parse_lines (Os.basename f) outlines line false ;;
  report_sample e f status_cmd (fst r) (snd r).

(** The body of the loop over the samples; [line] is the variable of
    that name, which lives on from one sample to the next. *)
Definition process_sample (e : env) (nfproc fidx : nat) (f status_cmd : string)
  (line : option string) : M (option string) :=
  print ("Now processing sample " ++ Str.of_nat (fidx + 1) ++ " of "
         ++ Str.of_nat nfproc) ;;;
  print ("(" ++ f ++ ")") ;;;
  present <~ Os.exists_ (tmpfile e) ;;
  when present (rm_tmpfile e) ;;;
  success <~ status_attempts e status_cmd 5 ;;
  if negb success then skip_sample f line
  else parse_sample e f status_cmd line.

(** The loop over the samples, each with its command. *)
Fixpoint aggregate (e : env) (nfproc fidx : nat)
  (todo : list (string * string)) (line : option string)
  : M (option string) :=
  match todo with
  | [] => ret line
  | (f, status_cmd) :: rest =>
      line <~ process_sample e nfproc fidx f status_cmd line ;;
      aggregate e nfproc (S fidx) rest line
  end.

(** The samples that a run polls: the sorted paths, or the first three
    of them at most in test mode. *)
Definition selected (e : env) : list string :=
  let fproc := sorted (glob_crab_logs e) in
  let nfproc := List.length fproc in
  if test (argv e) then firstn (Nat.min 3 nfproc) fproc else fproc.

(** The part of the main section that gathers the statuses of the
    samples [fproc]: the commands, the initial records, and the loop
    over the samples. *)
Definition gather (e : env) (fproc : list string) : M unit :=
  cmds <~ find_commands e fproc ;;
  initialize fproc ;;;
  aggregate e (List.length fproc) 0 (combine fproc cmds) None ;;;
  ret tt.

(** The end of the main section: the web page and the last messages. *)
Definition publish (e : env) : M unit :=
  print "Loop over all samples completed." ;;;
  print "Retrieved following data:" ;;;
  data <~ get_data ;;
  print_data data ;;;
  let webpath := "monitor_crab_jobs" in
  web (clock e) data webpath false ;;;
  let fullpath := Os.join webpath "index.html" in
  print ("Sample status written to " ++ fullpath ++ ".") ;;;
  print ("Use scp -r " ++ str_option (user e) ++ "@lxplus.cern.ch:"
         ++ abspath e fullpath ++ " to download the results") ;;;
  print "Done.".

(** The start of the main section: the configuration is printed and
    checked, [data] is made, and the samples are counted. *)
Definition startup (e : env) : M unit :=
  let a := argv e in
  print "Running monitor_crab_jobs.py with following configuration:" ;;;
  print ("  - simpackdir: " ++ simpackdir a) ;;;
  print ("  - resubmit: " ++ Str.of_bool (resubmit a)) ;;;
  print ("  - proxy: " ++ str_option (proxy a)) ;;;
  print ("  - test: " ++ Str.of_bool (test a)) ;;;
  isdir <~ Os.isdir (simpackdir a) ;;
  if negb isdir
  then raise (Exception ("ERROR: simpack directory " ++ simpackdir a
                         ++ " does not exist"))
  else
    match proxy a with
    | None => ret tt
    | Some p =>
        present <~ Os.exists_ p ;;
        if negb present
        then raise (Exception ("ERROR: provided proxy " ++ p
                               ++ " does not exist"))
        else Os.system ("export X509_USER_PROXY=" ++ p) Os.NoEffect
    end ;;;
    set_data (mkData (Some [("generating script", script e);
                            ("command-line arguments", args_str e)])
                     (Some [])) ;;;
    let nfproc := List.length (sorted (glob_crab_logs e)) in
    if (nfproc =? 0)%nat
    then raise (Exception "No samples found in provided simpack dir; exiting.")
    else
      when (test a)
           (print ("WARNING: running in test mode, will only process"
                   ++ " " ++ Str.of_nat (Nat.min 3 nfproc) ++ " out of "
                   ++ Str.of_nat nfproc ++ " samples")).

(** The main section up to the end of the loop over the samples. *)
Definition aggregation (e : env) : M unit :=
  startup e ;;; gather e (selected e).

(** The main section. The working directory that it saves and goes back
    to never changes: the [cd] of a command happens in the shell of that
    command. *)
Definition main (e : env) : M unit :=
  aggregation e ;;; publish e.

(* ================================================================== *)
(** ** Notions that the properties are stated with *)
(* ================================================================== *)

(** The status mapping of the sample [name] in the variable [data]. *)
Definition status_of (name : string) (w : world) : option (dict string) :=
  match d_samples (var_data w) with
  | Some samples =>
      match Dict.get name samples with
      | Some record => s_status record
      | None => None
      end
  | None => None
  end.

(** *** The progress bar in the words of its description *)

(** A segment of the bar: its offset from the left, its width and its
    colour. *)
Record segment : Type := mkSegment {
  seg_left : num;
  seg_width : Float.float;
  seg_color : string
}.

(** The HTML element of a segment. *)
Definition segment_html (s : segment) : string :=
  "<div class=" ++ q "progress-bar" ++ " style="
  ++ q (cat ["left: "; Num.str (seg_left s); "%; width: ";
             Float.repr (seg_width s); "%; background-color: ";
             seg_color s])
  ++ "></div>".

(** The statuses of a mapping that get a segment, in the order of the
    bar. *)
Definition bar_statuses (progress_values : dict string) : list string :=
  filter (fun status => Dict.mem status progress_values)
         ["finished"; "transferring"; "running"; "failed"].

(** The percentage of a status as a number, when it has one. *)
Definition percentage_value (progress_values : dict string) (status : string)
  : option Float.float :=
  match Dict.get status progress_values with
  | Some percentage => Float.of_string (Str.strip percentage "%")
  | None => None
  end.

Definition color_of (status : string) : string :=
  match Dict.get status colors with
  | Some color => color
  | None => EmptyString
  end.

(** The sum of floats as Python computes it, from the integer 0. *)
Definition py_sum (xs : list Float.float) : num :=
  fold_left Num.add_float xs (NInt 0).

(** The segments of the statuses [statuses] with the widths [widths]:
    the [i]-th one starts where the widths of those before it end. *)
Definition bar_segments (statuses : list string) (widths : list Float.float)
  : list segment :=
  map (fun i =>
         mkSegment (py_sum (firstn i widths))
                   (nth i widths Float.zero)
                   (color_of (nth i statuses EmptyString)))
      (seq 0 (List.length statuses)).

(** The segments by recursion on the pairs of status and colour. *)
Fixpoint segments_from (cumul : num) (cs : dict string)
  (widths : list Float.float) : list segment :=
  match cs, widths with
  | (_, color) :: cs', w :: widths' =>
      mkSegment cumul w color
      :: segments_from (Num.add_float cumul w) cs' widths'
  | _, _ => []
  end.

(** *** The lines of the status output *)

(** The words of a line as the parser takes them: the marker is deleted
    wherever it stands, and the rest is split at white space. *)
Definition line_words (line : string) : list string :=
  Str.split_ws (Str.replace line "Jobs status:" EmptyString).

(** The first word of a line, empty when the line has none. *)
Definition first_word (line : string) : string :=
  hd EmptyString (line_words line).

(** The second word of a line, or the placeholder. *)
Definition second_word (line : string) : string :=
  nth 1 (line_words line) "<none>".

(** The entries that a line with the words [words] gives to a status
    mapping, for the statuses [statuses] in turn. *)
Definition line_updates (words statuses : list string) (st : dict string)
  : dict string :=
  fold_left (fun st status =>
               if Str.contains status (hd EmptyString words)
               then Dict.set status (nth 1 words "<none>") st
               else st)
            statuses st.

(** Characters that are neither white space nor the first letter of
    the marker. *)
Definition plain (c : ascii) : bool :=
  negb (Str.isspace c) && negb (Ascii.eqb c "J").

Fixpoint all_plain (s : string) : bool :=
  match s with
  | EmptyString => true
  | String c t => plain c && all_plain t
  end.

(** *** The retries of the status command *)

(** The text of the log file after [k] runs of the status command that
    start on an empty or missing file when [n0] commands have been
    given before. *)
Definition log_after (e : env) (n0 k : nat) : string :=
  cat (map (fun i => crab e (n0 + i)) (seq 0 k)).

(** The test of the aggregator on the log file after [k] runs. *)
Definition attempt_succeeds (e : env) (n0 k : nat) : bool :=
  thissucces (Str.splitlines (Str.universal_newlines false (log_after e n0 k))).

(** The number of runs that the loop of the attempts makes when [done]
    runs have failed and [remaining] more may be made: the number of the
    first run whose test holds, or all of them. *)
Fixpoint runs_needed (ok : nat -> bool) (done remaining : nat) : nat :=
  match remaining with
  | O => done
  | S remaining' =>
      if ok (S done) then S done else runs_needed ok (S done) remaining'
  end.

(** The number of runs of the status command for a sample. *)
Definition attempts_made (e : env) (n0 : nat) : nat :=
  runs_needed (attempt_succeeds e n0) 0 5.

(** The lines that the parser gets for a sample. *)
Definition polled_lines (e : env) (n0 : nat) : list string :=
  Str.splitlines
    (Str.universal_newlines false (log_after e n0 (attempts_made e n0))).

(** The log file holds the outputs of [k] runs, or is not there when
    there has been no run. *)
Definition log_is (e : env) (n0 k : nat) (w : world) : Prop :=
  Dict.get (tmpfile e) (fs w) = Some (File (log_after e n0 k))
  \/ (k = 0 /\ Dict.get (tmpfile e) (fs w) = None).

(** The command that removes the log file, when it is there at the
    start of a sample. *)
Definition removal (e : env) (w : world) : list string :=
  if Dict.mem (tmpfile e) (fs w) then ["rm " ++ tmpfile e] else [].

(** The failure mapping of a sample. *)
Definition crab_failed : dict string := [("crab status", "failed")].

(** *** The status keys *)

Definition keys_within (allowed : list string) (d : data) : Prop :=
  forall samples name record sample_status key,
    d_samples d = Some samples ->
    Dict.get name samples = Some record ->
    s_status record = Some sample_status ->
    In key (Dict.keys sample_status) ->
    In key allowed.

(** The keys that a status mapping gets in a run: the known statuses
    and the key of the failure mapping. *)
Definition status_keys : list string :=
  (known_statuses ++ ["crab status"])%list.

(** The same on the samples of [data]. *)
Definition samples_within (allowed : list string) (samples : dict sample)
  : Prop :=
  forall name record sample_status key,
    Dict.get name samples = Some record ->
    s_status record = Some sample_status ->
    In key (Dict.keys sample_status) ->
    In key allowed.

(** *** Reasoning on runs *)

(** A computation that leaves the variable [data] alone. *)
Definition keeps_data {A : Type} (m : M A) : Prop :=
  forall w, var_data (snd (m w)) = var_data w /\ trace (snd (m w)) = trace w.

(** A computation that only adds to the commands given so far. *)
Definition adds_commands {A : Type} (m : M A) : Prop :=
  forall w, exists more, commands (snd (m w)) = (commands w ++ more)%list.

(** From a world with [I], the computation ends in a world with [Q]
    when it returns and in a world with [E] when it raises. *)
Definition triple {A : Type} (I : world -> Prop) (m : M A)
  (Q E : world -> Prop) : Prop :=
  forall w, I w ->
    match fst (m w) with
    | Ok _ => Q (snd (m w))
    | Raise _ => E (snd (m w))
    end.

(** The computation keeps [I], however it ends. *)
Definition stable {A : Type} (I : world -> Prop) (m : M A) : Prop :=
  triple I m I I.

(** Every value given to [data] since the trace was [t0] has [P]. *)
Definition since (t0 : list data) (P : data -> Prop) (w : world) : Prop :=
  exists l, trace w = (t0 ++ l)%list /\ Forall P l.

(** The same, and [data] has [P] now. *)
Definition since_now (t0 : list data) (P : data -> Prop) (w : world)
  : Prop :=
  since t0 P w /\ P (var_data w).

(** The invariant of a run on the keys of the status mappings. *)
Definition keys_inv (t0 : list data) : world -> Prop :=
  since_now t0 (keys_within status_keys).

(** *** The orders of the samples *)

(** [a] comes before [b], or with it, in the order of the keys. *)
Definition key_le (key : string -> string) (a b : string) : Prop :=
  String.leb (key a) (key b) = true.

(** *** The entry of the finished jobs *)

(** A status mapping is the failure mapping or has the entry of the
    finished jobs. *)
Definition good_status (st : dict string) : Prop :=
  st = crab_failed \/ Dict.mem "finished" st = true.

Definition all_good (w : world) : Prop :=
  forall name st, status_of name w = Some st -> good_status st.

(** The samples [names] have a status mapping with the entry of the
    finished jobs. *)
Definition pending (names : list string) (w : world) : Prop :=
  forall name,
    In name names ->
    exists st, status_of name w = Some st /\ Dict.mem "finished" st = true.

(** The state of the loop over the samples when [names] are still to
    be polled. *)
Definition settled (names : list string) (w : world) : Prop :=
  all_good w /\ pending names w.

(** There are samples, and every status mapping has the entry of the
    finished jobs. *)
Definition fresh (w : world) : Prop :=
  d_samples (var_data w) <> None
  /\ forall name st,
       status_of name w = Some st -> Dict.mem "finished" st = true.

(** The entries that the lines [outlines] give to a status mapping. *)
Definition lines_updates (outlines : list string) (st : dict string)
  : dict string :=
  fold_left (fun st l => line_updates (line_words l) known_statuses st)
            outlines st.

(** Any end of a run will do. *)
Definition anyhow (w : world) : Prop := True.

(** *** The start of a run and the commands of the samples *)

(** The status script of a sample. *)
Definition status_script (f : string) : string :=
  Os.join (workdir f) "crab_status.sh".

(** The status command of a sample. *)
Definition status_command (e : env) (f : string) : string :=
  "cd " ++ workdir f ++ "; bash crab_status.sh " ++ f ++ " >> " ++ tmpfile e
  ++ " 2>&1".

(** The first of the samples whose status script is not there. *)
Definition first_without_script (fproc : list string) (w : world)
  : option string :=
  find (fun f => negb (Dict.mem (status_script f) (fs w))) fproc.

(** The message for a sample without its status script. *)
Definition missing_script_msg (f : string) : string :=
  "Could not find crab_status.sh script at location " ++ status_script f
  ++ "for sample " ++ f ++ ".".

(** The messages that show the configuration. *)
Definition configuration (e : env) : list string :=
  ["Running monitor_crab_jobs.py with following configuration:";
   "  - simpackdir: " ++ simpackdir (argv e);
   "  - resubmit: " ++ Str.of_bool (resubmit (argv e));
   "  - proxy: " ++ str_option (proxy (argv e));
   "  - test: " ++ Str.of_bool (test (argv e))].

(** The data that the main section starts from. *)
Definition initial_data (e : env) : data :=
  mkData (Some [("generating script", script e);
                ("command-line arguments", args_str e)])
         (Some []).

(** The command that exports the proxy, when there is one. *)
Definition export_proxy (e : env) : list string :=
  match proxy (argv e) with
  | Some p => ["export X509_USER_PROXY=" ++ p]
  | None => []
  end.

(** *** Files and commands of a computation *)

(** A computation that changes no file but those at [paths]. *)
Definition touches_only {A : Type} (paths : list string) (m : M A) : Prop :=
  forall w p,
    ~ In p paths -> Dict.get p (fs (snd (m w))) = Dict.get p (fs w).

(** A computation that leaves the files and the commands alone. *)
Definition quiet {A : Type} (m : M A) : Prop :=
  forall w, fs (snd (m w)) = fs w /\ commands (snd (m w)) = commands w.

(** A computation that gives only commands with [P] to [os.system]. *)
Definition runs_only {A : Type} (P : string -> Prop) (m : M A) : Prop :=
  forall w,
    exists more,
      commands (snd (m w)) = (commands w ++ more)%list /\ Forall P more.

(** *** The page of a run *)

(** The page of a directory. *)
Definition index_html (webpath : string) : string :=
  Os.join webpath "index.html".

(** The world once the directory [webpath] is there. *)
Definition with_directory (webpath : string) (w : world) : world :=
  if Dict.mem webpath (fs w) then w
  else with_fs (Dict.set webpath Dir (fs w)) w.

(** The messages before the call of [web] and after it. *)
Definition before_web (w : world) : list printed :=
  [Text "Loop over all samples completed.";
   Text "Retrieved following data:";
   Repr (var_data w)].

Definition after_web (e : env) : list printed :=
  [Text "Sample status written to monitor_crab_jobs/index.html.";
   Text ("Use scp -r " ++ str_option (user e) ++ "@lxplus.cern.ch:"
         ++ abspath e "monitor_crab_jobs/index.html"
         ++ " to download the results");
   Text "Done."].

(** *** The commands of a run *)

(** The command that resubmits the failed jobs of a sample. *)
Definition resubmit_command (status_cmd : string) : string :=
  Str.replace status_cmd "crab_status.sh" "crab_command.sh resubmit".

(** The commands of a run: the export of the proxy, the removal of the
    log file, the status command of a sample that is polled and, when
    resubmission is asked for, its resubmission command. *)
Definition command_of_run (e : env) (c : string) : Prop :=
  In c (export_proxy e)
  \/ c = "rm " ++ tmpfile e
  \/ exists f,
       In f (selected e)
       /\ (c = status_command e f
           \/ (resubmit (argv e) = true
               /\ c = resubmit_command (status_command e f))).

(** Some line has [failed] in its first word. *)
Definition mentions_failed (outlines : list string) : bool :=
  existsb (fun l => Str.contains "failed" (first_word l)) outlines.

(** *** The parts of the page *)

(** The text over the bar, with the end of the cell. *)
Definition bar_text (progress_values : dict string) : string :=
  "<div class=" ++ q "progress-text" ++ ">" ++ progress_str progress_values
  ++ "</div>" ++ "</div></td>".

(** The heading of the samples and the end of the page. *)
Definition samples_heading : string :=
  "<div id=" ++ q "samples" ++ "><h1>Samples</h1></div>" ++ nl.

Definition page_end : string :=
  "</table>" ++ nl ++ "</body>" ++ nl ++ "</html>".

(** The head of the page before the time of the update. *)
Definition before_time : string :=
  cat [
    "<html>" ++ nl;
    "<head>" ++ nl ++ define_css_style ++ "</head>" ++ nl;
    "<body>" ++ nl;
    "<table style=" ++ Str.dq ++ "background-color:#2C3E50;color:#EAECEE;";
    "font-size:40px;width:100%;text-align: center;" ++ Str.dq ++ ">";
    "<tr><td>Status of ntuple production</td></tr>";
    "<tr><td style=" ++ q "font-size:15px;" ++ ">Last update: "
  ].

(** *** The outcome of a computation *)

(** From a world with [I], the computation returns a value and a world
    with [Q], or raises an exception with [X]. *)
Definition outcome {A : Type} (I : world -> Prop) (m : M A)
  (Q : A -> world -> Prop) (X : exn -> Prop) : Prop :=
  forall w, I w ->
    match fst (m w) with
    | Ok a => Q a (snd (m w))
    | Raise x => X x
    end.

(** A computation that always returns. *)
Definition returns {A : Type} (m : M A) : Prop :=
  forall w, exists a, fst (m w) = Ok a.

(** Every sample of [samples] has a status mapping and a link, and the
    samples [names] are among them. *)
Definition samples_recorded (names : list string) (samples : dict sample)
  : Prop :=
  (forall name record,
     Dict.get name samples = Some record ->
     s_status record <> None /\ s_grafana record <> None)
  /\ (forall name, In name names -> Dict.mem name samples = true).

(** The same on the variable [data]. *)
Definition recorded (names : list string) (w : world) : Prop :=
  exists samples,
    d_samples (var_data w) = Some samples /\ samples_recorded names samples.

(** *** The failures of a run *)

(** The failures of the polling of a sample. *)
Definition polling_failure (e : env) (x : exn) : Prop :=
  x = IsADirectoryError (tmpfile e) \/ x = IndexError.

(** The failures of the configuration of a run. *)
Definition configuration_error (e : env) (x : exn) : Prop :=
  x = Exception ("ERROR: simpack directory " ++ simpackdir (argv e)
                 ++ " does not exist")
  \/ (exists p,
        proxy (argv e) = Some p
        /\ x = Exception ("ERROR: provided proxy " ++ p ++ " does not exist"))
  \/ x = Exception "No samples found in provided simpack dir; exiting."
  \/ exists f, In f (selected e) /\ x = Exception (missing_script_msg f).

(** The failures of the writing of the page. *)
Definition publishing_failure (x : exn) : Prop :=
  (exists s, x = ValueError s)
  \/ x = NotADirectoryError "monitor_crab_jobs/index.html"
  \/ x = IsADirectoryError "monitor_crab_jobs/index.html".

(** The failures of a run. *)
Definition failure_of_run (e : env) (x : exn) : Prop :=
  configuration_error e x \/ polling_failure e x \/ publishing_failure x.

(** *** The records and the meta information *)

(** The record of the sample [name] in the variable [data]. *)
Definition record_of (name : string) (w : world) : option sample :=
  match d_samples (var_data w) with
  | Some samples => Dict.get name samples
  | None => None
  end.

(** A computation that leaves the records of the samples other than
    [name] alone. *)
Definition keeps_others {A : Type} (name : string) (m : M A) : Prop :=
  forall w other,
    other <> name -> record_of other (snd (m w)) = record_of other w.

(** The meta information of a run. *)
Definition meta_of_run (e : env) : dict string :=
  [("generating script", script e); ("command-line arguments", args_str e)].

(** *** The entries of a whole log *)

(** The line gives an entry for [key]: [key] is a known status and is
    part of the first word. *)
Definition gives_entry (key line : string) : bool :=
  existsb (String.eqb key) known_statuses
  && Str.contains key (first_word line).

(** The last of the lines that gives an entry for [key]. *)
Definition last_entry (key : string) (outlines : list string)
  : option string :=
  find (gives_entry key) (rev outlines).

(** *** The making of directories *)

(** A name in the working directory: it is not empty and has no head. *)
Definition plain_name (p : string) : Prop :=
  p <> EmptyString /\ Os.is_root p = false /\ Os.split p = (EmptyString, p).

(** The files [files'] are the files [files] with new directories, at
    paths of [bound] characters at most. *)
Definition dirs_added (bound : nat) (files files' : dict node) : Prop :=
  forall k,
    Dict.get k files' = Dict.get k files
    \/ (Dict.get k files = None /\ Dict.get k files' = Some Dir
        /\ String.length k <= bound).

(** *** The paths that the shell takes as they stand *)

(** Letters, digits, the slash, the dot, the underscore and the hyphen. *)
Definition path_char (c : ascii) : bool :=
  let n := nat_of_ascii c in
  (((48 <=? n) && (n <=? 57)) || ((65 <=? n) && (n <=? 90))
   || ((97 <=? n) && (n <=? 122))
   || (n =? 47) || (n =? 46) || (n =? 95) || (n =? 45))%nat.

Fixpoint path_chars (s : string) : bool :=
  match s with
  | EmptyString => true
  | String c t => path_char c && path_chars t
  end.

(** An absolute path of such characters: one word of a command line,
    which the shell leaves as it is and which names the same file in
    every working directory. The status command of a sample with such
    paths is the words of [status_command_words]. *)
Definition plain_path (p : string) : bool :=
  Str.startswith p "/" && path_chars p.

(** A text without white space: one word of a command line. *)
Fixpoint one_word (s : string) : bool :=
  match s with
  | EmptyString => true
  | String c t => negb (Str.isspace c) && one_word t
  end.

(** The paths of a run are plain: the log file, the samples that are
    polled and the proxy; and the resubmission command, which is the
    status command with another script, has the same log file. *)
Definition plain_run (e : env) : bool :=
  plain_path (tmpfile e)
  && forallb plain_path (selected e)
  && match proxy (argv e) with
     | Some p => plain_path p
     | None => true
     end
  && (negb (resubmit (argv e))
      || negb (Str.contains "crab_status.sh" (tmpfile e))).

(** *** Sample inputs *)

Module Sample.

Definition now : datetime := mkDatetime 2024 3 7 9 5 1.

(** The float 50.0. *)
Definition fifty : Float.float := S754_finite false 7036874417766400 (-47).

Definition half_half : dict string :=
  [("finished", "50%"); ("running", "50%")].

(** A run whose only sample has the status that the guard of [web] is
    meant for, over a page written before. *)
Definition irretrievable : data :=
  mkData None
    (Some [("sampleA",
            mkSample (Some [("finished", "0%")]) (Some EmptyString))]).

Definition published_before : world :=
  mkWorld [("monitor_crab_jobs", Dir);
           ("monitor_crab_jobs/index.html", File "<html>73%</html>")]
          [] [] irretrievable [irretrievable].

(** A world in which the sample [crab_s1] has its initial record. *)
Definition polling : world :=
  mkWorld [] [] []
    (mkData None
       (Some [("crab_s1",
               mkSample (Some [("finished", "0%")]) (Some EmptyString))]))
    [].

Definition args0 : args := mkArgs "/sim" false None false.

(** An environment with the samples [paths] and the command outputs
    [outputs]. *)
Definition env_of (paths : list string) (outputs : nat -> string) : env :=
  mkEnv args0 "Namespace()" "/code/monitor_crab_jobs.py" "/code"
        paths outputs now (Some "user") (fun p => "/cwd/" ++ p).

Definition garbage : string := "Traceback" ++ nl.

(** Two sample directories of the same name under different work
    directories. *)
Definition same_name : list string :=
  ["/sim/a/crab_logs/crab_s"; "/sim/b/crab_logs/crab_s"].

(** Two sample directories whose order by path differs from the order
    of their names. *)
Definition crossed : list string :=
  ["/sim/a/crab_logs/crab_z"; "/sim/b/crab_logs/crab_y"].

(** The file system with the simpack directory and the status scripts
    of the work directories [a] and [b]. *)
Definition start : world :=
  mkWorld [("/sim", Dir);
           ("/sim/a/crab_status.sh", File EmptyString);
           ("/sim/b/crab_status.sh", File EmptyString)]
          [] [] (mkData None None) [].

(** The line of the job statuses as the status command prints it. *)
Definition jobs_line (status percentage counts : string) : string :=
  "Jobs status:                    " ++ status ++ "     " ++ Str.tab ++ Str.tab
  ++ percentage ++ " " ++ counts ++ nl.

(** The status command fails for the first sample and reports running
    jobs for the second. *)
Definition fails_then_runs (n : nat) : string :=
  if (n <? 5)%nat then garbage
  else jobs_line "running" "100.0%" "(10/10)".

Definition always_fails (n : nat) : string := garbage.

(** The status command reports running jobs for the first sample and
    fails for the second. *)
Definition runs_then_fails (n : nat) : string :=
  if (n =? 0)%nat then jobs_line "running" "100.0%" "(10/10)"
  else garbage.

(** An output with the scheduler status before the job statuses. *)
Definition completed_output : string :=
  cat ["Status on the scheduler:" ++ Str.tab ++ "COMPLETED" ++ nl;
       nl;
       jobs_line "finished" "100.0%" "(15/15)"].

(** An output whose line of the dashboard has no link. *)
Definition no_link_output : string :=
  cat ["Dashboard monitoring URL:" ++ nl;
       jobs_line "finished" "100.0%" "(15/15)"].

(** An environment with the arguments [a]. *)
Definition env_with (a : args) (paths : list string) (outputs : nat -> string)
  : env :=
  mkEnv a "Namespace()" "/code/monitor_crab_jobs.py" "/code"
        paths outputs now (Some "user") (fun p => "/cwd/" ++ p).

(** A run with a proxy, a run in test mode and a run that resubmits. *)
Definition with_proxy : args := mkArgs "/sim" false (Some "/proxy") false.

Definition testing : args := mkArgs "/sim" false None true.

Definition resubmitting : args := mkArgs "/sim" true None false.

(** Four sample directories. *)
Definition four : list string :=
  ["/sim/a/crab_logs/crab_4"; "/sim/a/crab_logs/crab_2";
   "/sim/a/crab_logs/crab_3"; "/sim/a/crab_logs/crab_1"].

(** The file system of [start] with a page published before. *)
Definition republished : world :=
  mkWorld [("/sim", Dir);
           ("/sim/a/crab_status.sh", File EmptyString);
           ("monitor_crab_jobs", Dir);
           ("monitor_crab_jobs/index.html", File "<html>73%</html>")]
          [] [] (mkData None None) [].

(** A sample whose percentage of finished jobs is the placeholder of
    the parser. *)
Definition no_percentage : data :=
  mkData None
    (Some [("crab_s1",
            mkSample (Some [("finished", "<none>")]) (Some EmptyString))]).

(** The world of [polling] with a log file that reports failed jobs. *)
Definition polled : world :=
  mkWorld [("/code/monitor_tmp_log.txt",
            File (jobs_line "failed" "20.0%" "(3/15)"))]
          [] []
          (mkData None
             (Some [("crab_s1",
                     mkSample (Some [("finished", "0%")])
                              (Some EmptyString))]))
          [].

(** The world of [polling] with a directory in the place of the log
    file. *)
Definition log_is_directory : world :=
  mkWorld [("/code/monitor_tmp_log.txt", Dir)] [] []
          (mkData None
             (Some [("crab_s1",
                     mkSample (Some [("finished", "0%")])
                              (Some EmptyString))]))
          [].

(** The line of the job statuses in two pieces: the first run of a
    command prints the start of the marker, every later run the rest of
    the line. *)
Definition split_marker (n : nat) : string :=
  if (n =? 0)%nat then "Jobs sta"
  else "tus:                    finished     " ++ Str.tab ++ Str.tab
       ++ "100.0% (15/15)" ++ nl.

(** A file system in which [x] is a regular file. *)
Definition file_in_the_way : world :=
  mkWorld [("x", File EmptyString)] [] [] irretrievable [].

(** The page of some data, empty when it cannot be rendered. *)
Definition page_of (d : data) : string :=
  match web_page now d false with
  | Ok page => page
  | Raise _ => EmptyString
  end.

End Sample.

(* ================================================================== *)
(** ** Properties *)
(* ================================================================== *)

(** *** Strings and dictionaries *)

Lemma append_assoc (a b c : string) : (a ++ b) ++ c = a ++ (b ++ c).
Proof.
  induction a as [|x a IH]; simpl; [reflexivity|].
  now rewrite IH.
Qed.

Lemma append_empty_r (a : string) : a ++ EmptyString = a.
Proof.
  induction a as [|x a IH]; simpl; [reflexivity|].
  now rewrite IH.
Qed.

Lemma py_eq_num_str (n : num) (s : string) : py_eq (VNum n) (VStr s) = false.
Proof. reflexivity. Qed.

(** *** The guard of [web] *)

Lemma web_sample_force (sampledata : dict sample) (sample : string) :
  web_sample false sampledata sample = web_sample true sampledata sample.
Proof.
  unfold web_sample.
  destruct (Dict.get sample sampledata) as [record|]; [|reflexivity].
  destruct (s_status record) as [sample_status|]; [|reflexivity].
  destruct (fraction "finished" sample_status) as [ff|]; [|reflexivity].
  destruct (fraction "transferring" sample_status) as [tf|]; [|reflexivity].
  destruct (fraction "running" sample_status) as [rf|]; [|reflexivity].
  cbn [bind_result].
  rewrite py_eq_num_str, !andb_false_r.
  reflexivity.
Qed.

Lemma web_samples_force (sampledata : dict sample) (samples : list string) :
  forall page,
    web_samples false sampledata samples page
    = web_samples true sampledata samples page.
Proof.
  induction samples as [|sample rest IH]; intros page; simpl.
  - reflexivity.
  - rewrite web_sample_force.
    destruct (web_sample true sampledata sample) as [row|]; simpl.
    + apply IH.
    + reflexivity.
Qed.

Lemma web_page_force (now : datetime) (data : data) :
  web_page now data false = web_page now data true.
Proof.
  unfold web_page.
  destruct (d_samples data) as [sampledata|]; [|reflexivity].
  now rewrite web_samples_force.
Qed.

(** C9. For every data mapping, output path, reading of the clock and
    state of the world, [web] with [force=False] does what [web] with
    [force=True] does: the same result or exception and the same files
    written, the page included. *)
Theorem web_force_irrelevant (now : datetime) (data : data)
  (webpath : string) (w : world) :
  web now data webpath false w = web now data webpath true w.
Proof.
  unfold web.
  now rewrite web_page_force.
Qed.

(** The exception of the guard is never raised: what [web] raises comes
    from a missing key, from a percentage that is no number, or from
    the file system. *)
Lemma fraction_raises (key : string) (sample_status : dict string) (e : exn) :
  fraction key sample_status = Raise e -> exists s, e = ValueError s.
Proof.
  unfold fraction, py_float.
  destruct (Dict.get key sample_status) as [percentage|]; [|discriminate].
  destruct (Float.of_string _); [discriminate|].
  intros [= <-]. now eexists.
Qed.

Lemma progress_segments_raises (progress_values : dict string) (e : exn) :
  forall (cs : dict string) (cumul : num) (html : string),
    progress_segments cs progress_values cumul html = Raise e ->
    exists s, e = ValueError s.
Proof.
  induction cs as [|[status color] cs IH]; intros cumul html;
    cbn [progress_segments].
  - discriminate.
  - destruct (Dict.get status progress_values) as [percentage|]; [|apply IH].
    unfold py_float. destruct (Float.of_string _); cbn [bind_result].
    + apply IH.
    + intros [= <-]. now eexists.
Qed.

Lemma make_progress_bar_raises (progress_values : dict string) (e : exn) :
  make_progress_bar progress_values = Raise e -> exists s, e = ValueError s.
Proof.
  unfold make_progress_bar.
  destruct (progress_segments colors progress_values (NInt 0) _) eqn:H;
    cbn [bind_result]; [discriminate|].
  intros [= <-]. now apply progress_segments_raises in H.
Qed.

Lemma web_sample_raises (sampledata : dict sample) (sample msg : string) :
  web_sample true sampledata sample <> Raise (Exception msg).
Proof.
  unfold web_sample.
  destruct (Dict.get sample sampledata) as [record|]; [|discriminate].
  destruct (s_status record) as [sample_status|]; [|discriminate].
  destruct (fraction "finished" sample_status) as [ff|e1] eqn:H1;
    cbn [bind_result];
    [|apply fraction_raises in H1 as [s ->]; discriminate].
  destruct (fraction "transferring" sample_status) as [tf|e2] eqn:H2;
    cbn [bind_result];
    [|apply fraction_raises in H2 as [s ->]; discriminate].
  destruct (fraction "running" sample_status) as [rf|e3] eqn:H3;
    cbn [bind_result];
    [|apply fraction_raises in H3 as [s ->]; discriminate].
  cbn [negb andb].
  destruct (make_progress_bar sample_status) as [bar|e4] eqn:H4;
    cbn [bind_result]; [discriminate|].
  apply make_progress_bar_raises in H4 as [s ->]. discriminate.
Qed.

Lemma web_samples_raises (sampledata : dict sample) (msg : string) :
  forall (samples : list string) (page : string),
    web_samples true sampledata samples page <> Raise (Exception msg).
Proof.
  induction samples as [|sample rest IH]; intros page; cbn [web_samples].
  - discriminate.
  - pose proof (web_sample_raises sampledata sample msg) as H.
    destruct (web_sample true sampledata sample); cbn [bind_result];
      [apply IH|exact H].
Qed.

Lemma mkdir_raises (p : string) (files : dict node) (msg : string) :
  fst (Os.mkdir p files) <> Raise (Exception msg).
Proof.
  unfold Os.mkdir.
  destruct (Str.is_empty p); [discriminate|].
  destruct (Os.is_root p || Dict.mem p files); [discriminate|].
  destruct (Str.is_empty (Os.parent p) || Os.is_root (Os.parent p));
    [discriminate|].
  destruct (Dict.get (Os.parent p) files) as [[|c]|]; discriminate.
Qed.

Lemma makedirs_from_raises (msg : string) :
  forall (fuel : nat) (name : string) (files : dict node),
    fst (Os.makedirs_from fuel name files) <> Raise (Exception msg).
Proof.
  induction fuel as [|fuel IH]; intros name files; cbn [Os.makedirs_from];
    destruct (Os.split name) as [head tail];
    destruct (if Str.is_empty tail then Os.split head else (head, tail))
      as [head' tail']; [apply mkdir_raises|].
  destruct (negb (Str.is_empty head') && negb (Str.is_empty tail')
            && negb (Dict.mem head' files)); [|apply mkdir_raises].
  specialize (IH head' files).
  destruct (Os.makedirs_from fuel head' files) as [[[]|x] files'];
    cbn [fst] in *.
  - destruct (String.eqb tail' "."); [discriminate|apply mkdir_raises].
  - destruct x; try (cbn [fst]; congruence).
    destruct (String.eqb tail' "."); [discriminate|apply mkdir_raises].
Qed.

Lemma makedirs_raises (p : string) (w : world) (msg : string) :
  fst (Os.makedirs p w) <> Raise (Exception msg).
Proof.
  unfold Os.makedirs.
  pose proof (makedirs_from_raises msg (String.length p) p (fs w)) as H.
  now destruct (Os.makedirs_from (String.length p) p (fs w)).
Qed.

Lemma web_guard_unreachable (now : datetime) (data : data)
  (webpath : string) (force : bool) (w : world) (msg : string) :
  fst (web now data webpath force w) <> Raise (Exception msg).
Proof.
  assert (Htrue : fst (web now data webpath true w) <> Raise (Exception msg)).
  { assert (Hpage : web_page now data true <> Raise (Exception msg)).
    { unfold web_page.
      destruct (d_samples data) as [sampledata|]; [|discriminate].
      pose proof (web_samples_raises sampledata msg
                    (web_order sampledata)) as H.
      match goal with
      | |- context [web_samples true sampledata _ ?page] =>
          specialize (H page);
          destruct (web_samples true sampledata (web_order sampledata) page)
      end; cbn [bind_result]; [discriminate|exact H]. }
    assert (Hwrite : forall w1 page,
               fst (Os.write webpath "index.html" page w1)
               <> Raise (Exception msg)).
    { intros w1 page. unfold Os.write. cbv zeta.
      destruct (Dict.get webpath (fs w1)) as [[|c]|]; try discriminate.
      destruct (Dict.get (Os.join webpath "index.html") (fs w1))
        as [[|c]|]; discriminate. }
    unfold web, bind, Os.exists_, lift.
    destruct (Dict.mem webpath (fs w)); cbn [negb when ret].
    - destruct (web_page now data true) as [page|x];
        [apply Hwrite|cbn [fst]; congruence].
    - pose proof (makedirs_raises webpath w msg) as Hmake.
      destruct (Os.makedirs webpath w) as [[[]|x] w1]; cbn [fst] in *;
        [|exact Hmake].
      destruct (web_page now data true) as [page|x];
        [apply Hwrite|cbn [fst]; congruence]. }
  destruct force; [exact Htrue|].
  unfold web in Htrue |- *. now rewrite web_page_force.
Qed.

(** C1. With a sample whose status is the single entry [finished: 0%]
    and [force=False], [web] returns without an exception and writes
    the new page over the one published before, which showed 73%. *)
Theorem web_overwrites_irretrievable :
  let r := web Sample.now Sample.irretrievable "monitor_crab_jobs" false
               Sample.published_before in
  fst r = Ok tt
  /\ Dict.get "monitor_crab_jobs/index.html" (fs Sample.published_before)
     = Some (File "<html>73%</html>")
  /\ exists page,
       web_page Sample.now Sample.irretrievable false = Ok page
       /\ Str.contains "finished: 0%" page = true
       /\ Dict.get "monitor_crab_jobs/index.html" (fs (snd r))
          = Some (File page).
Proof.
  vm_compute.
  split; [reflexivity|].
  split; [reflexivity|].
  eexists.
  split; [reflexivity|].
  split; reflexivity.
Qed.

(** *** The progress bar *)

Lemma cat_cons (s : string) (l : list string) : cat (s :: l) = s ++ cat l.
Proof.
  unfold cat.
  destruct l as [|t l]; simpl.
  - now rewrite append_empty_r.
  - reflexivity.
Qed.

(** The loop of [make_progress_bar] adds the segments of the recursive
    description, whatever the offset and the text it starts with. *)
Lemma progress_segments_from (progress_values : dict string) :
  forall (cs : dict string) (widths : list Float.float) (cumul : num)
         (html : string),
    map (percentage_value progress_values)
        (map fst (filter (fun sc => Dict.mem (fst sc) progress_values) cs))
    = map Some widths ->
    progress_segments cs progress_values cumul html
    = Ok (html
          ++ cat (map segment_html
                      (segments_from cumul
                         (filter (fun sc => Dict.mem (fst sc) progress_values)
                                 cs)
                         widths))).
Proof.
  induction cs as [|[status color] cs IH]; intros widths cumul html Hw.
  - cbn [progress_segments filter segments_from map].
    unfold cat. cbn [String.concat]. now rewrite append_empty_r.
  - cbn [progress_segments filter fst] in Hw |- *.
    unfold Dict.mem at 1 in Hw. unfold Dict.mem at 1.
    destruct (Dict.get status progress_values) as [percentage|] eqn:Hget.
    + cbn [map fst] in Hw. destruct widths as [|w widths]; [discriminate|].
      cbn [map] in Hw. injection Hw as Hval Hrest.
      unfold percentage_value in Hval. rewrite Hget in Hval.
      unfold py_float. rewrite Hval. cbn [bind_result].
      rewrite (IH widths _ _ Hrest).
      cbn [segments_from map]. rewrite cat_cons.
      unfold segment_html at 2, stylestr. cbn [seg_left seg_width seg_color].
      now rewrite !append_assoc.
    + apply IH. exact Hw.
Qed.

(** The recursive description and the one by positions agree. *)
Lemma segments_from_positions :
  forall (cs : dict string) (widths : list Float.float) (cumul : num),
    List.length cs = List.length widths ->
    segments_from cumul cs widths
    = map (fun i =>
             mkSegment (fold_left Num.add_float (firstn i widths) cumul)
                       (nth i widths Float.zero)
                       (snd (nth i cs (EmptyString, EmptyString))))
          (seq 0 (List.length cs)).
Proof.
  induction cs as [|[status color] cs IH]; intros widths cumul Hlen.
  - reflexivity.
  - destruct widths as [|w widths]; [discriminate|].
    simpl in Hlen. injection Hlen as Hlen.
    cbn [segments_from List.length seq map firstn fold_left nth snd].
    f_equal.
    rewrite <- seq_shift, map_map.
    rewrite (IH widths (Num.add_float cumul w) Hlen).
    apply map_ext. intros i. reflexivity.
Qed.

Lemma color_of_colors (sc : string * string) :
  In sc colors -> color_of (fst sc) = snd sc.
Proof.
  unfold colors. simpl.
  intros [<-|[<-|[<-|[<-|[]]]]]; reflexivity.
Qed.

Lemma bar_statuses_colors (progress_values : dict string) :
  bar_statuses progress_values
  = map fst (filter (fun sc => Dict.mem (fst sc) progress_values) colors).
Proof.
  unfold bar_statuses, colors. simpl.
  repeat match goal with
         | |- context [Dict.mem ?k progress_values] =>
             destruct (Dict.mem k progress_values)
         end; reflexivity.
Qed.

(** The loop returns only when every status of the bar that is present
    has a number as its percentage. *)
Lemma progress_segments_returns (progress_values : dict string) :
  forall (cs : dict string) (cumul : num) (html result : string),
    progress_segments cs progress_values cumul html = Ok result ->
    exists widths,
      map (percentage_value progress_values)
          (map fst (filter (fun sc => Dict.mem (fst sc) progress_values) cs))
      = map Some widths.
Proof.
  induction cs as [|[status color] cs IH]; intros cumul html result Hrun.
  - now exists [].
  - cbn [progress_segments] in Hrun. cbn [filter fst].
    unfold Dict.mem at 1.
    destruct (Dict.get status progress_values) as [percentage|] eqn:Hget.
    + unfold py_float in Hrun.
      destruct (Float.of_string (Str.strip percentage "%")) as [val|] eqn:Hval;
        cbn [bind_result] in Hrun; [|discriminate].
      destruct (IH _ _ _ Hrun) as [widths Hw].
      exists (val :: widths). cbn [map fst]. rewrite Hw.
      unfold percentage_value at 1. now rewrite Hget, Hval.
    + now apply (IH cumul html result).
Qed.

(** [make_progress_bar] returns exactly for the status mappings of
    that kind, and raises ValueError for the others. *)
Lemma make_progress_bar_returns (progress_values : dict string) :
  (exists html, make_progress_bar progress_values = Ok html)
  <-> exists widths,
        map (percentage_value progress_values) (bar_statuses progress_values)
        = map Some widths.
Proof.
  rewrite bar_statuses_colors. unfold make_progress_bar. split.
  - intros [html Hrun].
    destruct (progress_segments colors progress_values (NInt 0) _) eqn:Hseg;
      cbn [bind_result] in Hrun; [|discriminate].
    now apply progress_segments_returns in Hseg.
  - intros [widths Hw].
    rewrite (progress_segments_from progress_values colors widths _ _ Hw).
    cbn [bind_result]. now eexists.
Qed.

(** C4. For every status mapping in which the statuses of the bar have
    numbers as percentages, [make_progress_bar] returns the container
    with one segment for each status present among finished,
    transferring, running and failed, in that order, the width of a
    segment being the percentage of its status and its left offset the
    sum of the widths of the segments before it, followed by the text
    that joins every [status: percentage] pair of the mapping with
    spaces. *)
Theorem make_progress_bar_segments (progress_values : dict string)
  (widths : list Float.float) :
  map (percentage_value progress_values) (bar_statuses progress_values)
  = map Some widths ->
  make_progress_bar progress_values
  = Ok ("<td> <div class=" ++ q "progress-container" ++ ">"
        ++ cat (map segment_html
                    (bar_segments (bar_statuses progress_values) widths))
        ++ "<div class=" ++ q "progress-text" ++ ">"
        ++ Str.join " " (map (fun kv => fst kv ++ ": " ++ snd kv)
                             progress_values)
        ++ "</div>" ++ "</div></td>").
Proof.
  intros Hw.
  rewrite bar_statuses_colors in Hw |- *.
  unfold make_progress_bar.
  rewrite (progress_segments_from progress_values colors widths _ _ Hw).
  cbn [bind_result]. f_equal.
  rewrite !append_assoc. do 2 f_equal.
  set (present := filter (fun sc => Dict.mem (fst sc) progress_values) colors)
    in *.
  assert (Hlen : List.length present = List.length widths).
  { apply (f_equal (@List.length _)) in Hw.
    now rewrite !length_map in Hw. }
  rewrite (segments_from_positions present widths (NInt 0) Hlen).
  unfold bar_segments. rewrite length_map.
  do 4 f_equal.
  apply map_ext_in. intros i Hi. apply in_seq in Hi.
  unfold py_sum. f_equal.
  change (nth i (map fst present) EmptyString)
    with (nth i (map fst present) (fst (EmptyString, EmptyString))).
  rewrite map_nth. symmetry.
  apply color_of_colors.
  assert (Hin : In (nth i present (EmptyString, EmptyString)) present)
    by (apply nth_In; lia).
  unfold present in Hin. apply filter_In in Hin. tauto.
Qed.

(** The mapping [{'finished': '50%', 'running': '50%'}]: two segments,
    at 0 and at 50, both 50 wide. *)
Lemma make_progress_bar_segments_witness :
  map (percentage_value Sample.half_half) (bar_statuses Sample.half_half)
  = map Some [Sample.fifty; Sample.fifty]
  /\ bar_segments (bar_statuses Sample.half_half) [Sample.fifty; Sample.fifty]
     = [mkSegment (NInt 0) Sample.fifty "lightgreen";
        mkSegment (NFloat Sample.fifty) Sample.fifty "deepskyblue"]
  /\ Num.str (NInt 0) = "0"
  /\ Num.str (NFloat Sample.fifty) = "50.0"
  /\ make_progress_bar Sample.half_half
     = Ok ("<td> <div class=" ++ q "progress-container" ++ ">"
           ++ cat (map segment_html
                       (bar_segments (bar_statuses Sample.half_half)
                                     [Sample.fifty; Sample.fifty]))
           ++ "<div class=" ++ q "progress-text" ++ ">"
           ++ "finished: 50% running: 50%"
           ++ "</div>" ++ "</div></td>").
Proof.
  split; [reflexivity|].
  split; [reflexivity|].
  split; [reflexivity|].
  split; [reflexivity|].
  exact (make_progress_bar_segments Sample.half_half
           [Sample.fifty; Sample.fifty] eq_refl).
Defined.

(** *** Dictionaries *)

Lemma get_set_eq {V : Type} (k : string) (v : V) (d : dict V) :
  Dict.get k (Dict.set k v d) = Some v.
Proof.
  induction d as [|[k' v'] d IH]; simpl.
  - now rewrite String.eqb_refl.
  - destruct (String.eqb k k') eqn:E; simpl.
    + now rewrite String.eqb_refl.
    + now rewrite E.
Qed.

Lemma get_set_ne {V : Type} (k k' : string) (v : V) (d : dict V) :
  k <> k' -> Dict.get k' (Dict.set k v d) = Dict.get k' d.
Proof.
  intros Hne.
  induction d as [|[k0 v0] d IH]; simpl.
  - destruct (String.eqb_spec k' k); [congruence|reflexivity].
  - destruct (String.eqb_spec k k0) as [->|Hk]; simpl.
    + destruct (String.eqb_spec k' k0); [congruence|reflexivity].
    + destruct (String.eqb_spec k' k0); [reflexivity|exact IH].
Qed.

Lemma keys_set {V : Type} (k : string) (v : V) (d : dict V) (x : string) :
  In x (Dict.keys (Dict.set k v d)) -> x = k \/ In x (Dict.keys d).
Proof.
  unfold Dict.keys.
  induction d as [|[k0 v0] d IH]; simpl.
  - intros [<-|[]]. now left.
  - destruct (String.eqb_spec k k0) as [->|Hk]; simpl.
    + intros [<-|H]; [now left|right; now right].
    + intros [<-|H]; [right; now left|].
      destruct (IH H) as [->|H']; [now left|right; now right].
Qed.

Lemma get_in_keys {V : Type} (k : string) (v : V) (d : dict V) :
  Dict.get k d = Some v -> In k (Dict.keys d).
Proof.
  unfold Dict.keys.
  induction d as [|[k0 v0] d IH]; simpl; [discriminate|].
  destruct (String.eqb_spec k k0) as [->|Hk].
  - now left.
  - intros H. right. now apply IH.
Qed.

Lemma in_keys_get {V : Type} (k : string) (d : dict V) :
  In k (Dict.keys d) -> exists v, Dict.get k d = Some v.
Proof.
  unfold Dict.keys.
  induction d as [|[k0 v0] d IH]; simpl; [intros []|].
  destruct (String.eqb_spec k k0) as [->|Hk].
  - intros _. now exists v0.
  - intros [H|H]; [congruence|now apply IH].
Qed.

Lemma mem_set {V : Type} (k k' : string) (v : V) (d : dict V) :
  Dict.mem k' d = true -> Dict.mem k' (Dict.set k v d) = true.
Proof.
  unfold Dict.mem.
  destruct (String.eqb_spec k k') as [->|Hne].
  - now rewrite get_set_eq.
  - now rewrite get_set_ne.
Qed.

(** *** The changes of [data] *)

(** A change of the status mapping of the sample [name] alone. *)
Lemma update_status (name : string) (change : dict string -> dict string)
  (w : world) (st : dict string) :
  status_of name w = Some st ->
  exists w',
    update_samples
      (update_sample name (fun record =>
         match s_status record with
         | None => Raise (KeyError "status")
         | Some sample_status =>
             Ok (mkSample (Some (change sample_status)) (s_grafana record))
         end)) w = (Ok tt, w')
    /\ status_of name w' = Some (change st)
    /\ (forall other, other <> name -> status_of other w' = status_of other w)
    /\ fs w' = fs w /\ commands w' = commands w /\ stdout w' = stdout w.
Proof.
  unfold status_of, update_samples, update_sample.
  destruct (d_samples (var_data w)) as [samples|]; [|discriminate].
  destruct (Dict.get name samples) as [record|] eqn:Hget; [|discriminate].
  intros Hst. rewrite Hst. cbn [bind_result].
  eexists. split; [reflexivity|].
  cbn [with_data var_data d_samples fs commands stdout].
  rewrite get_set_eq. cbn [s_status].
  repeat split; try reflexivity.
  intros other Hne. rewrite get_set_ne by congruence. reflexivity.
Qed.

Lemma set_status_spec (name status frac : string) (w : world)
  (st : dict string) :
  status_of name w = Some st ->
  exists w',
    update_samples (set_status name status frac) w = (Ok tt, w')
    /\ status_of name w' = Some (Dict.set status frac st)
    /\ (forall other, other <> name -> status_of other w' = status_of other w)
    /\ fs w' = fs w /\ commands w' = commands w /\ stdout w' = stdout w.
Proof.
  intros Hst.
  exact (update_status name (Dict.set status frac) w st Hst).
Qed.

(** A change of the link of a sample leaves every status mapping as it
    is, and so does a change that raises. *)
Lemma set_grafana_status (name link other : string) (w : world) :
  status_of other (snd (update_samples (set_grafana name link) w))
  = status_of other w.
Proof.
  unfold status_of, update_samples, set_grafana, update_sample.
  destruct (d_samples (var_data w)) as [samples|] eqn:Hs; cbn [snd].
  - destruct (Dict.get name samples) as [record|] eqn:Hget;
      cbn [bind_result snd with_data var_data d_samples].
    + destruct (String.eqb_spec name other) as [->|Hne].
      * rewrite get_set_eq, Hget. reflexivity.
      * rewrite get_set_ne by exact Hne. reflexivity.
    + now rewrite Hs.
  - now rewrite Hs.
Qed.


(** *** The parser *)

Lemma line_updates_get (words : list string) :
  forall (statuses : list string) (st : dict string) (key : string),
    Dict.get key (line_updates words statuses st)
    = if existsb (String.eqb key) statuses
         && Str.contains key (hd EmptyString words)
      then Some (nth 1 words "<none>")
      else Dict.get key st.
Proof.
  unfold line_updates.
  induction statuses as [|status rest IH]; intros st key.
  - reflexivity.
  - cbn [fold_left existsb]. rewrite IH.
    destruct (existsb (String.eqb key) rest
              && Str.contains key (hd EmptyString words)) eqn:Hrest.
    + apply andb_true_iff in Hrest as [He Hc]. rewrite He, Hc.
      now rewrite orb_true_r.
    + destruct (String.eqb_spec key status) as [->|Hne]; cbn [orb].
      * destruct (Str.contains status (hd EmptyString words)) eqn:Hc.
        -- now rewrite get_set_eq.
        -- now rewrite andb_false_r.
      * destruct (existsb (String.eqb key) rest); cbn [andb] in Hrest |- *.
        -- rewrite Hrest.
           destruct (Str.contains status (hd EmptyString words));
             [now rewrite get_set_ne by congruence|reflexivity].
        -- destruct (Str.contains status (hd EmptyString words));
             [now rewrite get_set_ne by congruence|reflexivity].
Qed.

Lemma existsb_eqb_in (key : string) (l : list string) :
  existsb (String.eqb key) l = true <-> In key l.
Proof.
  rewrite existsb_exists. split.
  - intros [x [Hin Heq]]. apply String.eqb_eq in Heq. now subst.
  - intros Hin. exists key. split; [exact Hin|apply String.eqb_refl].
Qed.

(** The loop over the statuses makes the entries of [line_updates] and
    touches nothing else. *)
Lemma parse_statuses_spec (name : string) (words : list string) :
  forall (statuses : list string) (jobsfailed : bool) (w : world)
         (st : dict string),
    status_of name w = Some st ->
    exists jobsfailed' w',
      parse_statuses name words statuses jobsfailed w = (Ok jobsfailed', w')
      /\ status_of name w' = Some (line_updates words statuses st)
      /\ (forall other, other <> name ->
                        status_of other w' = status_of other w)
      /\ fs w' = fs w /\ commands w' = commands w.
Proof.
  induction statuses as [|status rest IH]; intros jobsfailed w st Hst.
  - exists jobsfailed, w. cbn. auto.
  - cbn [parse_statuses]. unfold line_updates. cbn [fold_left].
    fold (line_updates words rest).
    destruct (Str.contains status (hd EmptyString words)).
    + destruct (set_status_spec name status (nth 1 words "<none>") w st Hst)
        as (w1 & Hrun & Hst1 & Hother1 & Hfs1 & Hcmd1 & _).
      unfold bind at 1. rewrite Hrun.
      unfold bind at 1. cbn [print].
      set (w2 := with_stdout _ w1).
      destruct (IH (if String.eqb status "failed" then true else jobsfailed)
                   w2 _ Hst1)
        as (jf & w3 & Hrun3 & Hst3 & Hother3 & Hfs3 & Hcmd3).
      exists jf, w3. rewrite Hrun3.
      repeat split; try assumption.
      * intros other Hne. rewrite (Hother3 other Hne).
        exact (Hother1 other Hne).
      * now rewrite Hfs3.
      * now rewrite Hcmd3.
    + apply IH. exact Hst.
Qed.

(** What a line does to the status mapping of its sample, whether the
    line goes through or its link is missing. *)
Lemma parse_line_updates (name line : string) (jobsfailed : bool)
  (w : world) (st : dict string) :
  status_of name w = Some st ->
  status_of name (snd (parse_line name line jobsfailed w))
  = Some (line_updates (line_words line) known_statuses st).
Proof.
  intros Hst. unfold parse_line. fold (line_words line).
  destruct (List.length (line_words line) =? 0)%nat eqn:Hlen.
  - cbn [ret snd]. rewrite Hst. f_equal.
    apply Nat.eqb_eq in Hlen.
    destruct (line_words line); [|discriminate].
    reflexivity.
  - destruct (parse_statuses_spec name (line_words line) known_statuses
                jobsfailed w st Hst)
      as (jf & w1 & Hrun & Hst1 & _).
    unfold bind at 1. rewrite Hrun.
    destruct (Str.startswith _ _).
    + destruct (nth_error (line_words line) 3) as [link|].
      * unfold bind. 
        pose proof (set_grafana_status name link name w1) as Hg.
        destruct (update_samples (set_grafana name link) w1) as [[[]|err] w2];
          cbn [snd ret] in Hg |- *; now rewrite Hg.
      * exact Hst1.
    + exact Hst1.
Qed.

Lemma prefix_contains (p s : string) :
  String.prefix p s = true -> Str.contains p s = true.
Proof.
  intros H. destruct s; cbn [Str.contains]; rewrite H; reflexivity.
Qed.

Lemma prefix_split (p : string) :
  forall s, String.prefix p s = true -> exists rest, s = p ++ rest.
Proof.
  induction p as [|c p IH]; intros s H.
  - now exists s.
  - destruct s as [|d s]; [discriminate|].
    simpl in H. destruct (ascii_dec c d) as [->|]; [|discriminate].
    destruct (IH s H) as [rest ->]. now exists rest.
Qed.

Lemma prefix_app (p rest : string) : String.prefix p (p ++ rest) = true.
Proof.
  induction p as [|c p IH]; simpl.
  - now destruct rest.
  - destruct (ascii_dec c c); [exact IH|congruence].
Qed.

Lemma replace_plain_prefix (new : string) :
  forall p rest,
    all_plain p = true ->
    Str.replace_from "Jobs status:" new 0 (p ++ rest)
    = p ++ Str.replace_from "Jobs status:" new 0 rest.
Proof.
  induction p as [|c p IH]; intros rest Hp.
  - reflexivity.
  - cbn [all_plain] in Hp. apply andb_true_iff in Hp as [Hc Hp].
    unfold plain in Hc. apply andb_true_iff in Hc as [_ HJ].
    apply negb_true_iff in HJ. apply Ascii.eqb_neq in HJ.
    cbn [String.append Str.replace_from String.prefix].
    destruct (ascii_dec "J" c) as [E|_]; [congruence|].
    now rewrite IH.
Qed.

Lemma split_ws_plain_prefix :
  forall p cur rest,
    all_plain p = true ->
    Str.split_ws_from cur (p ++ rest) = Str.split_ws_from (cur ++ p) rest.
Proof.
  induction p as [|c p IH]; intros cur rest Hp.
  - cbn [String.append]. now rewrite append_empty_r.
  - cbn [all_plain] in Hp. apply andb_true_iff in Hp as [Hc Hp].
    unfold plain in Hc. apply andb_true_iff in Hc as [Hs _].
    apply negb_true_iff in Hs.
    cbn [String.append Str.split_ws_from]. rewrite Hs.
    rewrite IH by exact Hp. now rewrite append_assoc.
Qed.

Lemma split_ws_from_head :
  forall rest cur,
    Str.is_empty cur = false ->
    exists tok tl, Str.split_ws_from cur rest = (cur ++ tok) :: tl.
Proof.
  induction rest as [|c rest IH]; intros cur Hcur.
  - cbn [Str.split_ws_from]. rewrite Hcur.
    exists EmptyString, []. now rewrite append_empty_r.
  - cbn [Str.split_ws_from]. destruct (Str.isspace c).
    + rewrite Hcur. exists EmptyString. eexists.
      now rewrite append_empty_r.
    + destruct (IH (cur ++ String c EmptyString)) as (tok & tl & H).
      { destruct cur; [discriminate|reflexivity]. }
      rewrite H. exists (String c tok), tl.
      now rewrite append_assoc.
Qed.

(** A line that begins with a known status has a first word that
    begins with it, and so contains it. *)
Lemma first_word_of_status_line (line status : string) :
  In status known_statuses ->
  Str.startswith line status = true ->
  Str.contains status (first_word line) = true.
Proof.
  intros Hin Hstart.
  assert (Hplain : all_plain status = true
                   /\ Str.is_empty status = false).
  { unfold known_statuses in Hin. simpl in Hin.
    repeat (destruct Hin as [<-|Hin]; [split; reflexivity|]).
    destruct Hin. }
  destruct Hplain as [Hplain Hne].
  destruct (prefix_split status line Hstart) as [rest ->].
  unfold first_word, line_words, Str.replace, Str.split_ws.
  cbn [Str.is_empty].
  rewrite replace_plain_prefix by exact Hplain.
  rewrite split_ws_plain_prefix by exact Hplain.
  cbn [String.append].
  destruct (split_ws_from_head
              (Str.replace_from "Jobs status:" EmptyString 0 rest)
              status Hne) as (tok & tl & ->).
  cbn [hd]. apply prefix_contains, prefix_app.
Qed.

(** C3, as the program has it. For every line of the status output,
    with the words taken once the marker is deleted: each known status
    that the line begins with, and more generally each known status
    that occurs inside the first word, gets the second word of the line
    as its entry, or the placeholder when there is no second word; and
    every other entry of the status mapping stays as it was, so that
    only lines whose first word contains a known status produce an
    entry. *)
Theorem parse_line_statuses (name line : string) (jobsfailed : bool)
  (w : world) (st : dict string) :
  status_of name w = Some st ->
  exists st',
    status_of name (snd (parse_line name line jobsfailed w)) = Some st'
    /\ (forall status,
          In status known_statuses ->
          Str.startswith line status = true
          \/ Str.contains status (first_word line) = true ->
          Dict.get status st' = Some (second_word line))
    /\ (forall key,
          ~ (In key known_statuses
             /\ Str.contains key (first_word line) = true) ->
          Dict.get key st' = Dict.get key st).
Proof.
  intros Hst.
  exists (line_updates (line_words line) known_statuses st).
  split; [now apply parse_line_updates|].
  split.
  - intros status Hin Hline.
    assert (Hc : Str.contains status (first_word line) = true).
    { destruct Hline as [Hstart|Hc]; [|exact Hc].
      now apply first_word_of_status_line. }
    rewrite line_updates_get.
    apply existsb_eqb_in in Hin.
    unfold first_word in Hc. now rewrite Hin, Hc.
  - intros key Hnot.
    rewrite line_updates_get.
    destruct (existsb (String.eqb key) known_statuses) eqn:Hin;
      [|reflexivity].
    destruct (Str.contains key (hd EmptyString (line_words line))) eqn:Hc;
      [|reflexivity].
    exfalso. apply Hnot. split; [now apply existsb_eqb_in|exact Hc].
Qed.

(** The line of the job statuses of a sample that has its initial
    record. *)
Lemma parse_line_statuses_witness :
  status_of "crab_s1" Sample.polling = Some [("finished", "0%")]
  /\ exists st',
       status_of "crab_s1"
         (snd (parse_line "crab_s1"
                 "Jobs status:        running     73.3% (11/15)" false
                 Sample.polling))
       = Some st'
       /\ (forall status,
             In status known_statuses ->
             Str.startswith "Jobs status:        running     73.3% (11/15)"
                            status = true
             \/ Str.contains status
                  (first_word "Jobs status:        running     73.3% (11/15)")
                = true ->
             Dict.get status st'
             = Some (second_word
                       "Jobs status:        running     73.3% (11/15)"))
       /\ (forall key,
             ~ (In key known_statuses
                /\ Str.contains key
                     (first_word
                        "Jobs status:        running     73.3% (11/15)")
                   = true) ->
             Dict.get key st' = Dict.get key [("finished", "0%")]).
Proof.
  split; [reflexivity|].
  apply (parse_line_statuses "crab_s1"
           "Jobs status:        running     73.3% (11/15)" false
           Sample.polling [("finished", "0%")]).
  reflexivity.
Defined.

(** C3, as stated, fails. The line [(failed) 3] begins with no known
    status, and neither does its first word, yet the parser makes the
    entry [failed: 3] from it. And the line
    [finished Jobs status: 5%] begins with a known status and has
    [Jobs] as its second word, yet the entry that the parser makes is
    [finished: 5%]: it takes the words once the marker is deleted. *)
Lemma entry_from_line_without_status_start :
  (forall status,
     In status known_statuses ->
     Str.startswith "(failed) 3" status = false
     /\ Str.startswith (first_word "(failed) 3") status = false)
  /\ status_of "crab_s1" Sample.polling = Some [("finished", "0%")]
  /\ status_of "crab_s1"
       (snd (parse_line "crab_s1" "(failed) 3" false Sample.polling))
     = Some [("finished", "0%"); ("failed", "3")]
  /\ Str.startswith "finished Jobs status: 5%" "finished" = true
  /\ nth 1 (Str.split_ws "finished Jobs status: 5%") "<none>" = "Jobs"
  /\ status_of "crab_s1"
       (snd (parse_line "crab_s1" "finished Jobs status: 5%" false
                        Sample.polling))
     = Some [("finished", "5%")].
Proof.
  split.
  - intros status Hin. unfold known_statuses in Hin. simpl in Hin.
    repeat (destruct Hin as [<-|Hin]; [split; reflexivity|]).
    destruct Hin.
  - repeat split; reflexivity.
Qed.

(** *** Computations that leave [data] alone *)

Create HintDb run discriminated.

Lemma keeps_ret {A : Type} (a : A) : keeps_data (ret a).
Proof. intros w. split; reflexivity. Qed.

Lemma keeps_raise {A : Type} (e : exn) : keeps_data (@raise A e).
Proof. intros w. split; reflexivity. Qed.

Lemma keeps_lift {A : Type} (r : result A) : keeps_data (lift r).
Proof. intros w. split; reflexivity. Qed.

Lemma keeps_bind {A B : Type} (m : M A) (k : A -> M B) :
  keeps_data m -> (forall a, keeps_data (k a)) -> keeps_data (bind m k).
Proof.
  intros Hm Hk w. unfold bind.
  specialize (Hm w). destruct (m w) as [[a|e] w1]; cbn [snd] in Hm |- *.
  - destruct (Hk a w1) as [H1 H2]. destruct Hm as [H3 H4].
    split; congruence.
  - exact Hm.
Qed.

Lemma keeps_when (b : bool) (m : M unit) :
  keeps_data m -> keeps_data (when b m).
Proof. destruct b; [trivial|intros _; apply keeps_ret]. Qed.

Lemma keeps_print (s : string) : keeps_data (print s).
Proof. intros w. split; reflexivity. Qed.

Lemma keeps_print_data (d : data) : keeps_data (print_data d).
Proof. intros w. split; reflexivity. Qed.

Lemma keeps_get_data : keeps_data get_data.
Proof. intros w. split; reflexivity. Qed.

Lemma keeps_exists (p : string) : keeps_data (Os.exists_ p).
Proof. intros w. split; reflexivity. Qed.

Lemma keeps_isdir (p : string) : keeps_data (Os.isdir p).
Proof. intros w. split; reflexivity. Qed.

Lemma keeps_isfile (p : string) : keeps_data (Os.isfile p).
Proof. intros w. split; reflexivity. Qed.

Lemma keeps_makedirs (p : string) : keeps_data (Os.makedirs p).
Proof.
  intros w. unfold Os.makedirs.
  destruct (Os.makedirs_from (String.length p) p (fs w)); split; reflexivity.
Qed.

Lemma keeps_read (p : string) : keeps_data (Os.read p).
Proof.
  intros w. unfold Os.read.
  destruct (Dict.get p (fs w)) as [[|c]|]; split; reflexivity.
Qed.

Lemma keeps_write (d name text : string) : keeps_data (Os.write d name text).
Proof.
  intros w. unfold Os.write.
  destruct (Dict.get d (fs w)) as [[|c]|]; try (split; reflexivity).
  destruct (Dict.get (Os.join d name) (fs w)) as [[|c]|]; split; reflexivity.
Qed.

Lemma keeps_system (cmd : string) (eff : Os.effect) :
  keeps_data (Os.system cmd eff).
Proof. intros w. split; reflexivity. Qed.

Lemma keeps_run_script (e : env) (cmd : string) :
  keeps_data (run_script e cmd).
Proof. intros w. split; reflexivity. Qed.

Lemma keeps_rm_tmpfile (e : env) : keeps_data (rm_tmpfile e).
Proof. apply keeps_system. Qed.

#[export] Hint Resolve keeps_ret keeps_raise keeps_lift keeps_when keeps_print
  keeps_print_data keeps_get_data keeps_exists keeps_isdir keeps_isfile
  keeps_makedirs keeps_read keeps_write keeps_system keeps_run_script
  keeps_rm_tmpfile : run.

(** One step of a proof that a computation leaves [data] alone. *)
Ltac keeps_step :=
  match goal with
  | |- keeps_data (bind _ _) => apply keeps_bind; [|intros ?]
  | |- keeps_data (when _ _) => apply keeps_when
  | |- keeps_data (if ?b then _ else _) => destruct b
  | |- keeps_data (match ?x with _ => _ end) => destruct x
  | |- keeps_data _ => solve [auto with run]
  end.

Ltac keeps := repeat keeps_step.

Lemma keeps_status_attempts (e : env) (status_cmd : string) (remaining : nat) :
  keeps_data (status_attempts e status_cmd remaining).
Proof.
  induction remaining as [|remaining IH]; cbn [status_attempts]; keeps.
Qed.

Lemma keeps_find_commands (e : env) (fproc : list string) :
  keeps_data (find_commands e fproc).
Proof.
  induction fproc as [|f rest IH]; cbn [find_commands]; keeps.
Qed.

Lemma keeps_check_completed (f : string) (line : option string) :
  keeps_data (check_completed f line).
Proof. unfold check_completed; keeps. Qed.

Lemma keeps_report_sample (e : env) (f status_cmd : string)
  (line : option string) (jobsfailed : bool) :
  keeps_data (report_sample e f status_cmd line jobsfailed).
Proof.
  unfold report_sample; keeps. apply keeps_check_completed.
Qed.

Lemma keeps_web (now : datetime) (data : data) (webpath : string)
  (force : bool) :
  keeps_data (web now data webpath force).
Proof. unfold web; keeps. Qed.

Lemma keeps_publish (e : env) : keeps_data (publish e).
Proof.
  unfold publish; keeps. apply keeps_web.
Qed.

#[export] Hint Resolve keeps_status_attempts keeps_find_commands
  keeps_check_completed keeps_report_sample keeps_web keeps_publish : run.

(** *** Invariants of runs *)

Lemma triple_bind {A B : Type} (I K Q E : world -> Prop) (m : M A)
  (k : A -> M B) :
  triple I m K E -> (forall a, triple K (k a) Q E) ->
  triple I (bind m k) Q E.
Proof.
  intros Hm Hk w HI. unfold bind.
  specialize (Hm w HI).
  destruct (m w) as [[a|e] w1]; cbn [fst snd] in Hm |- *.
  - now apply Hk.
  - exact Hm.
Qed.

Lemma triple_weaken {A : Type} (I Q E Q' E' : world -> Prop) (m : M A) :
  triple I m Q E -> (forall w, Q w -> Q' w) -> (forall w, E w -> E' w) ->
  triple I m Q' E'.
Proof.
  intros Hm HQ HE w HI. specialize (Hm w HI).
  destruct (fst (m w)); auto.
Qed.

Lemma stable_intro {A : Type} (I : world -> Prop) (m : M A) :
  (forall w, I w -> I (snd (m w))) -> stable I m.
Proof.
  intros H w HI. specialize (H w HI). now destruct (fst (m w)).
Qed.

Lemma stable_elim {A : Type} (I : world -> Prop) (m : M A) (w : world) :
  stable I m -> I w -> I (snd (m w)).
Proof.
  intros H HI. specialize (H w HI). now destruct (fst (m w)).
Qed.

Lemma stable_bind {A B : Type} (I : world -> Prop) (m : M A) (k : A -> M B) :
  stable I m -> (forall a, stable I (k a)) -> stable I (bind m k).
Proof. apply triple_bind. Qed.

Lemma stable_when (I : world -> Prop) (b : bool) (m : M unit) :
  stable I m -> stable I (when b m).
Proof. destruct b; [trivial|intros _ w HI; exact HI]. Qed.

Section Since.

Variable t0 : list data.
Variable P : data -> Prop.

Lemma since_keeps {A : Type} (m : M A) :
  keeps_data m -> stable (since t0 P) m.
Proof.
  intros Hm. apply stable_intro. intros w [l [Ht Hl]].
  destruct (Hm w) as [_ Htr].
  exists l. split; [congruence|exact Hl].
Qed.

Lemma since_now_keeps {A : Type} (m : M A) :
  keeps_data m -> stable (since_now t0 P) m.
Proof.
  intros Hm. apply stable_intro. intros w [Hs Hp]. split.
  - now apply (stable_elim _ m w (since_keeps m Hm)).
  - destruct (Hm w) as [Hd _]. now rewrite Hd.
Qed.

Lemma since_now_since (w : world) : since_now t0 P w -> since t0 P w.
Proof. now intros [H _]. Qed.

Lemma since_with_data (d : data) (w : world) :
  since t0 P w -> P d -> since_now t0 P (with_data d w).
Proof.
  intros [l [Ht Hl]] Hd. split; [|exact Hd].
  exists (l ++ [d])%list. cbn [with_data trace]. split.
  - now rewrite Ht, app_assoc.
  - apply Forall_app. split; [exact Hl|now constructor].
Qed.

Lemma since_set_data (d : data) :
  P d -> triple (since t0 P) (set_data d) (since_now t0 P) (since t0 P).
Proof. intros Hd w Hs. now apply since_with_data. Qed.

(** A change of the samples that keeps [P] keeps the invariant. *)
Lemma since_now_update (change : dict sample -> result (dict sample)) :
  (forall meta samples samples',
     P (mkData meta (Some samples)) -> change samples = Ok samples' ->
     P (mkData meta (Some samples'))) ->
  stable (since_now t0 P) (update_samples change).
Proof.
  intros Hchange. apply stable_intro. intros w [Hs Hp]. unfold update_samples.
  destruct (var_data w) as [meta [samples|]] eqn:Hd; cbn [d_samples d_meta].
  - destruct (change samples) as [samples'|err] eqn:Hc; cbn [snd].
    + apply since_with_data; [exact Hs|].
      now apply (Hchange meta samples).
    + split; [exact Hs|cbn [snd]; rewrite Hd; exact Hp].
  - split; [exact Hs|cbn [snd]; rewrite Hd; exact Hp].
Qed.

End Since.

(** *** The keys of the status mappings *)

Lemma keys_within_samples (allowed : list string)
  (meta : option (dict string)) (samples : dict sample) :
  keys_within allowed (mkData meta (Some samples))
  <-> samples_within allowed samples.
Proof.
  unfold keys_within, samples_within. cbn [d_samples]. split.
  - intros H name record st key Hget Hst Hkey.
    exact (H samples name record st key eq_refl Hget Hst Hkey).
  - intros H samples' name record st key [= <-] Hget Hst Hkey.
    exact (H name record st key Hget Hst Hkey).
Qed.

(** A change of one record keeps the keys within [allowed] when the
    keys of the new record are allowed or were there before. *)
Lemma within_update_sample (allowed : list string) (name : string)
  (change : sample -> result sample) (samples samples' : dict sample) :
  (forall record record' st' key,
     change record = Ok record' ->
     s_status record' = Some st' -> In key (Dict.keys st') ->
     In key allowed
     \/ exists st, s_status record = Some st /\ In key (Dict.keys st)) ->
  samples_within allowed samples ->
  update_sample name change samples = Ok samples' ->
  samples_within allowed samples'.
Proof.
  intros Hchange Hw Hup. unfold update_sample in Hup.
  destruct (Dict.get name samples) as [record|] eqn:Hget; [|discriminate].
  destruct (change record) as [record'|err] eqn:Hc; [|discriminate].
  cbn [bind_result] in Hup. injection Hup as <-.
  intros name' r st key Hget' Hst Hkey.
  destruct (String.eqb_spec name name') as [<-|Hne].
  - rewrite get_set_eq in Hget'. injection Hget' as <-.
    destruct (Hchange record record' st key Hc Hst Hkey)
      as [Hin|[st0 [Hst0 Hk0]]]; [exact Hin|].
    exact (Hw name record st0 key Hget Hst0 Hk0).
  - rewrite get_set_ne in Hget' by exact Hne.
    exact (Hw name' r st key Hget' Hst Hkey).
Qed.

Lemma within_init_sample (name : string) (samples samples' : dict sample) :
  samples_within status_keys samples ->
  init_sample name samples = Ok samples' ->
  samples_within status_keys samples'.
Proof.
  intros Hw [= <-] name' r st key Hget Hst Hkey.
  destruct (String.eqb_spec name name') as [<-|Hne].
  - rewrite get_set_eq in Hget. injection Hget as <-.
    cbn [s_status] in Hst. injection Hst as <-.
    destruct Hkey as [<-|[]]. now left.
  - rewrite get_set_ne in Hget by exact Hne.
    exact (Hw name' r st key Hget Hst Hkey).
Qed.

Lemma within_set_failed (name : string) (samples samples' : dict sample) :
  samples_within status_keys samples ->
  set_failed name samples = Ok samples' ->
  samples_within status_keys samples'.
Proof.
  apply within_update_sample.
  intros record record' st' key [= <-] [= <-] [<-|[]].
  left. unfold status_keys. apply in_or_app. right. now left.
Qed.

Lemma within_set_status (name status frac : string)
  (samples samples' : dict sample) :
  In status status_keys ->
  samples_within status_keys samples ->
  set_status name status frac samples = Ok samples' ->
  samples_within status_keys samples'.
Proof.
  intros Hin. apply within_update_sample.
  intros record record' st' key Hc Hst Hkey.
  destruct (s_status record) as [st|]; [|discriminate].
  injection Hc as <-. cbn [s_status] in Hst. injection Hst as <-.
  destruct (keys_set status frac st key Hkey) as [->|Hk].
  - now left.
  - right. now exists st.
Qed.

Lemma within_set_grafana (name link : string)
  (samples samples' : dict sample) :
  samples_within status_keys samples ->
  set_grafana name link samples = Ok samples' ->
  samples_within status_keys samples'.
Proof.
  apply within_update_sample.
  intros record record' st' key [= <-] Hst Hkey.
  right. now exists st'.
Qed.

Section Keys.

Variable t0 : list data.

Lemma keys_keeps {A : Type} (m : M A) : keeps_data m -> stable (keys_inv t0) m.
Proof. apply since_now_keeps. Qed.

Lemma keys_update (change : dict sample -> result (dict sample)) :
  (forall samples samples',
     samples_within status_keys samples -> change samples = Ok samples' ->
     samples_within status_keys samples') ->
  stable (keys_inv t0) (update_samples change).
Proof.
  intros Hchange. apply since_now_update.
  intros meta samples samples' Hp Hc.
  apply keys_within_samples. apply keys_within_samples in Hp.
  now apply (Hchange samples).
Qed.

(** One step of a proof that a computation keeps the invariant. *)
Ltac keys_step :=
  match goal with
  | |- stable (keys_inv t0) (bind _ _) => apply stable_bind; [|intros ?]
  | |- stable (keys_inv t0) (when _ _) => apply stable_when
  | |- stable (keys_inv t0) (if ?b then _ else _) => destruct b
  | |- stable (keys_inv t0) (match ?x with _ => _ end) => destruct x
  | |- stable (keys_inv t0) _ => solve [apply keys_keeps; auto with run]
  end.

Lemma keys_initialize (fproc : list string) : stable (keys_inv t0) (initialize fproc).
Proof.
  induction fproc as [|f rest IH]; cbn [initialize]; repeat keys_step.
  - apply keys_update. intros samples samples'. apply within_init_sample.
  - exact IH.
Qed.

Lemma keys_parse_statuses (name : string) (words : list string) :
  forall (statuses : list string) (jobsfailed : bool),
    Forall (fun status => In status status_keys) statuses ->
    stable (keys_inv t0) (parse_statuses name words statuses jobsfailed).
Proof.
  induction statuses as [|status rest IH]; intros jobsfailed Hall;
    cbn [parse_statuses]; repeat keys_step.
  - apply keys_update. intros samples samples'.
    apply within_set_status. now inversion Hall.
  - apply IH. now inversion Hall.
  - apply IH. now inversion Hall.
Qed.

Lemma known_statuses_allowed :
  Forall (fun status => In status status_keys) known_statuses.
Proof.
  apply Forall_forall. intros status Hin.
  unfold status_keys. apply in_or_app. now left.
Qed.

Lemma keys_parse_line (name line : string) (jobsfailed : bool) :
  stable (keys_inv t0) (parse_line name line jobsfailed).
Proof.
  unfold parse_line. repeat keys_step.
  - apply keys_parse_statuses, known_statuses_allowed.
  - apply keys_update. intros samples samples'. apply within_set_grafana.
Qed.

Lemma keys_parse_lines (name : string) :
  forall (outlines : list string) (line : option string) (jobsfailed : bool),
    stable (keys_inv t0) (parse_lines name outlines line jobsfailed).
Proof.
  induction outlines as [|l rest IH]; intros line jobsfailed;
    cbn [parse_lines]; repeat keys_step.
  - apply keys_parse_line.
  - apply IH.
Qed.

Lemma keys_process_sample (e : env) (nfproc fidx : nat)
  (f status_cmd : string) (line : option string) :
  stable (keys_inv t0) (process_sample e nfproc fidx f status_cmd line).
Proof.
  unfold process_sample, skip_sample, parse_sample, report_sample.
  repeat keys_step.
  - apply keys_update. intros samples samples'. apply within_set_failed.
  - apply keys_parse_lines.
Qed.

Lemma keys_aggregate (e : env) (nfproc : nat) :
  forall (todo : list (string * string)) (fidx : nat) (line : option string),
    stable (keys_inv t0) (aggregate e nfproc fidx todo line).
Proof.
  induction todo as [|[f status_cmd] rest IH]; intros fidx line;
    cbn [aggregate]; repeat keys_step.
  - apply keys_process_sample.
  - apply IH.
Qed.

Lemma keys_gather (e : env) (fproc : list string) :
  stable (keys_inv t0) (gather e fproc).
Proof.
  unfold gather. repeat keys_step.
  - apply keys_initialize.
  - apply keys_aggregate.
Qed.

Lemma keys_startup (e : env) :
  triple (since t0 (keys_within status_keys)) (startup e) (keys_inv t0)
         (since t0 (keys_within status_keys)).
Proof.
  unfold startup.
  repeat (eapply triple_bind; [apply since_keeps; auto with run|intros ?]).
  destruct (negb _).
  { intros w Hs. exact Hs. }
  eapply triple_bind.
  { apply since_keeps. destruct (proxy (argv e)); keeps. }
  intros _.
  eapply triple_bind.
  { apply since_set_data. intros samples name record st key [= <-].
    discriminate. }
  intros _.
  eapply triple_weaken; [|intros w H; exact H|apply since_now_since].
  match goal with |- triple _ ?m _ _ => change (stable (keys_inv t0) m) end.
  repeat keys_step.
Qed.

Lemma keys_main (e : env) :
  stable (since t0 (keys_within status_keys)) (main e).
Proof.
  unfold main, aggregation.
  eapply triple_bind; [|intros _; apply since_keeps; auto with run].
  eapply triple_bind; [apply keys_startup|intros _].
  eapply triple_weaken; [apply keys_gather| |]; apply since_now_since.
Qed.

End Keys.

(** C5, as the program has it. In every run, each value that the
    variable [data] takes has the keys of all its status mappings among
    the known statuses and the key [crab status], which marks a sample
    whose status could not be retrieved. *)
Theorem status_keys_of_run (e : env) (w : world) :
  Forall (keys_within status_keys)
         (skipn (List.length (trace w)) (trace (snd (main e w)))).
Proof.
  destruct (stable_elim _ (main e) w (keys_main (trace w) e))
    as [l [Ht Hl]].
  - exists []. split; [now rewrite app_nil_r|constructor].
  - rewrite Ht, skipn_app, skipn_all, Nat.sub_diag. exact Hl.
Qed.

(** C5, as stated, fails. When the status command fails five times for
    a sample, its status mapping gets the key [crab status], which is
    not one of the known statuses. *)
Lemma crab_status_key_outside_statuses :
  let w := snd (main (Sample.env_of ["/sim/a/crab_logs/crab_s"]
                                    Sample.always_fails)
                     Sample.start) in
  status_of "crab_s" w = Some [("crab status", "failed")]
  /\ ~ In "crab status" known_statuses
  /\ ~ keys_within known_statuses (var_data w).
Proof.
  set (r := main _ _). vm_compute in r. subst r. cbn [snd].
  split; [reflexivity|].
  assert (Hnot : ~ In "crab status" known_statuses).
  { unfold known_statuses. simpl. intuition discriminate. }
  split; [exact Hnot|].
  intros H. apply Hnot.
  eapply (H _ "crab_s" _ _ "crab status"); cbn; try reflexivity.
  now left.
Qed.

(** *** The orders of the samples *)

Section Sorting.

Variable key : string -> string.

Lemma insert_by_perm (x : string) (l : list string) :
  Permutation (insert_by key x l) (x :: l).
Proof.
  induction l as [|y l IH]; cbn [insert_by].
  - apply Permutation_refl.
  - destruct (String.leb (key x) (key y)).
    + apply Permutation_refl.
    + apply perm_trans with (y :: x :: l).
      * now apply perm_skip.
      * apply perm_swap.
Qed.

Lemma sorted_by_perm (l : list string) : Permutation (sorted_by key l) l.
Proof.
  induction l as [|x l IH]; cbn [sorted_by fold_right].
  - apply perm_nil.
  - fold (sorted_by key l).
    apply perm_trans with (x :: sorted_by key l).
    + apply insert_by_perm.
    + now apply perm_skip.
Qed.

Lemma insert_by_hd (x y : string) (l : list string) :
  (key_le key) y x -> HdRel (key_le key) y l -> HdRel (key_le key) y (insert_by key x l).
Proof.
  intros Hyx Hl. destruct l as [|z l]; cbn [insert_by].
  - now constructor.
  - destruct (String.leb (key x) (key z)); constructor.
    + exact Hyx.
    + now inversion Hl.
Qed.

Lemma insert_by_sorted (x : string) (l : list string) :
  Sorted (key_le key) l -> Sorted (key_le key) (insert_by key x l).
Proof.
  induction l as [|y l IH]; intros Hs; cbn [insert_by].
  - repeat constructor.
  - destruct (String.leb (key x) (key y)) eqn:Hxy.
    + constructor; [exact Hs|now constructor].
    + inversion Hs as [|? ? Hl Hhd]; subst.
      constructor; [now apply IH|].
      apply insert_by_hd; [|exact Hhd].
      destruct (String.leb_total (key x) (key y)) as [H|H];
        [congruence|exact H].
Qed.

Lemma sorted_by_sorted (l : list string) : Sorted (key_le key) (sorted_by key l).
Proof.
  induction l as [|x l IH]; cbn [sorted_by fold_right].
  - constructor.
  - now apply insert_by_sorted.
Qed.

End Sorting.

Lemma sorted_firstn (le : string -> string -> Prop) (l : list string) :
  forall n, Sorted le l -> Sorted le (firstn n l).
Proof.
  induction l as [|x l IH]; intros [|n] Hs; cbn [firstn];
    try constructor.
  - inversion Hs; subst. now apply IH.
  - inversion Hs as [|? ? _ Hhd]; subst.
    destruct l as [|y l]; destruct n; cbn [firstn]; constructor.
    now inversion Hhd.
Qed.

(** The names of the records that [initialize] makes are the base names
    of the paths. *)
Lemma initialize_names :
  forall (fproc : list string) (w : world) (samples0 : dict sample),
    d_samples (var_data w) = Some samples0 ->
    exists samples,
      fst (initialize fproc w) = Ok tt
      /\ d_samples (var_data (snd (initialize fproc w))) = Some samples
      /\ forall name,
           In name (Dict.keys samples)
           <-> In name (Dict.keys samples0)
               \/ In name (map Os.basename fproc).
Proof.
  induction fproc as [|f rest IH]; intros w samples0 Hs.
  - exists samples0. cbn. repeat split; auto. now intros [H|[]].
  - cbn [initialize]. unfold bind at 1 2. unfold update_samples at 1 2.
    rewrite Hs. cbn [init_sample].
    set (s1 := Dict.set (Os.basename f) _ samples0).
    set (w1 := with_data _ w).
    destruct (IH w1 s1 eq_refl) as (samples & Hok & Hd & Hnames).
    exists samples. split; [exact Hok|]. split; [exact Hd|].
    intros name. rewrite Hnames. cbn [map In]. unfold s1. split.
    + intros [Hk|Hr]; [|now right; right].
      destruct (keys_set _ _ _ _ Hk) as [->|Hk0];
        [right; now left|now left].
    + intros [Hk|[<-|Hr]]; [| |now right].
      * left. destruct (in_keys_get _ _ Hk) as [v Hv].
        destruct (String.eqb_spec (Os.basename f) name) as [<-|Hne].
        -- eapply get_in_keys. apply get_set_eq.
        -- eapply get_in_keys. rewrite get_set_ne by exact Hne. exact Hv.
      * left. eapply get_in_keys. apply get_set_eq.
Qed.

(** C6, as the program has it. The loop over the samples goes through
    the paths in their sorted order, capitals before small letters; the
    renderer goes through the names of the records in the sorted order
    of the names in small letters; and the names of the records are the
    base names of the paths, not the paths. *)
Theorem sample_orders (e : env) (sampledata : dict sample) (w : world) :
  d_samples (var_data w) = Some [] ->
  Sorted (key_le (fun path => path)) (selected e)
  /\ (test (argv e) = false ->
      Permutation (selected e) (glob_crab_logs e))
  /\ Sorted (key_le Str.lower) (web_order sampledata)
  /\ Permutation (web_order sampledata) (Dict.keys sampledata)
  /\ exists samples,
       d_samples (var_data (snd (initialize (selected e) w))) = Some samples
       /\ forall name,
            In name (Dict.keys samples)
            <-> In name (map Os.basename (selected e)).
Proof.
  intros Hs. split; [|split; [|split; [|split]]].
  - unfold selected. destruct (test (argv e)).
    + apply sorted_firstn. apply (sorted_by_sorted (fun x => x)).
    + apply (sorted_by_sorted (fun x => x)).
  - intros Ht. unfold selected. rewrite Ht. apply sorted_by_perm.
  - apply sorted_by_sorted.
  - apply sorted_by_perm.
  - destruct (initialize_names (selected e) w [] Hs)
      as (samples & _ & Hd & Hnames).
    exists samples. split; [exact Hd|].
    intros name. rewrite Hnames. cbn [Dict.keys map In]. tauto.
Qed.

Lemma sample_orders_witness :
  d_samples (var_data (snd (startup (Sample.env_of Sample.crossed
                                       Sample.always_fails)
                                    Sample.start))) = Some []
  /\ Sorted (key_le (fun path => path))
            (selected (Sample.env_of Sample.crossed Sample.always_fails))
  /\ Permutation
       (web_order [("crab_z", mkSample None None);
                   ("crab_y", mkSample None None)])
       ["crab_z"; "crab_y"].
Proof.
  split; [reflexivity|].
  pose proof (sample_orders
                (Sample.env_of Sample.crossed Sample.always_fails)
                [("crab_z", mkSample None None);
                 ("crab_y", mkSample None None)]
                (snd (startup (Sample.env_of Sample.crossed
                                 Sample.always_fails)
                              Sample.start))
                eq_refl) as H.
  split; [apply H|apply H].
Defined.

(** C6, as stated, fails. For two samples whose paths and names are in
    opposite orders, the loop polls in the order of the paths, sorted
    with or without capitals, and the renderer shows the sample of the
    last path first: its key is the name, not the path. *)
Lemma render_order_not_path_order :
  let e := Sample.env_of Sample.crossed Sample.always_fails in
  selected e = ["/sim/a/crab_logs/crab_z"; "/sim/b/crab_logs/crab_y"]
  /\ sorted_by Str.lower (selected e) = selected e
  /\ exists samples,
       d_samples (var_data (snd (aggregation e Sample.start))) = Some samples
       /\ web_order samples = ["crab_y"; "crab_z"]
       /\ web_order samples <> map Os.basename (selected e).
Proof.
  cbv zeta.
  split; [reflexivity|]. split; [reflexivity|].
  set (r := aggregation _ _). vm_compute in r. subst r. cbn [snd var_data d_samples].
  eexists. split; [reflexivity|].
  split; [reflexivity|]. discriminate.
Qed.

(** *** The line of the dashboard and the line of the scheduler *)

Lemma set_grafana_ok (name link : string) (w : world) (st : dict string) :
  status_of name w = Some st ->
  exists w', update_samples (set_grafana name link) w = (Ok tt, w').
Proof.
  unfold status_of, update_samples, set_grafana, update_sample.
  destruct (d_samples (var_data w)) as [samples|]; [|discriminate].
  destruct (Dict.get name samples) as [record|]; [|discriminate].
  intros _. now eexists.
Qed.

(** The one way in which the parsing of a line raises, for a sample
    that has its record: the line has words, starts with the marker of
    the dashboard once the marker of the job statuses is deleted, and
    has fewer than four words. *)
Lemma parse_line_outcome (name line : string) (jobsfailed : bool)
  (w : world) (st : dict string) :
  status_of name w = Some st ->
  if negb (List.length (line_words line) =? 0)%nat
     && Str.startswith (Str.replace line "Jobs status:" EmptyString)
                       "Dashboard monitoring URL"
     && (List.length (line_words line) <? 4)%nat
  then fst (parse_line name line jobsfailed w) = Raise IndexError
  else exists r, fst (parse_line name line jobsfailed w) = Ok r.
Proof.
  intros Hst.
  remember (parse_line name line jobsfailed w) as res eqn:Hres.
  unfold parse_line in Hres. fold (line_words line) in Hres.
  destruct (List.length (line_words line) =? 0)%nat; cbn [negb andb].
  { subst res. now eexists. }
  destruct (parse_statuses_spec name (line_words line) known_statuses
              jobsfailed w st Hst)
    as (jf & w1 & Hrun & Hst1 & _).
  unfold bind at 1 in Hres. rewrite Hrun in Hres.
  destruct (Str.startswith _ _); cbn [andb].
  - destruct (nth_error (line_words line) 3) as [link|] eqn:Hnth.
    + assert (Hlen : (List.length (line_words line) <? 4)%nat = false).
      { apply Nat.ltb_ge.
        assert (H : 3 < List.length (line_words line))
          by (apply nth_error_Some; congruence).
        lia. }
      rewrite Hlen.
      destruct (set_grafana_ok name link w1 _ Hst1) as [w2 Hg].
      unfold bind in Hres. rewrite Hg in Hres. subst res. now eexists.
    + apply nth_error_None in Hnth.
      assert (Hlen : (List.length (line_words line) <? 4)%nat = true)
        by (apply Nat.ltb_lt; lia).
      rewrite Hlen. now subst res.
  - subst res. now eexists.
Qed.

(** C7. A line of the dashboard without a link makes the parser raise
    IndexError, and the run with it, although the run had the line of
    the job statuses that it asks for. *)
Theorem parse_raises_without_link :
  fst (parse_line "crab_s1" "Dashboard monitoring URL:" false Sample.polling)
  = Raise IndexError
  /\ thissucces (Str.splitlines Sample.no_link_output) = true
  /\ fst (main (Sample.env_of ["/sim/a/crab_logs/crab_s1"]
                              (fun _ => Sample.no_link_output))
               Sample.start)
     = Raise IndexError.
Proof.
  split; [reflexivity|]. split; [reflexivity|].
  vm_compute. reflexivity.
Qed.

(** C8. An output with the line of the scheduler that says COMPLETED,
    for a sample without the file of its results: the run ends well and
    nowhere prints that the task is completed, because the line is not
    the last one of the output. *)
Theorem completed_not_reported :
  let e := Sample.env_of ["/sim/a/crab_logs/crab_s1"]
                         (fun _ => Sample.completed_output) in
  existsb (fun l => Str.contains "Status on the scheduler" l
                    && Str.contains "COMPLETED" l)
          (Str.splitlines Sample.completed_output) = true
  /\ thissucces (Str.splitlines Sample.completed_output) = true
  /\ Dict.get "/sim/a/crab_logs/crab_s1/results/processedLumis.json"
              (fs Sample.start) = None
  /\ fst (main e Sample.start) = Ok tt
  /\ ~ In (Text "This task is completed...")
          (stdout (snd (main e Sample.start))).
Proof.
  cbv zeta.
  split; [reflexivity|]. split; [reflexivity|]. split; [reflexivity|].
  set (r := main _ _). vm_compute in r. subst r. cbn [fst snd stdout].
  split; [reflexivity|].
  cbn [In]. intuition discriminate.
Qed.

(** *** The attempts of the status command *)

Lemma cat_app (l1 l2 : list string) : cat (l1 ++ l2) = cat l1 ++ cat l2.
Proof.
  induction l1 as [|s l1 IH]; cbn [app].
  - reflexivity.
  - now rewrite !cat_cons, IH, append_assoc.
Qed.

Lemma log_after_S (e : env) (n0 k : nat) :
  log_after e n0 (S k) = log_after e n0 k ++ crab e (n0 + k).
Proof.
  unfold log_after. rewrite seq_S, map_app, cat_app. cbn [map plus].
  rewrite cat_cons. unfold cat at 3. cbn [String.concat].
  now rewrite append_empty_r.
Qed.

Lemma runs_needed_ge (ok : nat -> bool) :
  forall remaining done, done <= runs_needed ok done remaining.
Proof.
  induction remaining as [|r IH]; intros done; cbn [runs_needed].
  - lia.
  - destruct (ok (S done)); [lia|]. specialize (IH (S done)). lia.
Qed.

Lemma runs_needed_le (ok : nat -> bool) :
  forall remaining done, runs_needed ok done remaining <= done + remaining.
Proof.
  induction remaining as [|r IH]; intros done; cbn [runs_needed].
  - lia.
  - destruct (ok (S done)); [lia|]. specialize (IH (S done)). lia.
Qed.

Lemma runs_needed_pos (ok : nat -> bool) (remaining done : nat) :
  0 < remaining -> done < runs_needed ok done remaining.
Proof.
  destruct remaining as [|r]; [lia|]. intros _. cbn [runs_needed].
  destruct (ok (S done)); [lia|].
  pose proof (runs_needed_ge ok r (S done)). lia.
Qed.

Lemma runs_needed_before (ok : nat -> bool) :
  forall remaining done k,
    done < k < runs_needed ok done remaining -> ok k = false.
Proof.
  induction remaining as [|r IH]; intros done k Hk; cbn [runs_needed] in Hk.
  - lia.
  - destruct (ok (S done)) eqn:Hok; [lia|].
    destruct (Nat.eq_dec k (S done)) as [->|Hne]; [exact Hok|].
    apply (IH (S done)). lia.
Qed.

Lemma runs_needed_all (ok : nat -> bool) :
  forall remaining done,
    (forall k, done < k <= done + remaining -> ok k = false) ->
    runs_needed ok done remaining = done + remaining.
Proof.
  induction remaining as [|r IH]; intros done Hall; cbn [runs_needed].
  - lia.
  - rewrite (Hall (S done)) by lia.
    rewrite IH; [lia|]. intros k Hk. apply Hall. lia.
Qed.

(** The loop of the attempts: it returns, after as many runs of the
    command as [runs_needed] tells, with the log file holding the
    outputs of those runs one after the other. *)
Lemma status_attempts_spec (e : env) (status_cmd : string) (n0 : nat) :
  forall (remaining done : nat) (w : world),
    log_is e n0 done w ->
    List.length (commands w) = n0 + done ->
    let n := runs_needed (attempt_succeeds e n0) done remaining in
    exists w',
      status_attempts e status_cmd remaining w
      = (Ok ((done <? n)%nat && attempt_succeeds e n0 n), w')
      /\ commands w' = (commands w ++ repeat status_cmd (n - done))%list
      /\ log_is e n0 n w'
      /\ var_data w' = var_data w /\ trace w' = trace w.
Proof.
  induction remaining as [|r IH]; intros done w Hlog Hlen;
    cbn [runs_needed status_attempts].
  - exists w. rewrite Nat.ltb_irrefl, Nat.sub_diag. cbn [repeat andb ret].
    rewrite app_nil_r. repeat split; auto.
  - unfold bind at 1. unfold run_script, Os.system.
    set (out := crab e (List.length (commands w))).
    assert (Hout : out = crab e (n0 + done)) by (unfold out; now rewrite Hlen).
    set (fs1 := match Dict.get (tmpfile e) (fs w) with
                | Some (File c) => Dict.set (tmpfile e) (File (c ++ out)) (fs w)
                | Some Dir => fs w
                | None => Dict.set (tmpfile e) (File out) (fs w)
                end).
    assert (Hfs1 : fs1 = Dict.set (tmpfile e)
                           (File (log_after e n0 (S done))) (fs w)).
    { unfold fs1. rewrite log_after_S, <- Hout.
      destruct Hlog as [Hget|[-> Hget]]; rewrite Hget; reflexivity. }
    clearbody fs1. subst fs1.
    set (w1 := with_commands _ _).
    assert (Hget1 : Dict.get (tmpfile e) (fs w1)
                    = Some (File (log_after e n0 (S done)))).
    { unfold w1. cbn [with_commands with_fs fs]. apply get_set_eq. }
    unfold bind at 1. unfold Os.read at 1. rewrite Hget1.
    change (thissucces
              (Str.splitlines
                 (Str.universal_newlines false (log_after e n0 (S done)))))
      with (attempt_succeeds e n0 (S done)).
    destruct (attempt_succeeds e n0 (S done)) eqn:Hok.
    + exists w1. cbn [ret].
      assert (Hlt : (done <? S done)%nat = true) by (apply Nat.ltb_lt; lia).
      rewrite Hlt, Hok. cbn [andb].
      replace (S done - done) with 1 by lia. cbn [repeat].
      repeat split; try reflexivity.
      now left.
    + unfold bind at 1. cbn [print].
      set (w2 := with_stdout _ w1).
      destruct (IH (S done) w2) as (w' & Hrun & Hcmd & Hlog' & Hd & Ht).
      * left. unfold w2. cbn [with_stdout fs]. exact Hget1.
      * unfold w2, w1. cbn [with_stdout with_commands commands].
        rewrite length_app, Hlen. cbn [List.length]. lia.
      * exists w'. rewrite Hrun.
        set (n := runs_needed (attempt_succeeds e n0) (S done) r) in *.
        assert (Hge : S done <= n) by apply runs_needed_ge.
        split.
        { f_equal. f_equal.
          destruct (Nat.eq_dec n (S done)) as [Heq|Hne].
          - rewrite Heq, Hok, Nat.ltb_irrefl. now rewrite !andb_false_r.
          - assert (H1 : (S done <? n)%nat = true) by (apply Nat.ltb_lt; lia).
            assert (H2 : (done <? n)%nat = true) by (apply Nat.ltb_lt; lia).
            now rewrite H1, H2. }
        split.
        { rewrite Hcmd. unfold w2, w1.
          cbn [with_stdout with_commands commands].
          rewrite <- app_assoc. f_equal.
          replace (n - done) with (S (n - S done)) by lia.
          reflexivity. }
        repeat split; try assumption.
Qed.

Lemma get_remove_eq {V : Type} (k : string) (d : dict V) :
  Dict.get k (Dict.remove k d) = None.
Proof.
  induction d as [|[k' v'] d IH]; cbn [Dict.remove Dict.get].
  - reflexivity.
  - destruct (String.eqb k k') eqn:E; [exact IH|].
    cbn [Dict.get]. now rewrite E.
Qed.

(** *** Computations that only add commands *)

Lemma adds_ret {A : Type} (a : A) : adds_commands (ret a).
Proof. intros w. exists []. cbn. now rewrite app_nil_r. Qed.

Lemma adds_raise {A : Type} (e : exn) : adds_commands (@raise A e).
Proof. intros w. exists []. cbn. now rewrite app_nil_r. Qed.

Lemma adds_bind {A B : Type} (m : M A) (k : A -> M B) :
  adds_commands m -> (forall a, adds_commands (k a)) ->
  adds_commands (bind m k).
Proof.
  intros Hm Hk w. unfold bind.
  destruct (Hm w) as [more1 H1].
  destruct (m w) as [[a|e] w1]; cbn [snd] in H1 |- *.
  - destruct (Hk a w1) as [more2 H2].
    exists (more1 ++ more2)%list. now rewrite H2, H1, app_assoc.
  - now exists more1.
Qed.

Lemma adds_when (b : bool) (m : M unit) :
  adds_commands m -> adds_commands (when b m).
Proof. destruct b; [trivial|intros _; apply adds_ret]. Qed.

Lemma adds_print (s : string) : adds_commands (print s).
Proof. intros w. exists []. cbn. now rewrite app_nil_r. Qed.

Lemma adds_isfile (p : string) : adds_commands (Os.isfile p).
Proof. intros w. exists []. cbn. now rewrite app_nil_r. Qed.

Lemma adds_system (cmd : string) (eff : Os.effect) :
  adds_commands (Os.system cmd eff).
Proof. intros w. now exists [cmd]. Qed.

Lemma adds_run_script (e : env) (cmd : string) :
  adds_commands (run_script e cmd).
Proof. intros w. now exists [cmd]. Qed.

Lemma adds_update_samples (change : dict sample -> result (dict sample)) :
  adds_commands (update_samples change).
Proof.
  intros w. exists []. rewrite app_nil_r. unfold update_samples.
  destruct (d_samples (var_data w)) as [samples|]; [|reflexivity].
  destruct (change samples); reflexivity.
Qed.

#[export] Hint Resolve adds_ret adds_raise adds_when adds_print adds_isfile
  adds_system adds_run_script adds_update_samples : run.

(** One step of a proof that a computation only adds commands. *)
Ltac adds_step :=
  match goal with
  | |- adds_commands (bind _ _) => apply adds_bind; [|intros ?]
  | |- adds_commands (when _ _) => apply adds_when
  | |- adds_commands (if ?b then _ else _) => destruct b
  | |- adds_commands (match ?x with _ => _ end) => destruct x
  | |- adds_commands _ => solve [auto with run]
  end.

Ltac adds := repeat adds_step.

Lemma adds_parse_statuses (name : string) (words : list string) :
  forall (statuses : list string) (jobsfailed : bool),
    adds_commands (parse_statuses name words statuses jobsfailed).
Proof.
  induction statuses as [|status rest IH]; intros jobsfailed;
    cbn [parse_statuses]; adds; apply IH.
Qed.

Lemma adds_parse_line (name line : string) (jobsfailed : bool) :
  adds_commands (parse_line name line jobsfailed).
Proof.
  unfold parse_line; adds. apply adds_parse_statuses.
Qed.

Lemma adds_parse_lines (name : string) :
  forall (outlines : list string) (line : option string) (jobsfailed : bool),
    adds_commands (parse_lines name outlines line jobsfailed).
Proof.
  induction outlines as [|l rest IH]; intros line jobsfailed;
    cbn [parse_lines]; adds; first [apply adds_parse_line|apply IH].
Qed.

Lemma adds_check_completed (f : string) (line : option string) :
  adds_commands (check_completed f line).
Proof. unfold check_completed; adds. Qed.

Lemma adds_report_sample (e : env) (f status_cmd : string)
  (line : option string) (jobsfailed : bool) :
  adds_commands (report_sample e f status_cmd line jobsfailed).
Proof.
  unfold report_sample; adds. apply adds_check_completed.
Qed.

(** *** The body of the loop over the samples *)

(** The start of the body, up to the end of the attempts. *)
Lemma process_sample_attempts (e : env) (nfproc fidx : nat)
  (f status_cmd : string) (line : option string) (w : world) :
  Dict.get (tmpfile e) (fs w) <> Some Dir ->
  let n0 := List.length (commands w ++ removal e w)%list in
  let n := attempts_made e n0 in
  exists w1,
    process_sample e nfproc fidx f status_cmd line w
    = (if attempt_succeeds e n0 n
       then parse_sample e f status_cmd line w1
       else skip_sample f line w1)
    /\ commands w1
       = (commands w ++ removal e w ++ repeat status_cmd n)%list
    /\ Dict.get (tmpfile e) (fs w1) = Some (File (log_after e n0 n))
    /\ var_data w1 = var_data w /\ trace w1 = trace w
    /\ 1 <= n <= 5.
Proof.
  intros Hdir n0 n.
  assert (Hn : 1 <= n <= 5).
  { unfold n, attempts_made. split.
    - apply (runs_needed_pos _ 5 0). lia.
    - apply (runs_needed_le _ 5 0). }
  unfold process_sample.
  unfold bind at 1. cbn [print]. unfold bind at 1. cbn [print].
  set (wa := with_stdout _ (with_stdout _ w)).
  unfold bind at 1. unfold Os.exists_ at 1.
  change (fs wa) with (fs w).
  unfold bind at 1.
  assert (Hb : exists wb,
             when (Dict.mem (tmpfile e) (fs w)) (rm_tmpfile e) wa = (Ok tt, wb)
             /\ commands wb = (commands w ++ removal e w)%list
             /\ Dict.get (tmpfile e) (fs wb) = None
             /\ var_data wb = var_data w /\ trace wb = trace w).
  { unfold removal, Dict.mem.
    destruct (Dict.get (tmpfile e) (fs w)) as [[|c]|] eqn:Hget.
    - congruence.
    - eexists. split; [reflexivity|].
      cbn [with_commands with_fs commands fs var_data trace].
      change (fs wa) with (fs w). rewrite Hget.
      split; [reflexivity|]. split; [apply get_remove_eq|]. now split.
    - exists wa. split; [reflexivity|].
      rewrite app_nil_r. split; [reflexivity|]. now split. }
  destruct Hb as (wb & Hwhen & Hcmdb & Hgetb & Hdb & Htb).
  rewrite Hwhen.
  destruct (status_attempts_spec e status_cmd n0 5 0 wb)
    as (w1 & Hrun & Hcmd1 & Hlog1 & Hd1 & Ht1).
  { right. now split. }
  { rewrite Hcmdb. fold n0. lia. }
  fold (attempts_made e n0) in Hrun, Hcmd1, Hlog1. fold n in Hrun, Hcmd1, Hlog1.
  unfold bind at 1. rewrite Hrun.
  assert (Hpos : (0 <? n)%nat = true) by (apply Nat.ltb_lt; lia).
  rewrite Hpos. cbn [andb].
  exists w1. split; [now destruct (attempt_succeeds e n0 n)|].
  split.
  { rewrite Hcmd1, Hcmdb, Nat.sub_0_r. now rewrite app_assoc. }
  split.
  { destruct Hlog1 as [H|[H _]]; [exact H|lia]. }
  split; [congruence|]. split; [congruence|exact Hn].
Qed.

Lemma skip_sample_spec (f : string) (line : option string) (w : world) :
  status_of (Os.basename f) w <> None ->
  exists w',
    skip_sample f line w = (Ok line, w')
    /\ status_of (Os.basename f) w' = Some crab_failed
    /\ (forall other, other <> Os.basename f ->
                      status_of other w' = status_of other w)
    /\ commands w' = commands w.
Proof.
  intros Hst. unfold skip_sample.
  unfold bind at 1. cbn [print].
  set (wa := with_stdout _ w).
  destruct (status_of (Os.basename f) w) as [st|] eqn:Hs; [|congruence].
  change (status_of (Os.basename f) wa = Some st) in Hs.
  destruct (update_status (Os.basename f) (fun _ => crab_failed) wa st Hs)
    as (w' & Hrun & Hst' & Hother & _ & Hcmd & _).
  assert (Hrun' : update_samples (set_failed (Os.basename f)) wa = (Ok tt, w')).
  { rewrite <- Hrun. unfold update_samples, set_failed, update_sample.
    unfold status_of in Hs.
    destruct (d_samples (var_data wa)) as [samples|]; [|discriminate].
    destruct (Dict.get (Os.basename f) samples) as [record|]; [|discriminate].
    rewrite Hs. reflexivity. }
  unfold bind at 1. rewrite Hrun'.
  exists w'. split; [reflexivity|]. split; [exact Hst'|].
  split; [exact Hother|exact Hcmd].
Qed.

Lemma parse_sample_commands (e : env) (f status_cmd : string)
  (line : option string) (w : world) (c : string) :
  Dict.get (tmpfile e) (fs w) = Some (File c) ->
  exists more,
    commands (snd (parse_sample e f status_cmd line w))
    = (commands w ++ ("rm " ++ tmpfile e)%string :: more)%list.
Proof.
  intros Hget. unfold parse_sample.
  unfold bind at 1. unfold Os.read at 1. rewrite Hget.
  unfold bind at 1. unfold rm_tmpfile at 1, Os.system at 1.
  set (w1 := with_commands _ _).
  match goal with
  | |- context [snd (?m w1)] =>
      assert (Hadds : adds_commands m)
  end.
  { adds; first [apply adds_parse_lines|apply adds_report_sample]. }
  destruct (Hadds w1) as [more Hmore].
  exists more. rewrite Hmore. unfold w1.
  cbn [with_commands commands]. now rewrite <- app_assoc.
Qed.

Lemma status_of_data (name : string) (w w' : world) :
  var_data w' = var_data w -> status_of name w' = status_of name w.
Proof. unfold status_of. now intros ->. Qed.

(** *** The words of the status command *)

Lemma contains_empty (sep : string) :
  sep <> EmptyString -> Str.contains sep EmptyString = false.
Proof.
  destruct sep; [congruence|reflexivity].
Qed.

Lemma split_first (sep : string) :
  sep <> EmptyString ->
  forall s cur,
    if Str.contains sep s
    then exists p r,
           s = p ++ sep ++ r
           /\ hd EmptyString (Str.split_from sep 0 cur s) = cur ++ p
           /\ forall p' r', s = p' ++ sep ++ r' ->
                            String.length p <= String.length p'
    else hd EmptyString (Str.split_from sep 0 cur s) = cur ++ s.
Proof.
  intros Hsep. induction s as [|c t IH]; intros cur.
  - rewrite contains_empty by exact Hsep. cbn. now rewrite append_empty_r.
  - cbn [Str.contains Str.split_from].
    destruct (String.prefix sep (String c t)) eqn:Hprefix; cbn [orb].
    + destruct (prefix_split _ _ Hprefix) as [r Hr].
      exists EmptyString, r. cbn [hd]. rewrite append_empty_r.
      repeat split; [exact Hr|]. intros p' r' _. cbn. lia.
    + specialize (IH (cur ++ String c EmptyString)).
      destruct (Str.contains sep t).
      * destruct IH as [p [r [Ht [Hhd Hmin]]]].
        exists (String c p), r. repeat split.
        -- now rewrite Ht.
        -- now rewrite Hhd, append_assoc.
        -- intros p' r' Hs. destruct p' as [|c' p'].
           ++ cbn in Hs. rewrite Hs, prefix_app in Hprefix. discriminate.
           ++ cbn in Hs. injection Hs as _ Ht'. cbn.
              specialize (Hmin p' r' Ht'). lia.
      * now rewrite IH, append_assoc.
Qed.

Lemma path_char_word (c : ascii) :
  path_char c = true -> Str.isspace c = false.
Proof.
  destruct c as [[] [] [] [] [] [] [] []]; vm_compute; congruence.
Qed.

Lemma path_chars_word (s : string) : path_chars s = true -> one_word s = true.
Proof.
  induction s as [|c t IH]; [reflexivity|]. cbn [path_chars one_word].
  intros H. apply andb_true_iff in H as [Hc Ht].
  now rewrite (path_char_word c Hc), IH.
Qed.

Lemma path_chars_app (a b : string) :
  path_chars (a ++ b) = path_chars a && path_chars b.
Proof.
  induction a as [|c a IH]; [reflexivity|].
  cbn [String.append path_chars]. now rewrite IH, andb_assoc.
Qed.

Lemma one_word_app (a b : string) :
  one_word (a ++ b) = one_word a && one_word b.
Proof.
  induction a as [|c a IH]; [reflexivity|].
  cbn [String.append one_word]. now rewrite IH, andb_assoc.
Qed.

Lemma split_ws_word :
  forall word cur rest,
    one_word word = true ->
    Str.split_ws_from cur (word ++ rest) = Str.split_ws_from (cur ++ word) rest.
Proof.
  induction word as [|c word IH]; intros cur rest Hword.
  - cbn [String.append]. now rewrite append_empty_r.
  - cbn [one_word] in Hword. apply andb_true_iff in Hword as [Hc Hword].
    apply negb_true_iff in Hc.
    cbn [String.append Str.split_ws_from]. rewrite Hc.
    rewrite IH by exact Hword. now rewrite append_assoc.
Qed.

Lemma split_ws_next (word rest : string) :
  one_word word = true -> Str.is_empty word = false ->
  Str.split_ws_from EmptyString (word ++ " " ++ rest)
  = word :: Str.split_ws_from EmptyString rest.
Proof.
  intros Hword Hne. rewrite split_ws_word by exact Hword.
  cbn [String.append Str.split_ws_from]. 
  change (Str.isspace " ") with true. cbv iota. now rewrite Hne.
Qed.

Lemma split_ws_last (word : string) :
  one_word word = true -> Str.is_empty word = false ->
  Str.split_ws_from EmptyString word = [word].
Proof.
  intros Hword Hne.
  rewrite <- (append_empty_r word) at 1.
  rewrite split_ws_word by exact Hword.
  cbn [String.append Str.split_ws_from]. now rewrite Hne.
Qed.

Lemma workdir_plain (f : string) :
  path_chars f = true -> path_chars (workdir f) = true.
Proof.
  intros Hf. unfold workdir, Str.split.
  pose proof (split_first "/crab_logs/" ltac:(discriminate) f EmptyString)
    as Hfirst.
  destruct (Str.contains "/crab_logs/" f).
  - destruct Hfirst as [p [r [Heq [Hhd _]]]]. rewrite Hhd.
    cbn [String.append]. rewrite Heq, path_chars_app in Hf.
    now apply andb_true_iff in Hf.
  - rewrite Hfirst. exact Hf.
Qed.

(** With plain paths, the status command of a sample is these eight
    words: the shell changes to the work directory and runs the script
    on the sample, and the word after [>>] is the log file. *)
Lemma status_command_words (e : env) (f : string) :
  plain_path (tmpfile e) = true -> plain_path f = true ->
  Str.split_ws (status_command e f)
  = ["cd"; workdir f ++ ";"; "bash"; "crab_status.sh"; f; ">>"; tmpfile e;
     "2>&1"].
Proof.
  unfold plain_path, Str.startswith. intros Hlog Hf.
  apply andb_true_iff in Hlog as [Hlog0 Hlog].
  apply andb_true_iff in Hf as [Hf0 Hf].
  assert (Hne : forall s, String.prefix "/" s = true -> Str.is_empty s = false)
    by (intros [|c s]; [discriminate|reflexivity]).
  assert (Hdir : one_word (workdir f ++ ";") = true)
    by (rewrite one_word_app, (path_chars_word _ (workdir_plain f Hf));
        reflexivity).
  assert (Hdir0 : Str.is_empty (workdir f ++ ";") = false)
    by (destruct (workdir f); reflexivity).
  unfold status_command, Str.split_ws.
  set (log := tmpfile e) in *. set (dir := workdir f) in *.
  replace ("cd " ++ dir ++ "; bash crab_status.sh " ++ f ++ " >> " ++ log
           ++ " 2>&1")
    with ("cd" ++ " " ++ (dir ++ ";") ++ " " ++ "bash" ++ " "
          ++ "crab_status.sh" ++ " " ++ f ++ " " ++ ">>" ++ " " ++ log ++ " "
          ++ "2>&1")
    by (rewrite (append_assoc dir); reflexivity).
  rewrite (split_ws_next "cd") by reflexivity.
  rewrite (split_ws_next (dir ++ ";")) by assumption.
  rewrite (split_ws_next "bash") by reflexivity.
  rewrite (split_ws_next "crab_status.sh") by reflexivity.
  rewrite (split_ws_next f) by auto using path_chars_word.
  rewrite (split_ws_next ">>") by reflexivity.
  rewrite (split_ws_next log) by auto using path_chars_word.
  rewrite (split_ws_last "2>&1") by reflexivity.
  reflexivity.
Qed.

Lemma isascii_app (a b : string) :
  Str.isascii (a ++ b) = Str.isascii a && Str.isascii b.
Proof.
  induction a as [|c a IH]; [reflexivity|].
  cbn [String.append Str.isascii]. now rewrite IH, andb_assoc.
Qed.

Lemma log_after_ascii (e : env) (n0 : nat) :
  (forall i, Str.isascii (crab e i) = true) ->
  forall k, Str.isascii (log_after e n0 k) = true.
Proof.
  intros Hout. induction k as [|k IH]; [reflexivity|].
  now rewrite log_after_S, isascii_app, IH, Hout.
Qed.

(** C2. For a sample that has its record, in a run in which the log
    file can be written and read as the program means it (its path and
    the path of the sample are absolute and plain, it is not a
    directory, and the output of the commands is ASCII text): the status
    command is the words [cd W; bash crab_status.sh F >> T 2>&1], so
    that the shell appends what the script prints to the log file [T],
    and the log file is ASCII text after any number of runs. The status
    command is run [n] times in a row, [n] between 1 and 5. The test of
    an attempt is made on the log file, which holds the output of all
    the runs made for the sample so far: exactly one of its lines starts
    with [Jobs status:]. Each run but the last has failed this test;
    after a last run that fails nothing more is run, and after one that
    succeeds the log file is removed. When all five attempts fail, the
    body of the loop returns without an exception, the status mapping of
    the sample is exactly [{'crab status': 'failed'}], and the loop goes
    on with the next sample. *)
Theorem status_retries (e : env) (nfproc fidx : nat) (f : string)
  (line : option string) (rest : list (string * string)) (w : world) :
  plain_path (tmpfile e) = true ->
  plain_path f = true ->
  (forall i, Str.isascii (crab e i) = true) ->
  Dict.get (tmpfile e) (fs w) <> Some Dir ->
  status_of (Os.basename f) w <> None ->
  let status_cmd := status_command e f in
  let n0 := List.length (commands w ++ removal e w)%list in
  let n := attempts_made e n0 in
  let r := process_sample e nfproc fidx f status_cmd line w in
  Str.split_ws status_cmd
  = ["cd"; workdir f ++ ";"; "bash"; "crab_status.sh"; f; ">>"; tmpfile e;
     "2>&1"]
  /\ (forall k, Str.isascii (log_after e n0 k) = true)
  /\ 1 <= n <= 5
  /\ (forall k, 1 <= k < n -> attempt_succeeds e n0 k = false)
  /\ (exists more,
        commands (snd r)
        = (commands w ++ removal e w ++ repeat status_cmd n ++ more)%list
        /\ (attempt_succeeds e n0 n = false -> more = [])
        /\ (attempt_succeeds e n0 n = true ->
            hd_error more = Some ("rm " ++ tmpfile e)))
  /\ ((forall k, 1 <= k <= 5 -> attempt_succeeds e n0 k = false) ->
      n = 5
      /\ fst r = Ok line
      /\ status_of (Os.basename f) (snd r) = Some crab_failed
      /\ aggregate e nfproc fidx ((f, status_cmd) :: rest) line w
         = aggregate e nfproc (S fidx) rest line (snd r)).
Proof.
  intros Hlog Hf Hout Hdir Hst status_cmd n0 n r.
  split; [now apply status_command_words|].
  split; [now apply log_after_ascii|].
  destruct (process_sample_attempts e nfproc fidx f status_cmd line w Hdir)
    as (w1 & Hrun & Hcmd & Hget & Hd & Ht & Hn).
  fold n0 in Hrun, Hcmd, Hget, Hn. fold n in Hrun, Hcmd, Hget, Hn.
  assert (Hst1 : status_of (Os.basename f) w1 <> None)
    by (now rewrite (status_of_data _ w w1 Hd)).
  destruct (skip_sample_spec f line w1 Hst1)
    as (w' & Hskip & Hfailed & _ & Hcmd').
  split; [exact Hn|]. split.
  { intros k Hk. apply (runs_needed_before _ 5 0 k). fold (attempts_made e n0).
    fold n. lia. }
  split.
  - unfold r. rewrite Hrun.
    destruct (attempt_succeeds e n0 n) eqn:Hok.
    + destruct (parse_sample_commands e f status_cmd line w1 _ Hget)
        as [more Hmore].
      exists (("rm " ++ tmpfile e) :: more).
      split; [|split; [discriminate|reflexivity]].
      rewrite Hmore, Hcmd. now rewrite <- !app_assoc.
    + exists []. split; [|split; [reflexivity|discriminate]].
      rewrite Hskip. cbn [snd]. rewrite Hcmd', Hcmd.
      now rewrite app_nil_r.
  - intros Hall.
    assert (Hn5 : n = 5).
    { unfold n, attempts_made. rewrite runs_needed_all; [reflexivity|].
      intros k Hk. apply Hall. lia. }
    assert (Hok : attempt_succeeds e n0 n = false)
      by (apply Hall; lia).
    assert (Hr : r = (Ok line, w')).
    { unfold r. now rewrite Hrun, Hok. }
    split; [exact Hn5|]. rewrite Hr. cbn [fst snd].
    split; [reflexivity|]. split; [exact Hfailed|].
    cbn [aggregate]. unfold bind at 1. fold r. now rewrite Hr.
Qed.

(** A sample whose status command prints a traceback at each run. *)
Lemma status_retries_witness :
  let f := "/sim/a/crab_logs/crab_s1" in
  let e := Sample.env_of [f] Sample.always_fails in
  let cmd := status_command e f in
  let r := process_sample e 1 0 f cmd None Sample.polling in
  (plain_path (tmpfile e) = true /\ plain_path f = true
   /\ Str.isascii Sample.garbage = true)
  /\ Dict.get (tmpfile e) (fs Sample.polling) <> Some Dir
  /\ status_of (Os.basename f) Sample.polling <> None
  /\ attempts_made e 0 = 5
  /\ fst r = Ok None
  /\ status_of "crab_s1" (snd r) = Some crab_failed
  /\ commands (snd r) = repeat cmd 5.
Proof.
  cbv zeta.
  assert (H1 : Dict.get
                 (tmpfile (Sample.env_of ["/sim/a/crab_logs/crab_s1"]
                                         Sample.always_fails))
                 (fs Sample.polling) <> Some Dir)
    by (vm_compute; discriminate).
  assert (H2 : status_of (Os.basename "/sim/a/crab_logs/crab_s1")
                         Sample.polling <> None)
    by (vm_compute; discriminate).
  destruct (status_retries
              (Sample.env_of ["/sim/a/crab_logs/crab_s1"] Sample.always_fails)
              1 0 "/sim/a/crab_logs/crab_s1" None [] Sample.polling
              eq_refl eq_refl (fun _ => eq_refl) H1 H2)
    as (_ & _ & _ & _ & (more & Hcmd & Hmore & _) & Hall).
  destruct Hall as (Hn & Hfst & Hst & _).
  { intros k Hk.
    assert (Hcases : k = 1 \/ k = 2 \/ k = 3 \/ k = 4 \/ k = 5) by lia.
    destruct Hcases as [->|[->|[->|[->| ->]]]]; reflexivity. }
  split; [now repeat split|].
  split; [exact H1|]. split; [exact H2|]. split; [exact Hn|].
  split; [exact Hfst|]. split; [exact Hst|].
  rewrite Hcmd, Hmore; [|reflexivity]. reflexivity.
Defined.

(** C2, as stated, fails. First, two runs of a status command each
    print a text that has no line starting with [Jobs status:], and the
    log file, which holds the one after the other, has exactly one: the
    second attempt succeeds, the sample is parsed and its status is not
    the failure mapping. Second, with a directory in the place of the
    log file and a command whose output fails the test, the first
    reading of the log raises: the sample is not marked as failed and
    the loop does not go on. *)
Lemma retry_test_reads_whole_log :
  let f := "/sim/a/crab_logs/crab_s1" in
  let e := Sample.env_of [f] Sample.split_marker in
  let r := process_sample e 1 0 f (status_command e f) None Sample.polling in
  let e' := Sample.env_of [f] Sample.always_fails in
  let r' := process_sample e' 1 0 f (status_command e' f) None
                           Sample.log_is_directory in
  (thissucces (Str.splitlines (crab e 0)) = false
   /\ thissucces (Str.splitlines (crab e 1)) = false
   /\ commands (snd r)
      = [status_command e f; status_command e f; "rm " ++ tmpfile e]
   /\ status_of "crab_s1" (snd r) = Some [("finished", "100.0%")]
   /\ [("finished", "100.0%")] <> crab_failed)
  /\ (thissucces (Str.splitlines (crab e' 0)) = false
      /\ fst r' = Raise (IsADirectoryError (tmpfile e'))
      /\ status_of "crab_s1" (snd r') = Some [("finished", "0%")]).
Proof.
  cbv zeta. split.
  - split; [reflexivity|]. split; [reflexivity|].
    set (r := process_sample _ _ _ _ _ _ _). vm_compute in r. subst r.
    cbn [fst snd commands]. split; [reflexivity|].
    split; [reflexivity|discriminate].
  - split; [reflexivity|].
    set (r := process_sample _ _ _ _ _ _ _). vm_compute in r. subst r.
    cbn [fst snd]. split; reflexivity.
Qed.

(** *** The entry of the finished jobs through the loop *)

Lemma settled_keeps {A : Type} (names : list string) (m : M A) :
  keeps_data m -> stable (settled names) m.
Proof.
  intros Hm. apply stable_intro. intros w [Hg Hp].
  destruct (Hm w) as [Hd _]. split.
  - intros name st. rewrite (status_of_data name w _ Hd). apply Hg.
  - intros name Hin. rewrite (status_of_data name w _ Hd). now apply Hp.
Qed.

Lemma settled_set_status (names : list string) (name status frac : string) :
  In name names ->
  stable (settled names) (update_samples (set_status name status frac)).
Proof.
  intros Hin. apply stable_intro. intros w [Hg Hp].
  destruct (Hp name Hin) as [st [Hst Hmem]].
  destruct (set_status_spec name status frac w st Hst)
    as (w' & Hrun & Hst' & Hother & _).
  rewrite Hrun. cbn [snd]. split.
  - intros name' st'.
    destruct (String.eqb_spec name' name) as [->|Hne].
    + rewrite Hst'. intros [= <-]. right. now apply mem_set.
    + rewrite (Hother name' Hne). apply Hg.
  - intros name' Hin'.
    destruct (String.eqb_spec name' name) as [->|Hne].
    + eexists. split; [exact Hst'|now apply mem_set].
    + rewrite (Hother name' Hne). now apply Hp.
Qed.

Lemma settled_set_grafana (names : list string) (name link : string) :
  stable (settled names) (update_samples (set_grafana name link)).
Proof.
  apply stable_intro. intros w [Hg Hp]. split.
  - intros name' st'. rewrite set_grafana_status. apply Hg.
  - intros name' Hin'. rewrite set_grafana_status. now apply Hp.
Qed.

Section Settled.

Variable names : list string.
Variable name : string.
Hypothesis name_pending : In name names.

(** One step of a proof that a computation keeps the state of the
    loop. *)
Ltac settled_step :=
  match goal with
  | |- stable (settled names) (bind _ _) => apply stable_bind; [|intros ?]
  | |- stable (settled names) (when _ _) => apply stable_when
  | |- stable (settled names) (if ?b then _ else _) => destruct b
  | |- stable (settled names) (match ?x with _ => _ end) => destruct x
  | |- stable (settled names) _ =>
      solve [apply settled_keeps; auto with run]
  end.

Lemma settled_parse_statuses (words : list string) :
  forall (statuses : list string) (jobsfailed : bool),
    stable (settled names) (parse_statuses name words statuses jobsfailed).
Proof.
  induction statuses as [|status rest IH]; intros jobsfailed;
    cbn [parse_statuses]; repeat settled_step;
    first [now apply settled_set_status|apply IH].
Qed.

Lemma settled_parse_line (line : string) (jobsfailed : bool) :
  stable (settled names) (parse_line name line jobsfailed).
Proof.
  unfold parse_line. repeat settled_step.
  - apply settled_parse_statuses.
  - apply settled_set_grafana.
Qed.

Lemma settled_parse_lines :
  forall (outlines : list string) (line : option string) (jobsfailed : bool),
    stable (settled names) (parse_lines name outlines line jobsfailed).
Proof.
  induction outlines as [|l rest IH]; intros line jobsfailed;
    cbn [parse_lines]; repeat settled_step;
    first [apply settled_parse_line|apply IH].
Qed.

End Settled.

Lemma settled_parse_sample (e : env) (names : list string)
  (f status_cmd : string) (line : option string) :
  In (Os.basename f) names ->
  stable (settled names) (parse_sample e f status_cmd line).
Proof.
  intros Hin. unfold parse_sample.
  repeat (first [apply stable_bind; [|intros ?]
                | apply stable_when
                | solve [apply settled_keeps; auto with run]]).
  now apply settled_parse_lines.
Qed.

Lemma settled_weaken (name : string) (names : list string) (w : world) :
  settled (name :: names) w -> settled names w.
Proof.
  intros [Hg Hp]. split; [exact Hg|].
  intros name' Hin. apply Hp. now right.
Qed.

Lemma settled_skip_sample (names : list string) (f : string)
  (line : option string) :
  ~ In (Os.basename f) names ->
  triple (settled (Os.basename f :: names)) (skip_sample f line)
         (settled names) anyhow.
Proof.
  intros Hnot w [Hg Hp].
  destruct (Hp (Os.basename f)) as [st [Hst _]]; [now left|].
  destruct (skip_sample_spec f line w) as (w' & Hrun & Hfailed & Hother & _).
  { rewrite Hst. discriminate. }
  rewrite Hrun. cbn [fst snd]. split.
  - intros name' st'.
    destruct (String.eqb_spec name' (Os.basename f)) as [->|Hne].
    + rewrite Hfailed. intros [= <-]. now left.
    + rewrite (Hother name' Hne). apply Hg.
  - intros name' Hin'.
    assert (Hne : name' <> Os.basename f) by (intros ->; contradiction).
    rewrite (Hother name' Hne). apply Hp. now right.
Qed.

Lemma to_anyhow {A : Type} (P Q : world -> Prop) (m : M A) :
  triple P m Q Q -> triple P m Q anyhow.
Proof.
  intros H. eapply triple_weaken; [exact H|auto|]. intros w _. exact I.
Qed.

Lemma settled_process_sample (e : env) (nfproc fidx : nat)
  (names : list string) (f status_cmd : string) (line : option string) :
  ~ In (Os.basename f) names ->
  triple (settled (Os.basename f :: names))
         (process_sample e nfproc fidx f status_cmd line)
         (settled names) anyhow.
Proof.
  intros Hnot. unfold process_sample.
  repeat (eapply triple_bind;
          [apply to_anyhow, settled_keeps; auto with run|intros ?]).
  match goal with |- context [negb ?success] => destruct (negb success) end.
  - now apply settled_skip_sample.
  - eapply triple_weaken.
    + apply (settled_parse_sample e (Os.basename f :: names)). now left.
    + apply settled_weaken.
    + intros w _. exact I.
Qed.

Lemma settled_aggregate (e : env) (nfproc : nat) :
  forall (todo : list (string * string)) (fidx : nat) (line : option string),
    NoDup (map (fun p => Os.basename (fst p)) todo) ->
    triple (settled (map (fun p => Os.basename (fst p)) todo))
           (aggregate e nfproc fidx todo line) all_good anyhow.
Proof.
  induction todo as [|[f status_cmd] rest IH]; intros fidx line Hnodup;
    cbn [aggregate map fst].
  - intros w [Hg _]. exact Hg.
  - cbn [map fst] in Hnodup. inversion Hnodup as [|? ? Hnot Hrest]; subst.
    eapply triple_bind.
    + now apply settled_process_sample.
    + intros line'. now apply IH.
Qed.

Lemma fresh_init_sample (name : string) (w : world) :
  fresh w ->
  exists w',
    update_samples (init_sample name) w = (Ok tt, w')
    /\ fresh w'
    /\ status_of name w' <> None
    /\ forall other, status_of other w <> None -> status_of other w' <> None.
Proof.
  intros [Hs Hf]. unfold update_samples, init_sample.
  destruct (d_samples (var_data w)) as [samples|] eqn:Hd; [|congruence].
  eexists. split; [reflexivity|].
  assert (Hst : forall other,
             status_of other
               (with_data
                  (mkData (d_meta (var_data w))
                     (Some (Dict.set name
                              (mkSample (Some [("finished", "0%")])
                                        (Some EmptyString)) samples))) w)
             = if String.eqb name other then Some [("finished", "0%")]
               else status_of other w).
  { intros other. unfold status_of. cbn [with_data var_data d_samples].
    rewrite Hd.
    destruct (String.eqb_spec name other) as [<-|Hne].
    - now rewrite get_set_eq.
    - now rewrite get_set_ne. }
  split; [split|split].
  - cbn [with_data var_data d_samples]. discriminate.
  - intros other st. rewrite Hst.
    destruct (String.eqb name other); [intros [= <-]; reflexivity|apply Hf].
  - rewrite Hst, String.eqb_refl. discriminate.
  - intros other Hother. rewrite Hst.
    destruct (String.eqb name other); [discriminate|exact Hother].
Qed.

Lemma fresh_initialize :
  forall (fproc : list string) (w : world),
    fresh w ->
    exists w',
      initialize fproc w = (Ok tt, w')
      /\ fresh w'
      /\ (forall name, In name (map Os.basename fproc) ->
                       status_of name w' <> None)
      /\ forall other, status_of other w <> None -> status_of other w' <> None.
Proof.
  induction fproc as [|f rest IH]; intros w Hf.
  - exists w. split; [reflexivity|]. split; [exact Hf|].
    split; [intros name []|auto].
  - cbn [initialize]. unfold bind at 1.
    destruct (fresh_init_sample (Os.basename f) w Hf)
      as (w1 & Hrun & Hf1 & Hname & Hkeep1).
    rewrite Hrun.
    destruct (IH w1 Hf1) as (w' & Hrun' & Hf' & Hnames & Hkeep').
    exists w'. split; [exact Hrun'|]. split; [exact Hf'|]. split.
    + intros name [<-|Hin]; [now apply Hkeep'|now apply Hnames].
    + intros other Hother. now apply Hkeep', Hkeep1.
Qed.

Lemma fresh_settled (names : list string) (w : world) :
  fresh w -> (forall name, In name names -> status_of name w <> None) ->
  settled names w.
Proof.
  intros [_ Hf] Hnames. split.
  - intros name st Hst. right. now apply (Hf name).
  - intros name Hin. specialize (Hnames name Hin).
    destruct (status_of name w) as [st|] eqn:Hst; [|congruence].
    exists st. split; [reflexivity|now apply (Hf name)].
Qed.

Lemma nodup_combine_names (l : list string) :
  forall l' : list string,
    NoDup (map Os.basename l) ->
    NoDup (map (fun p => Os.basename (fst p)) (combine l l')).
Proof.
  induction l as [|x l IH]; intros l' Hnodup.
  - constructor.
  - destruct l' as [|y l']; [constructor|].
    cbn [combine map fst] in *. inversion Hnodup as [|? ? Hnot Hrest]; subst.
    constructor; [|now apply IH].
    intros Hin. apply Hnot.
    apply in_map_iff in Hin as [[a b] [Heq Hin]]. cbn [fst] in Heq.
    apply in_map_iff. exists a. split; [exact Heq|].
    now apply in_combine_l in Hin.
Qed.

Lemma combine_names_in (l l' : list string) (name : string) :
  In name (map (fun p => Os.basename (fst p)) (combine l l')) ->
  In name (map Os.basename l).
Proof.
  intros Hin. apply in_map_iff in Hin as [[a b] [Heq Hin]].
  cbn [fst] in Heq. apply in_map_iff. exists a. split; [exact Heq|].
  now apply in_combine_l in Hin.
Qed.

Lemma settled_gather (e : env) (fproc : list string) :
  NoDup (map Os.basename fproc) ->
  triple fresh (gather e fproc) all_good anyhow.
Proof.
  intros Hnodup. unfold gather.
  eapply triple_bind.
  { apply to_anyhow. apply stable_intro. intros w [Hs Hf].
    destruct (keeps_find_commands e fproc w) as [Hd _]. split.
    - now rewrite Hd.
    - intros name st. rewrite (status_of_data name w _ Hd). apply Hf. }
  intros cmds.
  eapply (triple_bind _ (settled (map (fun p => Os.basename (fst p))
                                      (combine fproc cmds)))).
  { intros w Hf.
    destruct (fresh_initialize fproc w Hf) as (w' & Hrun & Hf' & Hnames & _).
    rewrite Hrun. cbn [fst snd].
    apply fresh_settled; [exact Hf'|].
    intros name Hin. apply Hnames. now apply combine_names_in in Hin. }
  intros _.
  eapply triple_bind.
  { apply settled_aggregate. now apply nodup_combine_names. }
  intros line. intros w Hg. exact Hg.
Qed.

Lemma startup_fresh (e : env) :
  triple anyhow (startup e) fresh anyhow.
Proof.
  assert (Hany : forall (A : Type) (m : M A), triple anyhow m anyhow anyhow).
  { intros A m w _. destruct (fst (m w)); exact I. }
  unfold startup.
  repeat (eapply triple_bind; [apply Hany|intros ?]).
  destruct (negb _); [intros w _; exact I|].
  eapply triple_bind; [apply Hany|intros _].
  eapply (triple_bind _ fresh).
  { intros w _. cbn. split; [discriminate|].
    intros name st. unfold status_of. cbn. discriminate. }
  intros _.
  assert (Hk : forall (m : M unit), keeps_data m -> triple fresh m fresh anyhow).
  { intros m Hm. apply to_anyhow. apply stable_intro. intros w [Hs Hf].
    destruct (Hm w) as [Hd _]. split.
    - now rewrite Hd.
    - intros name st. rewrite (status_of_data name w _ Hd). apply Hf. }
  apply Hk. keeps.
Qed.

Lemma aggregation_all_good (e : env) :
  NoDup (map Os.basename (selected e)) ->
  triple anyhow (aggregation e) all_good anyhow.
Proof.
  intros Hnodup. unfold aggregation.
  eapply triple_bind; [apply startup_fresh|intros _].
  now apply settled_gather.
Qed.

(** *** What the lines of a sample leave in its status mapping *)

Lemma lines_updates_cons (l : string) (outlines : list string)
  (st : dict string) :
  lines_updates (l :: outlines) st
  = lines_updates outlines (line_updates (line_words l) known_statuses st).
Proof. reflexivity. Qed.

(** The loop over the lines makes the entries of the lines it has gone
    through: all of them when it returns, those up to the line that
    raised otherwise. *)
Lemma parse_lines_updates (name : string) :
  forall (outlines : list string) (line : option string) (jobsfailed : bool)
         (w : world) (st : dict string),
    status_of name w = Some st ->
    exists done rest,
      outlines = (done ++ rest)%list
      /\ (forall v, fst (parse_lines name outlines line jobsfailed w) = Ok v ->
                    rest = [])
      /\ status_of name (snd (parse_lines name outlines line jobsfailed w))
         = Some (lines_updates done st).
Proof.
  induction outlines as [|l outlines IH]; intros line jobsfailed w st Hst.
  - exists [], []. cbn. auto.
  - cbn [parse_lines]. unfold bind.
    pose proof (parse_line_updates name l jobsfailed w st Hst) as Hl.
    destruct (parse_line name l jobsfailed w) as [[r|err] w1];
      cbn [snd] in Hl.
    + destruct (IH (Some (fst r)) (snd r) w1 _ Hl)
        as (done & rest & Hsplit & Hok & Hstatus).
      exists (l :: done), rest. rewrite lines_updates_cons.
      split; [now rewrite Hsplit|]. split; assumption.
    + exists [l], outlines. cbn [fst snd]. split; [reflexivity|].
      split; [discriminate|exact Hl].
Qed.

Lemma line_updates_mem (words : list string) (key : string) :
  forall (statuses : list string) (st : dict string),
    Dict.mem key st = true ->
    Dict.mem key (line_updates words statuses st) = true.
Proof.
  unfold line_updates.
  induction statuses as [|status rest IH]; intros st Hmem; cbn [fold_left].
  - exact Hmem.
  - apply IH. destruct (Str.contains status (hd EmptyString words));
      [now apply mem_set|exact Hmem].
Qed.

Lemma lines_updates_mem (key : string) :
  forall (outlines : list string) (st : dict string),
    Dict.mem key st = true ->
    Dict.mem key (lines_updates outlines st) = true.
Proof.
  induction outlines as [|l outlines IH]; intros st Hmem.
  - exact Hmem.
  - rewrite lines_updates_cons. now apply IH, line_updates_mem.
Qed.

(** A status that a line lists has an entry afterwards. *)
Lemma lines_updates_listed (status : string) :
  forall (outlines : list string) (st : dict string) (l : string),
    In l outlines -> In status known_statuses ->
    Str.contains status (first_word l) = true ->
    Dict.mem status (lines_updates outlines st) = true.
Proof.
  induction outlines as [|l0 outlines IH]; intros st l Hin Hknown Hc.
  - destruct Hin.
  - rewrite lines_updates_cons. destruct Hin as [->|Hin].
    + apply lines_updates_mem. unfold Dict.mem.
      rewrite line_updates_get.
      apply existsb_eqb_in in Hknown. unfold first_word in Hc.
      now rewrite Hknown, Hc.
    + now apply (IH _ l).
Qed.

(** An entry that no line lists stays as it was. *)
Lemma lines_updates_unlisted (key : string) :
  forall (outlines : list string) (st : dict string),
    (forall l, In l outlines -> Str.contains key (first_word l) = false) ->
    Dict.get key (lines_updates outlines st) = Dict.get key st.
Proof.
  induction outlines as [|l outlines IH]; intros st Hnone.
  - reflexivity.
  - rewrite lines_updates_cons, IH.
    + rewrite line_updates_get.
      assert (Hc : Str.contains key (first_word l) = false)
        by (apply Hnone; now left).
      unfold first_word in Hc. now rewrite Hc, andb_false_r.
    + intros l' Hin. apply Hnone. now right.
Qed.

Lemma parse_sample_run (e : env) (f status_cmd : string)
  (line : option string) (w : world) (c : string) :
  Dict.get (tmpfile e) (fs w) = Some (File c) ->
  parse_sample e f status_cmd line w
  = bind (parse_lines (Os.basename f)
            (Str.splitlines (Str.universal_newlines false c)) line false)
         (fun r => report_sample e f status_cmd (fst r) (snd r))
         (with_commands (commands w ++ [("rm " ++ tmpfile e)%string])%list
            (with_fs (Dict.remove (tmpfile e) (fs w)) w)).
Proof.
  intros Hget. unfold parse_sample.
  unfold bind at 1. unfold Os.read at 1. rewrite Hget.
  unfold bind at 1. unfold rm_tmpfile, Os.system. now rewrite Hget.
Qed.

(** The status mapping of a sample after the body of the loop, when the
    status command has succeeded. *)
Lemma process_sample_parsed (e : env) (nfproc fidx : nat)
  (f status_cmd : string) (line : option string) (w : world)
  (st : dict string) :
  Dict.get (tmpfile e) (fs w) <> Some Dir ->
  status_of (Os.basename f) w = Some st ->
  let n0 := List.length (commands w ++ removal e w)%list in
  let r := process_sample e nfproc fidx f status_cmd line w in
  attempt_succeeds e n0 (attempts_made e n0) = true ->
  exists done rest,
    polled_lines e n0 = (done ++ rest)%list
    /\ (forall v, fst r = Ok v -> rest = [])
    /\ status_of (Os.basename f) (snd r) = Some (lines_updates done st).
Proof.
  intros Hdir Hst n0 r Hok.
  destruct (process_sample_attempts e nfproc fidx f status_cmd line w Hdir)
    as (w1 & Hrun & _ & Hget & Hd & _ & _).
  fold n0 in Hrun, Hget. rewrite Hok in Hrun.
  unfold r. rewrite Hrun. clear Hrun r.
  rewrite (parse_sample_run e f status_cmd line w1 _ Hget).
  fold (polled_lines e n0).
  set (w2 := with_commands _ _).
  assert (Hst2 : status_of (Os.basename f) w2 = Some st).
  { rewrite <- Hst. apply status_of_data. exact Hd. }
  destruct (parse_lines_updates (Os.basename f) (polled_lines e n0) line
              false w2 st Hst2)
    as (done & rest & Hsplit & Hall & Hstatus).
  exists done, rest. split; [exact Hsplit|].
  unfold bind.
  destruct (parse_lines (Os.basename f) (polled_lines e n0) line false w2)
    as [[p|err] w3]; cbn [fst snd] in Hall, Hstatus |- *.
  - destruct (keeps_report_sample e f status_cmd (fst p) (snd p) w3)
      as [Hd3 _].
    split.
    + intros v _. now apply (Hall p).
    + rewrite <- Hstatus. apply status_of_data. exact Hd3.
  - split; [discriminate|exact Hstatus].
Qed.

(** C10, as the program has it. When no two of the polled sample
    directories have the same base name and the loop over the samples
    comes to its end, the status mapping of every sample is exactly
    [{'crab status': 'failed'}] or has the key [finished]. The parser
    only sets entries: for a sample whose status command succeeds and
    whose lines list no finished percentage, the entry [finished: 0%]
    of its initial record is still there after the body of the loop,
    and, when the body returns, every status that a line lists has its
    entry beside it. *)
Theorem finished_or_failed (e : env) (w : world) :
  NoDup (map Os.basename (selected e)) ->
  fst (aggregation e w) = Ok tt ->
  (forall name st,
     status_of name (snd (aggregation e w)) = Some st ->
     st = crab_failed \/ Dict.mem "finished" st = true)
  /\ (forall nfproc fidx f status_cmd line w0 st,
        Dict.get (tmpfile e) (fs w0) <> Some Dir ->
        status_of (Os.basename f) w0 = Some st ->
        Dict.get "finished" st = Some "0%" ->
        let n0 := List.length (commands w0 ++ removal e w0)%list in
        let r := process_sample e nfproc fidx f status_cmd line w0 in
        attempt_succeeds e n0 (attempts_made e n0) = true ->
        (forall l, In l (polled_lines e n0) ->
                   Str.contains "finished" (first_word l) = false) ->
        exists st',
          status_of (Os.basename f) (snd r) = Some st'
          /\ Dict.get "finished" st' = Some "0%"
          /\ (forall v l status,
                fst r = Ok v ->
                In l (polled_lines e n0) -> In status known_statuses ->
                Str.contains status (first_word l) = true ->
                Dict.mem status st' = true)).
Proof.
  intros Hnodup Hok. split.
  - pose proof (aggregation_all_good e Hnodup w Logic.I) as H.
    rewrite Hok in H. exact H.
  - intros nfproc fidx f status_cmd line w0 st Hdir Hst Hfin n0 r Hsucc Hnone.
    destruct (process_sample_parsed e nfproc fidx f status_cmd line w0 st
                Hdir Hst Hsucc)
      as (done & rest & Hsplit & Hall & Hstatus).
    fold n0 in Hsplit. fold r in Hall, Hstatus.
    exists (lines_updates done st). split; [exact Hstatus|]. split.
    + rewrite lines_updates_unlisted; [exact Hfin|].
      intros l Hin. apply Hnone. rewrite Hsplit. apply in_or_app. now left.
    + intros v l status Hv Hin Hknown Hc.
      rewrite (Hall v Hv), app_nil_r in Hsplit.
      apply (lines_updates_listed status done st l); try assumption.
      now rewrite <- Hsplit.
Qed.

(** A run with two samples: the status command reports running jobs
    for the first and fails for the second. *)
Lemma finished_or_failed_witness :
  let e := Sample.env_of Sample.crossed Sample.runs_then_fails in
  let w := snd (aggregation e Sample.start) in
  NoDup (map Os.basename (selected e))
  /\ fst (aggregation e Sample.start) = Ok tt
  /\ status_of "crab_z" w = Some [("finished", "0%"); ("running", "100.0%")]
  /\ status_of "crab_y" w = Some crab_failed
  /\ (forall name st,
        status_of name w = Some st ->
        st = crab_failed \/ Dict.mem "finished" st = true).
Proof.
  cbv zeta.
  assert (H1 : NoDup (map Os.basename
                        (selected (Sample.env_of Sample.crossed
                                                 Sample.runs_then_fails)))).
  { vm_compute. repeat constructor; cbn [In]; intuition discriminate. }
  assert (H2 : fst (aggregation
                      (Sample.env_of Sample.crossed Sample.runs_then_fails)
                      Sample.start) = Ok tt)
    by (vm_compute; reflexivity).
  split; [exact H1|]. split; [exact H2|].
  split; [vm_compute; reflexivity|]. split; [vm_compute; reflexivity|].
  exact (proj1 (finished_or_failed _ _ H1 H2)).
Defined.

(** C10, as stated, fails. Two sample directories have the same base
    name; the status command fails for the first and reports running
    jobs for the second. The loop ends, and the one record of that name
    has the status mapping [{'crab status': 'failed', 'running':
    '100.0%'}]: it is not the failure mapping and has no key
    [finished]. *)
Lemma same_name_neither_failed_nor_finished :
  let e := Sample.env_of Sample.same_name Sample.fails_then_runs in
  let w := snd (aggregation e Sample.start) in
  map Os.basename (selected e) = ["crab_s"; "crab_s"]
  /\ fst (aggregation e Sample.start) = Ok tt
  /\ status_of "crab_s" w
     = Some [("crab status", "failed"); ("running", "100.0%")]
  /\ [("crab status", "failed"); ("running", "100.0%")] <> crab_failed
  /\ Dict.mem "finished" [("crab status", "failed"); ("running", "100.0%")]
     = false.
Proof.
  cbv zeta.
  split; [reflexivity|].
  set (r := aggregation _ _). vm_compute in r. subst r. cbn [fst snd].
  split; [reflexivity|]. split; [reflexivity|].
  split; [discriminate|reflexivity].
Qed.

(* ================================================================== *)
(** ** Further properties of the program *)
(* ================================================================== *)

(** *** The start of a run *)

(** X1. When the simpack directory is not there, or is no directory, the
    run prints its configuration and raises; no command has been given
    and no file or record touched. *)
Theorem main_without_simpackdir (e : env) (w : world) :
  Dict.get (simpackdir (argv e)) (fs w) <> Some Dir ->
  main e w
  = (Raise (Exception ("ERROR: simpack directory " ++ simpackdir (argv e)
                       ++ " does not exist")),
     with_stdout (stdout w ++ map Text (configuration e))%list w).
Proof.
  intros Hdir.
  unfold main, aggregation, startup, bind, print, Os.isdir. cbn.
  destruct (Dict.get (simpackdir (argv e)) (fs w)) as [[|c]|] eqn:Hget;
    [now contradiction Hdir| |];
    cbn; unfold raise, with_stdout; cbn;
    now rewrite <- !app_assoc.
Qed.

Lemma main_without_simpackdir_witness :
  let e := Sample.env_of [] Sample.always_fails in
  Dict.get (simpackdir (argv e)) (fs Sample.polling) <> Some Dir
  /\ fst (main e Sample.polling)
     = Raise (Exception "ERROR: simpack directory /sim does not exist")
  /\ fs (snd (main e Sample.polling)) = fs Sample.polling
  /\ commands (snd (main e Sample.polling)) = [].
Proof.
  cbv zeta.
  assert (H : Dict.get
                (simpackdir (argv (Sample.env_of [] Sample.always_fails)))
                (fs Sample.polling) <> Some Dir)
    by (vm_compute; discriminate).
  split; [exact H|].
  rewrite (main_without_simpackdir (Sample.env_of [] Sample.always_fails)
             Sample.polling H).
  repeat split.
Defined.

(** X2. When a proxy is given that does not exist, the run prints its
    configuration and raises; no command has been given and no file or
    record touched. *)
Theorem main_without_proxy (e : env) (w : world) (p : string) :
  Dict.get (simpackdir (argv e)) (fs w) = Some Dir ->
  proxy (argv e) = Some p ->
  Dict.mem p (fs w) = false ->
  main e w
  = (Raise (Exception ("ERROR: provided proxy " ++ p ++ " does not exist")),
     with_stdout (stdout w ++ map Text (configuration e))%list w).
Proof.
  intros Hdir Hproxy Hmem.
  unfold main, aggregation, startup, bind, print, Os.isdir, Os.exists_. cbn.
  rewrite Hdir, Hproxy. cbn. rewrite Hmem. cbn.
  unfold raise, with_stdout; cbn. now rewrite <- !app_assoc.
Qed.

Lemma main_without_proxy_witness :
  let e := Sample.env_with Sample.with_proxy Sample.crossed
                           Sample.always_fails in
  Dict.get (simpackdir (argv e)) (fs Sample.start) = Some Dir
  /\ proxy (argv e) = Some "/proxy"
  /\ Dict.mem "/proxy" (fs Sample.start) = false
  /\ fst (main e Sample.start)
     = Raise (Exception "ERROR: provided proxy /proxy does not exist")
  /\ commands (snd (main e Sample.start)) = [].
Proof.
  cbv zeta.
  rewrite (main_without_proxy
             (Sample.env_with Sample.with_proxy Sample.crossed
                              Sample.always_fails)
             Sample.start "/proxy" eq_refl eq_refl eq_refl).
  repeat split.
Defined.

(** X3. When no sample directory is found, the run raises; by then it
    has exported the proxy, if there is one, and set [data] to the meta
    information with no sample, and it has touched no file. *)
Theorem main_without_samples (e : env) (w : world) :
  Dict.get (simpackdir (argv e)) (fs w) = Some Dir ->
  (forall p, proxy (argv e) = Some p -> Dict.mem p (fs w) = true) ->
  glob_crab_logs e = [] ->
  let r := main e w in
  fst r
  = Raise (Exception "No samples found in provided simpack dir; exiting.")
  /\ fs (snd r) = fs w
  /\ commands (snd r) = (commands w ++ export_proxy e)%list
  /\ var_data (snd r) = initial_data e
  /\ stdout (snd r) = (stdout w ++ map Text (configuration e))%list.
Proof.
  intros Hdir Hproxy Hglob.
  unfold main, aggregation, startup, bind, print, Os.isdir, Os.exists_,
    export_proxy, configuration.
  cbn. rewrite Hdir, Hglob. cbn.
  destruct (proxy (argv e)) as [p|] eqn:Hp; cbn.
  - rewrite (Hproxy p eq_refl). cbn.
    repeat split; try reflexivity. now rewrite <- !app_assoc.
  - repeat split; try reflexivity.
    + now rewrite app_nil_r.
    + now rewrite <- !app_assoc.
Qed.

Lemma main_without_samples_witness :
  let e := Sample.env_of [] Sample.always_fails in
  Dict.get (simpackdir (argv e)) (fs Sample.start) = Some Dir
  /\ glob_crab_logs e = []
  /\ fst (main e Sample.start)
     = Raise (Exception "No samples found in provided simpack dir; exiting.")
  /\ fs (snd (main e Sample.start)) = fs Sample.start
  /\ commands (snd (main e Sample.start)) = [].
Proof.
  cbv zeta.
  destruct (main_without_samples (Sample.env_of [] Sample.always_fails)
              Sample.start eq_refl
              ltac:(intros p Hp; discriminate Hp) eq_refl)
    as (Hfst & Hfs & Hcmd & _).
  repeat split; assumption.
Defined.

(** *** The commands of the samples *)

Lemma find_commands_run (e : env) :
  forall (fproc : list string) (w : world),
    find_commands e fproc w
    = (match first_without_script fproc w with
       | Some f => Raise (Exception (missing_script_msg f))
       | None => Ok (map (status_command e) fproc)
       end, w).
Proof.
  induction fproc as [|f rest IH]; intros w; [reflexivity|].
  cbn [find_commands first_without_script find].
  unfold bind at 1. unfold Os.exists_ at 1. fold (status_script f).
  destruct (Dict.mem (status_script f) (fs w)); cbn [negb].
  - unfold bind. rewrite IH. fold (first_without_script rest w).
    destruct (first_without_script rest w); reflexivity.
  - reflexivity.
Qed.

(** X4. When every sample has its status script, the loop that makes the
    commands returns one command for each sample, in the order of the
    samples: it goes to the work directory and runs the script there on
    the path of the sample, adding output and errors to the log file.
    The loop changes nothing. *)
Theorem find_commands_commands (e : env) (fproc : list string) (w : world) :
  (forall f, In f fproc -> Dict.mem (status_script f) (fs w) = true) ->
  find_commands e fproc w = (Ok (map (status_command e) fproc), w).
Proof.
  intros Hall. rewrite find_commands_run.
  destruct (first_without_script fproc w) as [f|] eqn:Hfind; [|reflexivity].
  apply find_some in Hfind. destruct Hfind as [Hin Hmiss].
  rewrite (Hall f Hin) in Hmiss. discriminate.
Qed.

Lemma find_commands_commands_witness :
  let e := Sample.env_of Sample.crossed Sample.always_fails in
  (Dict.mem (status_script "/sim/a/crab_logs/crab_z") (fs Sample.start) = true
   /\ Dict.mem (status_script "/sim/b/crab_logs/crab_y") (fs Sample.start)
      = true)
  /\ find_commands e Sample.crossed Sample.start
     = (Ok ["cd /sim/a; bash crab_status.sh /sim/a/crab_logs/crab_z >> /code/monitor_tmp_log.txt 2>&1";
            "cd /sim/b; bash crab_status.sh /sim/b/crab_logs/crab_y >> /code/monitor_tmp_log.txt 2>&1"],
        Sample.start).
Proof.
  cbv zeta. split; [split; reflexivity|].
  rewrite (find_commands_commands
             (Sample.env_of Sample.crossed Sample.always_fails)
             Sample.crossed Sample.start).
  - reflexivity.
  - intros f [<-|[<-|[]]]; reflexivity.
Defined.

(** X5. When the status script of some sample is missing, the part of
    the run that follows the start raises for the first such sample
    before any sample is initialised or polled: it leaves everything as
    it was. *)
Theorem gather_without_status_script (e : env) (fproc : list string)
  (w : world) (f : string) :
  first_without_script fproc w = Some f ->
  gather e fproc w = (Raise (Exception (missing_script_msg f)), w).
Proof.
  intros Hfind. unfold gather, bind. now rewrite find_commands_run, Hfind.
Qed.

Lemma gather_without_status_script_witness :
  let e := Sample.env_of ["/sim/c/crab_logs/crab_x"] Sample.always_fails in
  first_without_script ["/sim/c/crab_logs/crab_x"] Sample.start
  = Some "/sim/c/crab_logs/crab_x"
  /\ gather e ["/sim/c/crab_logs/crab_x"] Sample.start
     = (Raise (Exception "Could not find crab_status.sh script at location /sim/c/crab_status.shfor sample /sim/c/crab_logs/crab_x."),
        Sample.start).
Proof.
  cbv zeta. split; [reflexivity|].
  exact (gather_without_status_script
           (Sample.env_of ["/sim/c/crab_logs/crab_x"] Sample.always_fails)
           ["/sim/c/crab_logs/crab_x"] Sample.start
           "/sim/c/crab_logs/crab_x" eq_refl).
Defined.

Lemma sorted_length (l : list string) : List.length (sorted l) = List.length l.
Proof.
  apply Permutation_length, sorted_by_perm.
Qed.

(** X6. In test mode the run polls the first three of the sorted sample
    paths, or all of them when there are fewer. *)
Theorem test_mode_first_three (e : env) :
  test (argv e) = true ->
  selected e = firstn 3 (sorted (glob_crab_logs e))
  /\ List.length (selected e) = Nat.min 3 (List.length (glob_crab_logs e)).
Proof.
  intros Htest. unfold selected. rewrite Htest.
  assert (Hfirst : forall (l : list string),
             firstn (Nat.min 3 (List.length l)) l = firstn 3 l).
  { intros l. destruct (Nat.le_ge_cases 3 (List.length l)) as [H|H].
    - now rewrite Nat.min_l.
    - rewrite Nat.min_r by exact H.
      now rewrite !firstn_all2 by lia. }
  rewrite Hfirst. split; [reflexivity|].
  now rewrite length_firstn, sorted_length.
Qed.

Lemma test_mode_first_three_witness :
  let e := Sample.env_with Sample.testing Sample.four Sample.always_fails in
  test (argv e) = true
  /\ selected e = ["/sim/a/crab_logs/crab_1"; "/sim/a/crab_logs/crab_2";
                   "/sim/a/crab_logs/crab_3"]
  /\ List.length (selected e) = 3.
Proof.
  cbv zeta. split; [reflexivity|].
  destruct (test_mode_first_three
              (Sample.env_with Sample.testing Sample.four
                               Sample.always_fails) eq_refl)
    as [Hsel Hlen].
  split; [rewrite Hsel; reflexivity|rewrite Hlen; reflexivity].
Defined.

(** *** Computations that leave files and commands alone *)

Lemma quiet_ret {A : Type} (a : A) : quiet (ret a).
Proof. now intros w. Qed.

Lemma quiet_raise {A : Type} (e : exn) : quiet (@raise A e).
Proof. now intros w. Qed.

Lemma quiet_lift {A : Type} (r : result A) : quiet (lift r).
Proof. now intros w. Qed.

Lemma quiet_bind {A B : Type} (m : M A) (k : A -> M B) :
  quiet m -> (forall a, quiet (k a)) -> quiet (bind m k).
Proof.
  intros Hm Hk w. unfold bind. specialize (Hm w).
  destruct (m w) as [[a|e] w']; cbn [snd] in *; [|exact Hm].
  destruct (Hk a w') as [Hfs Hcmd]. destruct Hm as [Hfs' Hcmd'].
  split; congruence.
Qed.

Lemma quiet_when (b : bool) (m : M unit) : quiet m -> quiet (when b m).
Proof. destruct b; [trivial|intros _; apply quiet_ret]. Qed.

Lemma quiet_print (s : string) : quiet (print s).
Proof. now intros w. Qed.

Lemma quiet_print_data (d : data) : quiet (print_data d).
Proof. now intros w. Qed.

Lemma quiet_get_data : quiet get_data.
Proof. now intros w. Qed.

Lemma quiet_set_data (d : data) : quiet (set_data d).
Proof. now intros w. Qed.

Lemma quiet_update_samples (change : dict sample -> result (dict sample)) :
  quiet (update_samples change).
Proof.
  intros w. unfold update_samples.
  destruct (d_samples (var_data w)) as [samples|]; [|now split].
  destruct (change samples); now split.
Qed.

Lemma quiet_exists (p : string) : quiet (Os.exists_ p).
Proof. now intros w. Qed.

Lemma quiet_isdir (p : string) : quiet (Os.isdir p).
Proof. now intros w. Qed.

Lemma quiet_isfile (p : string) : quiet (Os.isfile p).
Proof. now intros w. Qed.

Lemma quiet_read (p : string) : quiet (Os.read p).
Proof.
  intros w. unfold Os.read. now destruct (Dict.get p (fs w)) as [[|c]|].
Qed.

#[export] Hint Resolve quiet_ret quiet_raise quiet_lift quiet_when quiet_print
  quiet_print_data quiet_get_data quiet_set_data quiet_update_samples
  quiet_exists quiet_isdir quiet_isfile quiet_read : run.

Ltac quiet_step :=
  match goal with
  | |- quiet (bind _ _) => apply quiet_bind; [|intros ?]
  | |- quiet (when _ _) => apply quiet_when
  | |- quiet (if ?b then _ else _) => destruct b
  | |- quiet (match ?x with _ => _ end) => destruct x
  | |- quiet _ => solve [auto with run]
  end.

Ltac quiet := repeat quiet_step.

Lemma quiet_parse_statuses (name : string) (words : list string) :
  forall (statuses : list string) (jobsfailed : bool),
    quiet (parse_statuses name words statuses jobsfailed).
Proof.
  induction statuses as [|status rest IH]; intros jobsfailed;
    cbn [parse_statuses]; quiet.
Qed.

Lemma quiet_parse_line (name line : string) (jobsfailed : bool) :
  quiet (parse_line name line jobsfailed).
Proof.
  unfold parse_line. pose proof quiet_parse_statuses. quiet.
Qed.

Lemma quiet_parse_lines (name : string) :
  forall (outlines : list string) (line : option string) (jobsfailed : bool),
    quiet (parse_lines name outlines line jobsfailed).
Proof.
  induction outlines as [|l rest IH]; intros line jobsfailed;
    cbn [parse_lines]; pose proof quiet_parse_line; quiet.
Qed.

Lemma quiet_check_completed (f : string) (line : option string) :
  quiet (check_completed f line).
Proof. unfold check_completed. quiet. Qed.

Lemma quiet_initialize (fproc : list string) : quiet (initialize fproc).
Proof.
  induction fproc as [|f rest IH]; cbn [initialize]; quiet.
Qed.

Lemma quiet_skip_sample (f : string) (line : option string) :
  quiet (skip_sample f line).
Proof. unfold skip_sample. quiet. Qed.

Lemma quiet_find_commands (e : env) (fproc : list string) :
  quiet (find_commands e fproc).
Proof.
  intros w. now rewrite find_commands_run.
Qed.

#[export] Hint Resolve quiet_parse_statuses quiet_parse_line quiet_parse_lines
  quiet_check_completed quiet_initialize quiet_skip_sample
  quiet_find_commands : run.

(** *** The files that a run touches *)

Lemma get_remove_ne {V : Type} (k k' : string) (d : dict V) :
  k <> k' -> Dict.get k' (Dict.remove k d) = Dict.get k' d.
Proof.
  intros Hne. induction d as [|[k0 v0] d IH]; [reflexivity|].
  cbn [Dict.remove Dict.get].
  destruct (String.eqb k k0) eqn:Hk.
  - apply String.eqb_eq in Hk. subst k0.
    destruct (String.eqb k' k) eqn:Hk'; [|exact IH].
    apply String.eqb_eq in Hk'. now contradiction Hne.
  - cbn [Dict.get]. now rewrite IH.
Qed.

Lemma touches_quiet {A : Type} (paths : list string) (m : M A) :
  quiet m -> touches_only paths m.
Proof.
  intros Hq w p _. now rewrite (proj1 (Hq w)).
Qed.

Lemma touches_bind {A B : Type} (paths : list string) (m : M A)
  (k : A -> M B) :
  touches_only paths m -> (forall a, touches_only paths (k a)) ->
  touches_only paths (bind m k).
Proof.
  intros Hm Hk w p Hp. unfold bind. specialize (Hm w p Hp).
  destruct (m w) as [[a|e] w']; cbn [snd] in *; [|exact Hm].
  now rewrite (Hk a w' p Hp).
Qed.

Lemma touches_when (paths : list string) (b : bool) (m : M unit) :
  touches_only paths m -> touches_only paths (when b m).
Proof.
  destruct b; [trivial|]. intros _. apply touches_quiet, quiet_ret.
Qed.

Lemma touches_system (paths : list string) (cmd : string) (eff : Os.effect) :
  match eff with
  | Os.NoEffect => True
  | Os.Remove p | Os.Append p _ => In p paths
  end ->
  touches_only paths (Os.system cmd eff).
Proof.
  intros Heff w p Hp. unfold Os.system. cbn [snd fs with_commands with_fs].
  destruct eff as [|p0|p0 out]; [reflexivity| |].
  - destruct (Dict.get p0 (fs w)) as [[|c]|]; try reflexivity.
    apply get_remove_ne. intros ->. now apply Hp.
  - assert (Hne : p0 <> p) by (intros ->; now apply Hp).
    destruct (Dict.get p0 (fs w)) as [[|c]|]; try reflexivity;
      now apply get_set_ne.
Qed.

Lemma touches_run_script (paths : list string) (e : env) (cmd : string) :
  In (tmpfile e) paths -> touches_only paths (run_script e cmd).
Proof.
  intros Hin w. unfold run_script. now apply touches_system.
Qed.

Lemma touches_rm_tmpfile (paths : list string) (e : env) :
  In (tmpfile e) paths -> touches_only paths (rm_tmpfile e).
Proof.
  intros Hin. unfold rm_tmpfile. now apply touches_system.
Qed.

Lemma with_fs_same (w : world) : with_fs (fs w) w = w.
Proof. now destruct w. Qed.

Lemma makedirs_name (p : string) (w : world) :
  plain_name p ->
  Os.makedirs p w
  = if Dict.mem p (fs w) then (Raise (FileExistsError p), w)
    else (Ok tt, with_fs (Dict.set p Dir (fs w)) w).
Proof.
  intros (Hne & Hroot & Hsplit).
  assert (Hempty : Str.is_empty p = false)
    by (destruct p; [congruence|reflexivity]).
  assert (Hmk : Os.mkdir p (fs w)
                = if Dict.mem p (fs w)
                  then (Raise (FileExistsError p), fs w)
                  else (Ok tt, Dict.set p Dir (fs w))).
  { unfold Os.mkdir, Os.parent. rewrite Hempty, Hroot, Hsplit, Hempty.
    cbn [orb Str.is_empty]. now destruct (Dict.mem p (fs w)). }
  assert (Hfrom : forall fuel,
             Os.makedirs_from fuel p (fs w) = Os.mkdir p (fs w)).
  { intros [|fuel]; cbn [Os.makedirs_from]; rewrite Hsplit, Hempty;
      reflexivity. }
  unfold Os.makedirs. rewrite Hfrom, Hmk.
  destruct (Dict.mem p (fs w)); [now rewrite with_fs_same|reflexivity].
Qed.

Lemma plain_name_directory : plain_name "monitor_crab_jobs".
Proof.
  split; [discriminate|]. split; reflexivity.
Qed.

Lemma touches_makedirs (paths : list string) (p : string) :
  plain_name p -> In p paths -> touches_only paths (Os.makedirs p).
Proof.
  intros Hname Hin w p' Hp'. rewrite (makedirs_name _ _ Hname).
  destruct (Dict.mem p (fs w)); [reflexivity|].
  cbn [snd fs with_fs]. apply get_set_ne. intros ->. now apply Hp'.
Qed.

Lemma touches_write (paths : list string) (d name text : string) :
  In (Os.join d name) paths -> touches_only paths (Os.write d name text).
Proof.
  intros Hin w p Hp. unfold Os.write. cbv zeta.
  destruct (Dict.get d (fs w)) as [[|c]|]; try reflexivity.
  destruct (Dict.get (Os.join d name) (fs w)) as [[|c]|]; try reflexivity;
    cbn [snd fs with_fs]; apply get_set_ne; intros Heq; apply Hp;
    now rewrite <- Heq.
Qed.

Ltac touches_step :=
  match goal with
  | |- touches_only _ (bind _ _) => apply touches_bind; [|intros ?]
  | |- touches_only _ (when _ _) => apply touches_when
  | |- touches_only _ (run_script _ _) => apply touches_run_script
  | |- touches_only _ (rm_tmpfile _) => apply touches_rm_tmpfile
  | |- touches_only _ (Os.makedirs _) =>
      apply touches_makedirs; [assumption|]
  | |- touches_only _ (Os.write _ _ _) => apply touches_write
  | |- touches_only _ (Os.system _ Os.NoEffect) =>
      apply touches_system; exact Logic.I
  | |- touches_only _ (if ?b then _ else _) => destruct b
  | |- touches_only _ (match ?x with _ => _ end) => destruct x
  | |- touches_only _ _ =>
      solve [auto | apply touches_quiet; auto with run]
  | |- In _ _ => solve [auto with datatypes]
  end.

Ltac touches := repeat touches_step.

Section Touches.

Variable e : env.
Variable paths : list string.
Hypothesis log_listed : In (tmpfile e) paths.

Lemma touches_status_attempts (status_cmd : string) (remaining : nat) :
  touches_only paths (status_attempts e status_cmd remaining).
Proof.
  induction remaining as [|remaining IH]; cbn [status_attempts]; touches.
Qed.

Lemma touches_process_sample (nfproc fidx : nat) (f status_cmd : string)
  (line : option string) :
  touches_only paths (process_sample e nfproc fidx f status_cmd line).
Proof.
  unfold process_sample, parse_sample, report_sample.
  pose proof touches_status_attempts. touches.
Qed.

Lemma touches_aggregate (nfproc : nat) :
  forall (todo : list (string * string)) (fidx : nat) (line : option string),
    touches_only paths (aggregate e nfproc fidx todo line).
Proof.
  induction todo as [|[f status_cmd] rest IH]; intros fidx line;
    cbn [aggregate]; pose proof touches_process_sample; touches.
Qed.

Lemma touches_gather (fproc : list string) :
  touches_only paths (gather e fproc).
Proof.
  unfold gather. pose proof touches_aggregate. touches.
Qed.

Lemma touches_startup : touches_only paths (startup e).
Proof.
  unfold startup. touches.
Qed.

Lemma touches_aggregation : touches_only paths (aggregation e).
Proof.
  unfold aggregation. pose proof touches_startup. pose proof touches_gather.
  touches.
Qed.

End Touches.

Lemma touches_web (now : datetime) (data : data) (webpath : string)
  (force : bool) :
  plain_name webpath ->
  touches_only [webpath; Os.join webpath "index.html"]
               (web now data webpath force).
Proof.
  intros Hname. unfold web. touches.
Qed.

Lemma touches_more {A : Type} (paths paths' : list string) (m : M A) :
  incl paths paths' -> touches_only paths m -> touches_only paths' m.
Proof.
  intros Hincl Hm w p Hp. apply Hm. intros Hin. now apply Hp, Hincl.
Qed.

Lemma touches_publish (e : env) (paths : list string) :
  In "monitor_crab_jobs" paths -> In "monitor_crab_jobs/index.html" paths ->
  touches_only paths (publish e).
Proof.
  intros Hdir Hpage. unfold publish.
  repeat (apply touches_bind; [solve [apply touches_quiet; auto with run]|];
          intros ?).
  apply touches_bind; [|intros _; apply touches_quiet; quiet].
  eapply touches_more; [|apply touches_web, plain_name_directory].
  intros x [<-|[<-|[]]]; assumption.
Qed.

(** X7. In a run whose paths the shell takes as they stand, the status
    command of every sample is the words
    [cd W; bash crab_status.sh F >> T 2>&1], whose output goes to the
    log file [T]; and the program changes no file but the log file, the
    directory of the page and the page. What the scripts do besides
    printing is not part of the run. *)
Theorem main_touches_only (e : env) (w : world) :
  plain_run e = true ->
  (forall f,
     In f (selected e) ->
     Str.split_ws (status_command e f)
     = ["cd"; workdir f ++ ";"; "bash"; "crab_status.sh"; f; ">>"; tmpfile e;
        "2>&1"])
  /\ (forall p,
        p <> tmpfile e -> p <> "monitor_crab_jobs" ->
        p <> "monitor_crab_jobs/index.html" ->
        Dict.get p (fs (snd (main e w))) = Dict.get p (fs w)).
Proof.
  unfold plain_run. intros Hplain.
  apply andb_true_iff in Hplain as [Hplain _].
  apply andb_true_iff in Hplain as [Hplain _].
  apply andb_true_iff in Hplain as [Hlog Hsamples].
  split.
  - intros f Hf. apply status_command_words; [exact Hlog|].
    now apply (proj1 (forallb_forall _ _) Hsamples).
  - intros p Hp Hdir Hpage.
    assert (Hmain : touches_only [tmpfile e; "monitor_crab_jobs";
                                  "monitor_crab_jobs/index.html"] (main e)).
    { unfold main. apply touches_bind; [|intros _].
      - apply touches_aggregation. auto with datatypes.
      - apply touches_publish; auto with datatypes. }
    apply Hmain. intros [<-|[<-|[<-|[]]]]; congruence.
Qed.

Lemma main_touches_only_witness :
  let e := Sample.env_with Sample.resubmitting ["/sim/a/crab_logs/crab_s1"]
                           (fun _ => Sample.completed_output) in
  plain_run e = true
  /\ Str.split_ws (status_command e "/sim/a/crab_logs/crab_s1")
     = ["cd"; "/sim/a;"; "bash"; "crab_status.sh"; "/sim/a/crab_logs/crab_s1";
        ">>"; "/code/monitor_tmp_log.txt"; "2>&1"]
  /\ Dict.get "/sim/a/crab_status.sh" (fs (snd (main e Sample.start)))
     = Some (File EmptyString).
Proof.
  cbv zeta.
  assert (H0 : plain_run (Sample.env_with Sample.resubmitting
                            ["/sim/a/crab_logs/crab_s1"]
                            (fun _ => Sample.completed_output)) = true)
    by (vm_compute; reflexivity).
  split; [exact H0|].
  destruct (main_touches_only
              (Sample.env_with Sample.resubmitting
                 ["/sim/a/crab_logs/crab_s1"]
                 (fun _ => Sample.completed_output))
              Sample.start H0) as [Hwords Hfiles].
  split.
  - rewrite Hwords; [reflexivity|]. now left.
  - rewrite Hfiles; [reflexivity| | |]; discriminate.
Defined.

(** *** The writing of the page *)

Lemma length_append (a b : string) :
  String.length (a ++ b) = String.length a + String.length b.
Proof.
  induction a as [|c a IH]; cbn; [reflexivity|now rewrite IH].
Qed.

Lemma index_html_ne (webpath : string) : index_html webpath <> webpath.
Proof.
  intros H. apply (f_equal String.length) in H.
  unfold index_html, Os.join in H. cbn [Str.startswith String.prefix] in H.
  cbn in H.
  destruct (Str.is_empty webpath || Str.endswith webpath "/");
    rewrite !length_append in H; cbn in H; lia.
Qed.

Lemma index_html_longer (webpath : string) :
  String.length webpath < String.length (index_html webpath).
Proof.
  unfold index_html, Os.join. cbn [Str.startswith String.prefix]. cbn.
  destruct (Str.is_empty webpath || Str.endswith webpath "/");
    rewrite !length_append; cbn; lia.
Qed.

Lemma web_run (now : datetime) (data : data) (webpath : string)
  (force : bool) (w : world) :
  plain_name webpath ->
  web now data webpath force w
  = match web_page now data force with
    | Ok page => Os.write webpath "index.html" page (with_directory webpath w)
    | Raise x => (Raise x, with_directory webpath w)
    end.
Proof.
  intros Hname. unfold web, bind, Os.exists_, with_directory, lift.
  destruct (Dict.mem webpath (fs w)) eqn:Hmem; cbn [negb when ret].
  - now destruct (web_page now data force).
  - rewrite (makedirs_name _ _ Hname), Hmem.
    now destruct (web_page now data force).
Qed.

Lemma with_directory_get (webpath p : string) (w : world) :
  p <> webpath ->
  Dict.get p (fs (with_directory webpath w)) = Dict.get p (fs w).
Proof.
  intros Hne. unfold with_directory.
  destruct (Dict.mem webpath (fs w)); [reflexivity|].
  cbn [fs with_fs]. apply get_set_ne. congruence.
Qed.

Lemma with_directory_dir (webpath : string) (w : world) :
  Dict.get webpath (fs (with_directory webpath w))
  = match Dict.get webpath (fs w) with
    | Some node => Some node
    | None => Some Dir
    end.
Proof.
  unfold with_directory, Dict.mem.
  destruct (Dict.get webpath (fs w)) as [node|] eqn:Hget; [exact Hget|].
  cbn [fs with_fs]. apply get_set_eq.
Qed.

(** X8. When [web] returns, the page has been rendered, the directory is
    there, and the page in it holds the text rendered, whatever it held
    before. *)
Theorem web_return_writes_page (now : datetime) (data : data)
  (webpath : string) (force : bool) (w : world) :
  let r := web now data webpath force w in
  fst r = Ok tt ->
  exists page,
    web_page now data force = Ok page
    /\ Dict.get webpath (fs (snd r)) = Some Dir
    /\ Dict.get (index_html webpath) (fs (snd r)) = Some (File page).
Proof.
  cbv zeta. unfold web, bind, Os.exists_, lift.
  set (m := when (negb (Dict.mem webpath (fs w))) (Os.makedirs webpath) w).
  destruct m as [[[]|x] w1]; [|discriminate].
  destruct (web_page now data force) as [page|x]; [|discriminate].
  intros Hwrite. exists page. split; [reflexivity|].
  revert Hwrite. unfold Os.write. cbv zeta. fold (index_html webpath).
  destruct (Dict.get webpath (fs w1)) as [[|c]|] eqn:Hdir; try discriminate.
  assert (Hset : Dict.get webpath
                   (Dict.set (index_html webpath) (File page) (fs w1))
                 = Some Dir)
    by (rewrite get_set_ne by apply index_html_ne; exact Hdir).
  destruct (Dict.get (index_html webpath) (fs w1)) as [[|c]|];
    try discriminate; intros _; cbn [snd fs with_fs];
    (split; [exact Hset|apply get_set_eq]).
Qed.

Lemma web_return_writes_page_witness :
  let r := web Sample.now Sample.irretrievable "monitor_crab_jobs" false
               Sample.published_before in
  fst r = Ok tt
  /\ Dict.get "monitor_crab_jobs/index.html" (fs Sample.published_before)
     = Some (File "<html>73%</html>")
  /\ exists page,
       web_page Sample.now Sample.irretrievable false = Ok page
       /\ Dict.get "monitor_crab_jobs" (fs (snd r)) = Some Dir
       /\ Dict.get "monitor_crab_jobs/index.html" (fs (snd r))
          = Some (File page).
Proof.
  cbv zeta.
  assert (H : fst (web Sample.now Sample.irretrievable "monitor_crab_jobs"
                       false Sample.published_before)
              = Ok tt)
    by (vm_compute; reflexivity).
  split; [exact H|]. split; [reflexivity|].
  exact (web_return_writes_page Sample.now Sample.irretrievable
           "monitor_crab_jobs" false Sample.published_before H).
Defined.

(** *** The directories that [makedirs] adds *)

Lemma rstrip_length (chars s : string) :
  String.length (Str.rstrip chars s) <= String.length s.
Proof.
  induction s as [|c t IH]; cbn [Str.rstrip]; [reflexivity|].
  destruct (Str.is_empty (Str.rstrip chars t) && Str.mem_char c chars);
    cbn [String.length]; lia.
Qed.

Lemma prefix_length (n : nat) :
  forall s, String.length (String.substring 0 n s) <= String.length s.
Proof.
  induction n as [|n IH]; intros [|c t]; cbn [String.substring String.length];
    try lia.
  specialize (IH t). lia.
Qed.

Lemma split_head_length (p : string) :
  String.length (fst (Os.split p)) <= String.length p.
Proof.
  unfold Os.split. cbv zeta. cbn [fst].
  set (head := String.substring 0 _ p).
  assert (Hhead : String.length head <= String.length p)
    by apply prefix_length.
  pose proof (rstrip_length "/" head).
  destruct (Os.is_root head); lia.
Qed.

Lemma dirs_added_refl (bound : nat) (files : dict node) :
  dirs_added bound files files.
Proof. intros k. now left. Qed.

Lemma dirs_added_trans (b1 b2 bound : nat) (f1 f2 f3 : dict node) :
  b1 <= bound -> b2 <= bound ->
  dirs_added b1 f1 f2 -> dirs_added b2 f2 f3 -> dirs_added bound f1 f3.
Proof.
  intros H1 H2 H12 H23 k.
  destruct (H23 k) as [E|(N & D & L)], (H12 k) as [E'|(N' & D' & L')].
  - left. congruence.
  - right. rewrite E. repeat split; try assumption. lia.
  - right. rewrite <- E'. repeat split; try assumption. lia.
  - congruence.
Qed.

Lemma mkdir_adds (p : string) (files : dict node) :
  dirs_added (String.length p) files (snd (Os.mkdir p files)).
Proof.
  assert (Hset : Dict.mem p files = false ->
                 dirs_added (String.length p) files (Dict.set p Dir files)).
  { intros Hmem k. destruct (String.eqb_spec p k) as [<-|Hne].
    - right. rewrite get_set_eq. unfold Dict.mem in Hmem.
      destruct (Dict.get p files); [discriminate|]. now repeat split.
    - left. now apply get_set_ne. }
  unfold Os.mkdir.
  destruct (Str.is_empty p); [apply dirs_added_refl|].
  destruct (Os.is_root p); cbn [orb]; [apply dirs_added_refl|].
  destruct (Dict.mem p files); [apply dirs_added_refl|].
  destruct (Str.is_empty (Os.parent p) || Os.is_root (Os.parent p));
    [now apply Hset|].
  destruct (Dict.get (Os.parent p) files) as [[|c]|];
    [now apply Hset|apply dirs_added_refl|apply dirs_added_refl].
Qed.

Lemma makedirs_from_adds :
  forall (fuel : nat) (name : string) (files : dict node),
    dirs_added (String.length name) files
               (snd (Os.makedirs_from fuel name files)).
Proof.
  induction fuel as [|fuel IH]; intros name files; cbn [Os.makedirs_from];
    pose proof (split_head_length name) as Hhead;
    destruct (Os.split name) as [head tail]; cbn [fst] in Hhead;
    pose proof (split_head_length head) as Hhead';
    destruct (Os.split head) as [head' tail']; cbn [fst] in Hhead';
    [destruct (Str.is_empty tail); apply mkdir_adds|].
  assert (Hstep : forall h t,
             String.length h <= String.length name ->
             dirs_added (String.length name) files
               (snd (if negb (Str.is_empty h) && negb (Str.is_empty t)
                        && negb (Dict.mem h files)
                     then
                       let (made, files') := Os.makedirs_from fuel h files in
                       let go_on :=
                         if String.eqb t "." then (Ok tt, files')
                         else Os.mkdir name files' in
                       match made with
                       | Ok _ => go_on
                       | Raise (FileExistsError _) => go_on
                       | Raise x => (Raise x, files')
                       end
                     else Os.mkdir name files))).
  { intros h t Hh.
    destruct (negb (Str.is_empty h) && negb (Str.is_empty t)
              && negb (Dict.mem h files)); [|apply mkdir_adds].
    specialize (IH h files).
    destruct (Os.makedirs_from fuel h files) as [made files'].
    cbn [snd] in IH.
    assert (Hmade : dirs_added (String.length name) files files')
      by (apply (dirs_added_trans _ 0 _ _ _ _ Hh (Nat.le_0_l _) IH),
            dirs_added_refl).
    assert (Hgo : dirs_added (String.length name) files
                    (snd (if String.eqb t "." then (Ok tt, files')
                          else Os.mkdir name files'))).
    { destruct (String.eqb t "."); [exact Hmade|].
      apply (dirs_added_trans _ _ _ _ _ _ Hh (Nat.le_refl _) IH),
        mkdir_adds. }
    destruct made as [[]|x]; [exact Hgo|].
    destruct x; try exact Hmade. exact Hgo. }
  destruct (Str.is_empty tail); apply Hstep; lia.
Qed.

Lemma makedirs_adds (p : string) (w : world) :
  dirs_added (String.length p) (fs w) (fs (snd (Os.makedirs p w))).
Proof.
  unfold Os.makedirs.
  pose proof (makedirs_from_adds (String.length p) p (fs w)) as H.
  now destruct (Os.makedirs_from (String.length p) p (fs w)).
Qed.

Lemma web_raises_adds (now : datetime) (data : data) (webpath : string)
  (force : bool) (w : world) (x : exn) :
  fst (web now data webpath force w) = Raise x ->
  dirs_added (String.length webpath) (fs w)
             (fs (snd (web now data webpath force w))).
Proof.
  unfold web, bind, Os.exists_, lift.
  assert (Hmake : dirs_added (String.length webpath) (fs w)
                    (fs (snd (when (negb (Dict.mem webpath (fs w)))
                                   (Os.makedirs webpath) w)))).
  { destruct (Dict.mem webpath (fs w)); cbn [negb when];
      [apply dirs_added_refl|apply makedirs_adds]. }
  destruct (when (negb (Dict.mem webpath (fs w))) (Os.makedirs webpath) w)
    as [[[]|x1] w1]; cbn [snd] in Hmake; [|intros _; exact Hmake].
  destruct (web_page now data force) as [page|x2]; [|intros _; exact Hmake].
  unfold Os.write. cbv zeta.
  destruct (Dict.get webpath (fs w1)) as [[|c]|];
    try (intros _; exact Hmake).
  destruct (Dict.get (Os.join webpath "index.html") (fs w1)) as [[|c]|];
    try discriminate.
  intros _. exact Hmake.
Qed.

Lemma web_raises_keeps_page (now : datetime) (data : data) (webpath : string)
  (force : bool) (w : world) (x : exn) :
  fst (web now data webpath force w) = Raise x ->
  Dict.get (index_html webpath) (fs (snd (web now data webpath force w)))
  = Dict.get (index_html webpath) (fs w).
Proof.
  intros Hraise.
  destruct (web_raises_adds _ _ _ _ _ _ Hraise (index_html webpath))
    as [Hsame|(_ & _ & Hlen)]; [exact Hsame|].
  pose proof (index_html_longer webpath). lia.
Qed.

Lemma web_raises_cases (now : datetime) (data : data) (webpath : string)
  (force : bool) (w : world) (x : exn) :
  plain_name webpath ->
  fst (web now data webpath force w) = Raise x ->
  web_page now data force = Raise x
  \/ (x = NotADirectoryError (index_html webpath)
      /\ exists c, Dict.get webpath (fs w) = Some (File c))
  \/ (x = IsADirectoryError (index_html webpath)
      /\ Dict.get (index_html webpath) (fs w) = Some Dir).
Proof.
  intros Hname. rewrite (web_run _ _ _ _ _ Hname).
  destruct (web_page now data force) as [page|x'];
    [|cbn [fst]; intros [= ->]; now left].
  intros Hraise. right. revert Hraise.
  unfold Os.write. cbv zeta. fold (index_html webpath).
  rewrite with_directory_dir, (with_directory_get _ _ _ (index_html_ne _)).
  destruct (Dict.get webpath (fs w)) as [[|c]|] eqn:Hget.
  - destruct (Dict.get (index_html webpath) (fs w)) as [[|c]|];
      cbn [fst]; intros [= <-]. now right.
  - cbn [fst]. intros [= <-]. left. split; [reflexivity|now exists c].
  - destruct (Dict.get (index_html webpath) (fs w)) as [[|c]|];
      cbn [fst]; intros [= <-]. now right.
Qed.



(** *** The page through a run *)

Lemma publish_run (e : env) (w : world) :
  publish e w
  = match web (clock e) (var_data w) "monitor_crab_jobs" false
              (with_stdout (stdout w ++ before_web w)%list w) with
    | (Ok _, w') => (Ok tt, with_stdout (stdout w' ++ after_web e)%list w')
    | (Raise x, w') => (Raise x, w')
    end.
Proof.
  unfold publish, bind at 1 2 3 4 5, print at 1 2, get_data, print_data.
  cbn [fst snd var_data with_stdout stdout].
  replace (with_stdout _ (with_stdout _ (with_stdout _ w)))
    with (with_stdout (stdout w ++ before_web w)%list w)
    by (unfold with_stdout, before_web; cbn; now rewrite <- !app_assoc).
  destruct (web _ _ _ _ _) as [[[]|x] w']; [|reflexivity].
  unfold bind, print, after_web. cbn.
  unfold with_stdout. cbn. now rewrite <- !app_assoc.
Qed.

Lemma tmpfile_ne_directory (e : env) : tmpfile e <> "monitor_crab_jobs".
Proof.
  intros H. apply (f_equal String.length) in H.
  unfold tmpfile, Os.join in H. cbn [Str.startswith String.prefix] in H.
  cbn in H.
  destruct (Str.is_empty (thisdir e) || Str.endswith (thisdir e) "/");
    rewrite !length_append in H; cbn in H; lia.
Qed.

Lemma tmpfile_ne_page (e : env) : tmpfile e <> "monitor_crab_jobs/index.html".
Proof.
  intros H. assert (L := f_equal String.length H).
  unfold tmpfile, Os.join in H, L. cbn [Str.startswith String.prefix] in H, L.
  cbn in H, L.
  destruct (Str.is_empty (thisdir e) || Str.endswith (thisdir e) "/");
    rewrite !length_append in L; cbn in L;
    destruct (thisdir e) as [|c1 [|c2 [|c3 [|c4 [|c5 [|c6 [|c7 [|c8
                             [|c9 [|c10 d]]]]]]]]]];
    cbn in L; try lia; cbn in H; discriminate H.
Qed.



(** X11. When a run returns, the page holds the rendering of the data
    that the run has ended with, in the directory of the page, and the
    last messages are those that follow the call of [web], up to
    [Done.]. *)
Theorem main_publishes (e : env) (w : world) :
  fst (main e w) = Ok tt ->
  let w' := snd (main e w) in
  exists page,
    web_page (clock e) (var_data w') false = Ok page
    /\ Dict.get "monitor_crab_jobs/index.html" (fs w') = Some (File page)
    /\ Dict.get "monitor_crab_jobs" (fs w') = Some Dir
    /\ exists out, stdout w' = (out ++ after_web e)%list.
Proof.
  unfold main, bind.
  destruct (aggregation e w) as [[[]|x'] w1]; cbn [fst snd];
    [|discriminate].
  rewrite publish_run.
  set (w2 := with_stdout (stdout w1 ++ before_web w1)%list w1).
  pose proof (web_run (clock e) (var_data w1) "monitor_crab_jobs" false w2
                plain_name_directory) as Hrun.
  pose proof (proj1 (keeps_web (clock e) (var_data w1) "monitor_crab_jobs"
                       false w2)) as Hdata.
  destruct (web _ _ _ _ w2) as [[[]|x'] w3] eqn:Hweb; cbn [fst snd] in *;
    [|discriminate].
  intros _.
  destruct (web_page (clock e) (var_data w1) false) as [page|x'] eqn:Hpage;
    [|discriminate].
  exists page. cbn [var_data with_stdout fs stdout].
  rewrite Hdata. split; [exact Hpage|].
  revert Hrun. unfold Os.write. cbv zeta.
  change (Os.join "monitor_crab_jobs" "index.html")
    with (index_html "monitor_crab_jobs").
  destruct (Dict.get "monitor_crab_jobs" (fs (with_directory _ w2)))
    as [[|c]|] eqn:Hdir; try discriminate.
  assert (Hset : forall w4,
             w3 = with_fs (Dict.set (index_html "monitor_crab_jobs")
                             (File page) (fs (with_directory
                                                "monitor_crab_jobs" w2))) w4 ->
             Dict.get "monitor_crab_jobs/index.html" (fs w3)
             = Some (File page)
             /\ Dict.get "monitor_crab_jobs" (fs w3) = Some Dir).
  { intros w4 ->. cbn [fs with_fs]. split; [apply get_set_eq|].
    rewrite get_set_ne by apply index_html_ne. exact Hdir. }
  destruct (Dict.get (index_html "monitor_crab_jobs")
              (fs (with_directory _ w2))) as [[|c]|];
    try discriminate; intros [= Hw3];
    destruct (Hset _ Hw3) as [H1 H2];
    (split; [exact H1|]); (split; [exact H2|]); now eexists.
Qed.

Lemma main_publishes_witness :
  let e := Sample.env_of ["/sim/a/crab_logs/crab_s1"]
                         (fun _ => Sample.completed_output) in
  let w' := snd (main e Sample.republished) in
  fst (main e Sample.republished) = Ok tt
  /\ exists page,
       web_page (clock e) (var_data w') false = Ok page
       /\ Dict.get "monitor_crab_jobs/index.html" (fs w') = Some (File page)
       /\ Dict.get "monitor_crab_jobs" (fs w') = Some Dir
       /\ exists out, stdout w' = (out ++ after_web e)%list.
Proof.
  cbv zeta.
  assert (H : fst (main (Sample.env_of ["/sim/a/crab_logs/crab_s1"]
                                       (fun _ => Sample.completed_output))
                        Sample.republished)
              = Ok tt)
    by (vm_compute; reflexivity).
  split; [exact H|].
  exact (main_publishes _ _ H).
Defined.

(** *** The commands of a run *)

Lemma runs_quiet {A : Type} (P : string -> Prop) (m : M A) :
  quiet m -> runs_only P m.
Proof.
  intros Hq w. exists []. rewrite app_nil_r. split; [apply Hq|constructor].
Qed.

Lemma runs_bind {A B : Type} (P : string -> Prop) (m : M A) (k : A -> M B) :
  runs_only P m -> (forall a, runs_only P (k a)) -> runs_only P (bind m k).
Proof.
  intros Hm Hk w. unfold bind. specialize (Hm w).
  destruct (m w) as [[a|x] w']; cbn [snd] in *; [|exact Hm].
  destruct Hm as [more [Hcmd Hmore]].
  destruct (Hk a w') as [more' [Hcmd' Hmore']].
  exists (more ++ more')%list. split.
  - now rewrite Hcmd', Hcmd, app_assoc.
  - now apply Forall_app.
Qed.

Lemma runs_when (P : string -> Prop) (b : bool) (m : M unit) :
  runs_only P m -> runs_only P (when b m).
Proof.
  destruct b; [trivial|]. intros _. apply runs_quiet, quiet_ret.
Qed.

Lemma runs_system (P : string -> Prop) (cmd : string) (eff : Os.effect) :
  P cmd -> runs_only P (Os.system cmd eff).
Proof.
  intros Hcmd w. exists [cmd]. split; [reflexivity|now constructor].
Qed.

Lemma runs_run_script (P : string -> Prop) (e : env) (cmd : string) :
  P cmd -> runs_only P (run_script e cmd).
Proof.
  intros Hcmd w. exists [cmd]. split; [reflexivity|now constructor].
Qed.

Lemma runs_makedirs (P : string -> Prop) (p : string) :
  runs_only P (Os.makedirs p).
Proof.
  intros w. exists []. rewrite app_nil_r. split; [|constructor].
  unfold Os.makedirs.
  now destruct (Os.makedirs_from (String.length p) p (fs w)).
Qed.

Lemma runs_write (P : string -> Prop) (d name text : string) :
  runs_only P (Os.write d name text).
Proof.
  intros w. exists []. rewrite app_nil_r. split; [|constructor].
  unfold Os.write. cbv zeta.
  destruct (Dict.get d (fs w)) as [[|c]|]; try reflexivity.
  now destruct (Dict.get (Os.join d name) (fs w)) as [[|c]|].
Qed.

Ltac runs_step :=
  match goal with
  | |- runs_only _ (bind _ _) => apply runs_bind; [|intros ?]
  | |- runs_only _ (when _ _) => apply runs_when
  | |- runs_only _ (run_script _ _) => apply runs_run_script
  | |- runs_only _ (rm_tmpfile _) => apply runs_system
  | |- runs_only _ (Os.system _ _) => apply runs_system
  | |- runs_only _ (Os.makedirs _) => apply runs_makedirs
  | |- runs_only _ (Os.write _ _ _) => apply runs_write
  | |- runs_only _ (if ?b then _ else _) => destruct b
  | |- runs_only _ (match ?x with _ => _ end) => destruct x
  | |- runs_only _ _ => solve [auto | apply runs_quiet; auto with run]
  end.

Ltac runs := repeat runs_step.

Section Runs.

Variable e : env.
Variable P : string -> Prop.
Hypothesis removal_allowed : P ("rm " ++ tmpfile e).

Lemma runs_status_attempts (status_cmd : string) (remaining : nat) :
  P status_cmd -> runs_only P (status_attempts e status_cmd remaining).
Proof.
  intros Hcmd. induction remaining as [|remaining IH];
    cbn [status_attempts]; runs; assumption.
Qed.

Lemma runs_report_sample (f status_cmd : string) (line : option string)
  (jobsfailed : bool) :
  (resubmit (argv e) = true -> P (resubmit_command status_cmd)) ->
  runs_only P (report_sample e f status_cmd line jobsfailed).
Proof.
  intros Hres. unfold report_sample.
  apply runs_bind; [apply runs_quiet; auto with run|intros statuscompleted].
  apply runs_bind; [|intros _; apply runs_quiet; quiet].
  destruct (resubmit (argv e)).
  - apply runs_when. runs. now apply Hres.
  - rewrite andb_false_r. apply runs_quiet, quiet_ret.
Qed.

Lemma runs_process_sample (nfproc fidx : nat) (f status_cmd : string)
  (line : option string) :
  P status_cmd ->
  (resubmit (argv e) = true -> P (resubmit_command status_cmd)) ->
  runs_only P (process_sample e nfproc fidx f status_cmd line).
Proof.
  intros Hcmd Hres. unfold process_sample, parse_sample.
  pose proof (runs_status_attempts status_cmd 5 Hcmd).
  pose proof (fun line jobsfailed =>
                runs_report_sample f status_cmd line jobsfailed Hres).
  runs; assumption.
Qed.

Lemma runs_aggregate (nfproc : nat) :
  forall (todo : list (string * string)) (fidx : nat) (line : option string),
    Forall (fun fc => P (snd fc)
                      /\ (resubmit (argv e) = true ->
                          P (resubmit_command (snd fc)))) todo ->
    runs_only P (aggregate e nfproc fidx todo line).
Proof.
  induction todo as [|[f status_cmd] rest IH]; intros fidx line Hall;
    cbn [aggregate]; [apply runs_quiet, quiet_ret|].
  inversion Hall as [|fc l [Hcmd Hres] Hrest]; subst.
  apply runs_bind; [now apply runs_process_sample|].
  intros line'. now apply IH.
Qed.

Lemma runs_gather (fproc : list string) :
  (forall f, In f fproc ->
             P (status_command e f)
             /\ (resubmit (argv e) = true ->
                 P (resubmit_command (status_command e f)))) ->
  runs_only P (gather e fproc).
Proof.
  intros Hall w. unfold gather, bind at 1. rewrite find_commands_run.
  destruct (first_without_script fproc w) as [f|].
  - exists []. rewrite app_nil_r. split; [reflexivity|constructor].
  - revert w. fold (runs_only P (bind (initialize fproc)
       (fun _ => bind (aggregate e (List.length fproc) 0
                         (combine fproc (map (status_command e) fproc)) None)
                      (fun _ => ret tt)))).
    apply runs_bind; [apply runs_quiet; auto with run|intros _].
    apply runs_bind; [|intros _; apply runs_quiet, quiet_ret].
    apply runs_aggregate. apply Forall_forall. intros [f c] Hin.
    cbn [snd]. assert (Hf : In f fproc) by now apply in_combine_l in Hin.
    assert (Hc : c = status_command e f).
    { clear Hall Hf. induction fproc as [|f0 l IH]; [destruct Hin|].
      destruct Hin as [[= -> ->]|Hin]; [reflexivity|now apply IH]. }
    subst c. now apply Hall.
Qed.

End Runs.

Lemma runs_startup (e : env) (P : string -> Prop) :
  (forall c, In c (export_proxy e) -> P c) -> runs_only P (startup e).
Proof.
  intros Hexport. unfold startup. cbv zeta.
  do 5 (apply runs_bind; [apply runs_quiet; auto with run|intros _]).
  apply runs_bind; [apply runs_quiet; auto with run|intros isdir].
  unfold export_proxy in Hexport.
  destruct isdir; cbn [negb]; [|apply runs_quiet, quiet_raise].
  apply runs_bind; [|intros _; apply runs_quiet; quiet].
  destruct (proxy (argv e)) as [p|]; [|apply runs_quiet, quiet_ret].
  apply runs_bind; [apply runs_quiet; auto with run|intros present].
  destruct present; cbn [negb]; [|apply runs_quiet, quiet_raise].
  apply runs_system, Hexport. now left.
Qed.

Lemma runs_publish (e : env) (P : string -> Prop) : runs_only P (publish e).
Proof.
  unfold publish, web. runs.
Qed.

(** X12. Every command that a run gives to [os.system] is the export of
    the proxy, the removal of the log file, the status command of a
    sample that is polled or, when resubmission is asked for, the
    resubmission command of such a sample. *)
Theorem commands_of_run (e : env) (w : world) :
  exists more,
    commands (snd (main e w)) = (commands w ++ more)%list
    /\ Forall (command_of_run e) more.
Proof.
  revert w. fold (runs_only (command_of_run e) (main e)).
  unfold main, aggregation.
  apply runs_bind; [|intros _; apply runs_publish].
  apply runs_bind; [|intros _].
  - apply runs_startup. intros c Hc. now left.
  - apply runs_gather.
    + right. now left.
    + intros f Hf. split.
      * right. right. exists f. split; [exact Hf|now left].
      * intros Hres. right. right. exists f. split; [exact Hf|now right].
Qed.

(** *** The lines of the log *)

(** An attempt succeeds exactly when one line of the log starts with the
    marker of the job statuses; the test for an empty log adds nothing. *)
Lemma thissucces_one_line (outlines : list string) :
  thissucces outlines = true
  <-> List.length (filter (fun l => Str.startswith l "Jobs status:") outlines)
      = 1.
Proof.
  unfold thissucces. destruct outlines as [|l rest].
  - cbn. split; discriminate.
  - cbn [List.length Nat.ltb Nat.leb]. apply Nat.eqb_eq.
Qed.

Lemma parse_statuses_none (name : string) (words : list string) :
  forall (statuses : list string) (jobsfailed : bool) (w : world),
    (forall status, In status statuses ->
                    Str.contains status (hd EmptyString words) = false) ->
    parse_statuses name words statuses jobsfailed w = (Ok jobsfailed, w).
Proof.
  induction statuses as [|status rest IH]; intros jobsfailed w Hnone;
    [reflexivity|].
  cbn [parse_statuses]. rewrite (Hnone status) by now left.
  apply IH. intros s Hs. apply Hnone. now right.
Qed.

Lemma dashboard_first_word (rest : string) :
  exists tl,
    Str.split_ws ("Dashboard monitoring URL" ++ rest) = "Dashboard" :: tl.
Proof.
  unfold Str.split_ws.
  change ("Dashboard monitoring URL" ++ rest)
    with ("Dashboard" ++ (" monitoring URL" ++ rest)).
  rewrite split_ws_plain_prefix by reflexivity.
  cbn. now eexists.
Qed.

(** X13. A line of the dashboard gives the fourth word as the link of
    the sample, or raises IndexError when there are fewer words; it
    leaves the status mapping and [jobsfailed] as they are. *)
Theorem dashboard_line_sets_link (name line : string) (jobsfailed : bool)
  (w : world) (samples : dict sample) (record : sample) :
  Str.startswith (Str.replace line "Jobs status:" EmptyString)
                 "Dashboard monitoring URL" = true ->
  d_samples (var_data w) = Some samples ->
  Dict.get name samples = Some record ->
  parse_line name line jobsfailed w
  = match nth_error (line_words line) 3 with
    | Some link =>
        (Ok (Str.replace line "Jobs status:" EmptyString, jobsfailed),
         with_data
           (mkData (d_meta (var_data w))
              (Some (Dict.set name (mkSample (s_status record) (Some link))
                              samples))) w)
    | None => (Raise IndexError, w)
    end.
Proof.
  intros Hstart Hsamples Hrecord. unfold parse_line, line_words. cbv zeta.
  destruct (prefix_split _ _ Hstart) as [rest Hline].
  destruct (dashboard_first_word rest) as [tl Hwords].
  rewrite <- Hline in Hwords. rewrite Hstart, Hwords. cbn [List.length Nat.eqb].
  unfold bind at 1. rewrite parse_statuses_none.
  - destruct (nth_error ("Dashboard" :: tl) 3) as [link|]; [|reflexivity].
    unfold bind, update_samples, set_grafana, update_sample.
    now rewrite Hsamples, Hrecord.
  - intros status Hin. cbn [hd]. unfold known_statuses in Hin. cbn in Hin.
    repeat (destruct Hin as [<-|Hin]; [reflexivity|]). destruct Hin.
Qed.

Lemma dashboard_line_sets_link_witness :
  let line := "Dashboard monitoring URL:  https://monit-grafana.cern.ch/d/1" in
  let record := mkSample (Some [("finished", "0%")]) (Some EmptyString) in
  Str.startswith (Str.replace line "Jobs status:" EmptyString)
                 "Dashboard monitoring URL" = true
  /\ d_samples (var_data Sample.polling) = Some [("crab_s1", record)]
  /\ Dict.get "crab_s1" [("crab_s1", record)] = Some record
  /\ nth_error (line_words line) 3 = Some "https://monit-grafana.cern.ch/d/1"
  /\ parse_line "crab_s1" line false Sample.polling
     = (Ok (line, false),
        with_data
          (mkData None
             (Some [("crab_s1",
                     mkSample (Some [("finished", "0%")])
                              (Some "https://monit-grafana.cern.ch/d/1"))]))
          Sample.polling).
Proof.
  cbv zeta. split; [reflexivity|]. split; [reflexivity|].
  split; [reflexivity|]. split; [reflexivity|].
  rewrite (dashboard_line_sets_link "crab_s1"
             "Dashboard monitoring URL:  https://monit-grafana.cern.ch/d/1"
             false Sample.polling
             [("crab_s1",
               mkSample (Some [("finished", "0%")]) (Some EmptyString))]
             (mkSample (Some [("finished", "0%")]) (Some EmptyString))
             eq_refl eq_refl eq_refl).
  reflexivity.
Defined.

Lemma parse_statuses_failed (name : string) (words : list string) :
  forall (statuses : list string) (jobsfailed jobsfailed' : bool) (w : world),
    fst (parse_statuses name words statuses jobsfailed w) = Ok jobsfailed' ->
    jobsfailed'
    = jobsfailed
      || existsb (fun status => Str.contains status (hd EmptyString words)
                                && String.eqb status "failed") statuses.
Proof.
  induction statuses as [|status rest IH]; intros jobsfailed jobsfailed' w.
  - cbn. intros [= <-]. now rewrite orb_false_r.
  - cbn [parse_statuses existsb].
    destruct (Str.contains status (hd EmptyString words)); cbn [andb].
    + unfold bind at 1.
      destruct (update_samples _ w) as [[[]|x] w1]; [|discriminate].
      unfold bind at 1, print at 1. intros Hrun. apply IH in Hrun.
      rewrite Hrun. now destruct (String.eqb status "failed"), jobsfailed.
    + apply IH.
Qed.

Lemma parse_line_failed (name line : string) (jobsfailed : bool) (w : world)
  (r : string * bool) :
  fst (parse_line name line jobsfailed w) = Ok r ->
  snd r = jobsfailed || Str.contains "failed" (first_word line).
Proof.
  unfold parse_line, first_word, line_words. cbv zeta.
  destruct (Str.split_ws (Str.replace line "Jobs status:" EmptyString))
    as [|word tl] eqn:Hwords.
  - cbn. intros [= <-]. cbn. now rewrite orb_false_r.
  - cbn [List.length Nat.eqb]. unfold bind at 1.
    pose proof (fun jobsfailed' =>
                  parse_statuses_failed name (word :: tl) known_statuses
                    jobsfailed jobsfailed' w) as Hfailed.
    destruct (parse_statuses name (word :: tl) known_statuses jobsfailed w)
      as [[jobsfailed'|x] w1]; [|discriminate].
    specialize (Hfailed jobsfailed' eq_refl).
    assert (Hjf : jobsfailed' = jobsfailed || Str.contains "failed" word).
    { rewrite Hfailed. cbn [hd existsb known_statuses String.eqb Ascii.eqb
                              Bool.eqb andb orb].
      cbn. now rewrite !andb_false_r, andb_true_r, !orb_false_r. }
    destruct (Str.startswith _ _).
    + destruct (nth_error (word :: tl) 3); [|discriminate].
      unfold bind. destruct (update_samples _ w1) as [[[]|x] w2];
        [|discriminate].
      intros [= <-]. exact Hjf.
    + intros [= <-]. exact Hjf.
Qed.

Lemma parse_lines_failed (name : string) :
  forall (outlines : list string) (line : option string) (jobsfailed : bool)
         (w : world) (r : option string * bool),
    fst (parse_lines name outlines line jobsfailed w) = Ok r ->
    snd r = jobsfailed || mentions_failed outlines.
Proof.
  induction outlines as [|l rest IH]; intros line jobsfailed w r.
  - cbn. intros [= <-]. cbn. now rewrite orb_false_r.
  - cbn [parse_lines]. unfold bind at 1.
    pose proof (parse_line_failed name l jobsfailed w) as Hl.
    destruct (parse_line name l jobsfailed w) as [[r1|x] w1]; [|discriminate].
    intros Hrun. apply IH in Hrun. rewrite Hrun, (Hl r1 eq_refl).
    unfold mentions_failed. cbn [existsb]. now rewrite orb_assoc.
Qed.

(** *** Resubmission *)

Lemma report_sample_effects (e : env) (f status_cmd : string)
  (line : option string) (jobsfailed : bool) (w : world) (v : option string) :
  fst (report_sample e f status_cmd line jobsfailed w) = Ok v ->
  let w' := snd (report_sample e f status_cmd line jobsfailed w) in
  if jobsfailed && resubmit (argv e)
  then commands w' = (commands w ++ [resubmit_command status_cmd])%list
       /\ fs w'
          = fs (snd (Os.system (resubmit_command status_cmd)
                       (Os.Append (tmpfile e)
                                  (crab e (List.length (commands w)))) w))
  else commands w' = commands w /\ fs w' = fs w.
Proof.
  pose proof (quiet_check_completed f line w) as [Hfs Hcmd].
  remember (report_sample e f status_cmd line jobsfailed w) as res eqn:Hres.
  revert Hres. unfold report_sample, bind.
  destruct (check_completed f line w) as [[completed|x] w1];
    cbn [fst snd] in *; [|intros ->; discriminate].
  fold (resubmit_command status_cmd).
  destruct (jobsfailed && resubmit (argv e)); cbn [when].
  - unfold print at 1 2, run_script, Os.system. cbn [fst snd].
    destruct completed; cbn [when]; unfold print, ret; intros -> _;
      cbn [snd commands fs with_stdout with_commands with_fs];
      rewrite Hfs, Hcmd; now split.
  - unfold ret at 1.
    destruct completed; cbn [when]; unfold print, ret; intros -> _;
      cbn [snd commands fs with_stdout]; now split.
Qed.



(** *** Splitting at one character *)

Section OneChar.

Variable d : ascii.

Local Notation "'sep'" := (String d EmptyString) (only parsing).

Lemma prefix_char (c : ascii) (t : string) :
  String.prefix sep (String c t) = Ascii.eqb d c.
Proof.
  cbn [String.prefix].
  destruct (ascii_dec d c) as [->|Hne].
  - rewrite Ascii.eqb_refl. now destruct t.
  - symmetry. now apply Ascii.eqb_neq.
Qed.

Lemma split_char_cons (c : ascii) (cur t : string) :
  Str.split_from sep 0 cur (String c t)
  = if Ascii.eqb d c then cur :: Str.split_from sep 0 EmptyString t
    else Str.split_from sep 0 (cur ++ String c EmptyString) t.
Proof.
  cbn [Str.split_from]. rewrite prefix_char. reflexivity.
Qed.

Lemma count_char_cons (c : ascii) (t : string) :
  Str.count_from sep 0 (String c t)
  = if Ascii.eqb d c then S (Str.count_from sep 0 t)
    else Str.count_from sep 0 t.
Proof.
  cbn [Str.count_from]. rewrite prefix_char. reflexivity.
Qed.

Lemma split_char_length :
  forall s cur,
    List.length (Str.split_from sep 0 cur s) = S (Str.count_from sep 0 s).
Proof.
  induction s as [|c t IH]; intros cur; [reflexivity|].
  rewrite split_char_cons, count_char_cons.
  destruct (Ascii.eqb d c); cbn [List.length]; now rewrite IH.
Qed.

Lemma split_char_join :
  forall s cur, Str.join sep (Str.split_from sep 0 cur s) = cur ++ s.
Proof.
  unfold Str.join.
  induction s as [|c t IH]; intros cur.
  - cbn. now rewrite append_empty_r.
  - rewrite split_char_cons. destruct (Ascii.eqb d c) eqn:Hc.
    + apply Ascii.eqb_eq in Hc. subst c.
      pose proof (split_char_length t EmptyString) as Hlen.
      pose proof (IH EmptyString) as Hjoin.
      destruct (Str.split_from sep 0 EmptyString t) as [|x l];
        [discriminate|].
      cbn [String.concat]. cbn [String.concat] in Hjoin.
      rewrite Hjoin. reflexivity.
    + rewrite IH, append_assoc. reflexivity.
Qed.

Lemma count_char_app :
  forall a b,
    Str.count_from sep 0 (a ++ b)
    = Str.count_from sep 0 a + Str.count_from sep 0 b.
Proof.
  induction a as [|c a IH]; intros b; [reflexivity|].
  change (String c a ++ b) with (String c (a ++ b)).
  rewrite !count_char_cons, IH. now destruct (Ascii.eqb d c).
Qed.

Lemma split_char_pieces :
  forall s cur,
    Str.count_from sep 0 cur = 0 ->
    Forall (fun piece => Str.count_from sep 0 piece = 0)
           (Str.split_from sep 0 cur s).
Proof.
  induction s as [|c t IH]; intros cur Hcur.
  - cbn. now repeat constructor.
  - rewrite split_char_cons. destruct (Ascii.eqb d c) eqn:Hc.
    + constructor; [exact Hcur|]. now apply IH.
    + apply IH. rewrite count_char_app, Hcur, count_char_cons, Hc.
      reflexivity.
Qed.

Lemma split_char_whole :
  forall s cur,
    Str.count_from sep 0 s = 0 -> Str.split_from sep 0 cur s = [cur ++ s].
Proof.
  induction s as [|c t IH]; intros cur Hs.
  - cbn. now rewrite append_empty_r.
  - rewrite count_char_cons in Hs. rewrite split_char_cons.
    destruct (Ascii.eqb d c); [discriminate|].
    rewrite (IH _ Hs), append_assoc. reflexivity.
Qed.

Lemma split_char_last :
  forall a cur name,
    Str.count_from sep 0 name = 0 ->
    last (Str.split_from sep 0 cur (a ++ sep ++ name)) EmptyString = name.
Proof.
  induction a as [|c a IH]; intros cur name Hname.
  - change (EmptyString ++ sep ++ name) with (String d name).
    rewrite split_char_cons, Ascii.eqb_refl, (split_char_whole _ _ Hname).
    reflexivity.
  - change (String c a ++ sep ++ name)
      with (String c (a ++ sep ++ name)).
    rewrite split_char_cons. destruct (Ascii.eqb d c).
    + pose proof (split_char_length (a ++ sep ++ name) EmptyString) as Hlen.
      specialize (IH EmptyString name Hname).
      destruct (Str.split_from sep 0 EmptyString (a ++ sep ++ name))
        as [|x l]; [discriminate|].
      exact IH.
    + now apply IH.
Qed.

End OneChar.

(** *** The names of the samples *)

Lemma last_forall {A : Type} (P : A -> Prop) (l : list A) (d : A) :
  Forall P l -> P d -> P (last l d).
Proof.
  intros Hl Hd. induction Hl as [|x l Hx Hl IH]; [exact Hd|].
  destruct l; [exact Hx|exact IH].
Qed.

Lemma basename_no_slash (f : string) : Str.count (Os.basename f) "/" = 0.
Proof.
  unfold Str.count, Os.basename, Os.last_piece, Str.split.
  cbn [Str.is_empty].
  apply (last_forall (fun piece => Str.count_from "/" 0 piece = 0));
    [|reflexivity].
  now apply (split_char_pieces "/"%char).
Qed.

(** *** The recursion of [makedirs] *)

Lemma concat_last_length (sep : string) (l : list string) :
  String.length (last l EmptyString) <= String.length (String.concat sep l).
Proof.
  induction l as [|x [|y l] IH]; [reflexivity|reflexivity|].
  change (last (x :: y :: l) EmptyString) with (last (y :: l) EmptyString).
  change (String.concat sep (x :: y :: l))
    with (x ++ sep ++ String.concat sep (y :: l)).
  rewrite !length_append. lia.
Qed.

Lemma basename_length (p : string) :
  String.length (Os.basename p) <= String.length p.
Proof.
  unfold Os.basename, Os.last_piece, Str.split.
  pose proof (concat_last_length "/" (Str.split_from "/" 0 EmptyString p))
    as H.
  pose proof (split_char_join "/"%char p EmptyString) as Hjoin.
  unfold Str.join in Hjoin. rewrite Hjoin in H. exact H.
Qed.

Lemma prefix_length_eq (n : nat) :
  forall s, n <= String.length s ->
            String.length (String.substring 0 n s) = n.
Proof.
  induction n as [|n IH]; intros [|c t]; cbn [String.substring String.length];
    try lia.
  intros H. rewrite IH; lia.
Qed.

Lemma split_shorter (p : string) :
  Str.is_empty (snd (Os.split p)) = false ->
  String.length (fst (Os.split p)) < String.length p.
Proof.
  unfold Os.split. cbv zeta. cbn [fst snd]. intros Htail.
  pose proof (basename_length p) as Hbase.
  assert (Hlen : 0 < String.length (Os.basename p))
    by (destruct (Os.basename p); [discriminate|cbn; lia]).
  set (head := String.substring 0 _ p).
  assert (Hhead : String.length head
                  = String.length p - String.length (Os.basename p))
    by (apply prefix_length_eq; lia).
  pose proof (rstrip_length "/" head).
  destruct (Os.is_root head); lia.
Qed.

(** The number of characters of a path is fuel enough for the
    recursion: more fuel gives the same. *)
Lemma makedirs_from_fuel :
  forall (fuel fuel' : nat) (name : string) (files : dict node),
    String.length name <= fuel -> String.length name <= fuel' ->
    Os.makedirs_from fuel name files = Os.makedirs_from fuel' name files.
Proof.
  induction fuel as [|fuel IH]; intros [|fuel'] name files Hfuel Hfuel';
    try reflexivity;
    try (destruct name; [reflexivity|cbn [String.length] in *; lia]).
  cbn [Os.makedirs_from].
  pose proof (split_head_length name) as Hhead.
  pose proof (split_shorter name) as Hshort.
  destruct (Os.split name) as [head tail]. cbn [fst snd] in Hhead, Hshort.
  pose proof (split_shorter head) as Hshort'.
  destruct (Os.split head) as [head' tail']. cbn [fst snd] in Hshort'.
  assert (Hstep : forall h t,
             (Str.is_empty t = false -> String.length h < String.length name) ->
             (if negb (Str.is_empty h) && negb (Str.is_empty t)
                 && negb (Dict.mem h files)
              then
                let (made, files') := Os.makedirs_from fuel h files in
                let go_on :=
                  if String.eqb t "." then (Ok tt, files')
                  else Os.mkdir name files' in
                match made with
                | Ok _ => go_on
                | Raise (FileExistsError _) => go_on
                | Raise x => (Raise x, files')
                end
              else Os.mkdir name files)
             = (if negb (Str.is_empty h) && negb (Str.is_empty t)
                   && negb (Dict.mem h files)
                then
                  let (made, files') := Os.makedirs_from fuel' h files in
                  let go_on :=
                    if String.eqb t "." then (Ok tt, files')
                    else Os.mkdir name files' in
                  match made with
                  | Ok _ => go_on
                  | Raise (FileExistsError _) => go_on
                  | Raise x => (Raise x, files')
                  end
                else Os.mkdir name files)).
  { intros h t Hh.
    destruct (Str.is_empty t); [now rewrite andb_false_r|].
    specialize (Hh eq_refl).
    destruct (negb (Str.is_empty h) && negb false && negb (Dict.mem h files));
      [|reflexivity].
    rewrite (IH fuel' h files); [reflexivity|lia|lia]. }
  destruct (Str.is_empty tail) eqn:Htail; apply Hstep.
  - intros Ht. specialize (Hshort' Ht). lia.
  - intros _. now apply Hshort.
Qed.

Lemma makedirs_fuel (fuel : nat) (p : string) (w : world) :
  String.length p <= fuel ->
  Os.makedirs p w
  = (fst (Os.makedirs_from fuel p (fs w)),
     with_fs (snd (Os.makedirs_from fuel p (fs w))) w).
Proof.
  intros Hfuel. unfold Os.makedirs.
  rewrite (makedirs_from_fuel (String.length p) fuel p (fs w)) by lia.
  now destruct (Os.makedirs_from fuel p (fs w)).
Qed.

(** X15. The renderer takes a name with exactly two slashes apart at the
    slashes: the production, the name and the version make up the whole;
    the short name is the name up to its first underscore. Any other
    name is shown as it is, with dashes for the rest. *)
Theorem format_sample_name_parts (sample : string) :
  let names := format_sample_name sample in
  if (Str.count sample "/" =? 2)%nat
  then sample = production names ++ "/" ++ samplename names ++ "/"
                ++ versionname names
       /\ Str.count (production names) "/" = 0
       /\ Str.count (samplename names) "/" = 0
       /\ Str.count (versionname names) "/" = 0
       /\ (samplename names = sampleshortname names
           \/ exists rest,
                samplename names = sampleshortname names ++ "_" ++ rest)
       /\ Str.count (sampleshortname names) "_" = 0
  else names = mkNames sample sample "-" "-" "-".
Proof.
  unfold format_sample_name.
  destruct (Str.count sample "/" =? 2)%nat eqn:Hcount; [|reflexivity].
  apply Nat.eqb_eq in Hcount. unfold Str.count in *. cbn [Str.is_empty] in *.
  cbv zeta. cbn [production samplename versionname sampleshortname].
  unfold Str.split.
  pose proof (split_char_length "/"%char sample EmptyString) as Hlen.
  pose proof (split_char_join "/"%char sample EmptyString) as Hjoin.
  pose proof (split_char_pieces "/"%char sample EmptyString eq_refl)
    as Hpieces.
  rewrite Hcount in Hlen.
  destruct (Str.split_from "/" 0 EmptyString sample)
    as [|a [|b [|c [|x l]]]]; try discriminate.
  cbn [nth]. unfold Str.join in Hjoin. cbn in Hjoin.
  apply Forall_cons_iff in Hpieces as [Ha Hpieces].
  apply Forall_cons_iff in Hpieces as [Hb Hpieces].
  apply Forall_cons_iff in Hpieces as [Hc _].
  repeat split; try assumption; [symmetry; exact Hjoin| |].
  - pose proof (split_char_join "_"%char b EmptyString) as Hb_join.
    pose proof (split_char_length "_"%char b EmptyString) as Hb_len.
    destruct (Str.split_from "_" 0 EmptyString b) as [|h [|h' t]];
      [discriminate| |]; unfold Str.join in Hb_join; cbn [hd].
    + left. symmetry. exact Hb_join.
    + right. exists (String.concat "_" (h' :: t)). symmetry. exact Hb_join.
  - pose proof (split_char_pieces "_"%char b EmptyString eq_refl) as Hp.
    destruct (Str.split_from "_" 0 EmptyString b) as [|h t];
      [reflexivity|].
    cbn [hd]. now apply Forall_cons_iff in Hp.
Qed.

(** X16. The aggregator records a sample under the base name of its
    path, which has no slash: its row shows the base name, and dashes
    for the version. *)
Theorem rows_show_base_names (f : string) :
  format_sample_name (Os.basename f)
  = mkNames (Os.basename f) (Os.basename f) "-" "-" "-".
Proof.
  unfold format_sample_name. now rewrite basename_no_slash.
Qed.

(** X17. The base name of a path that ends with a slash and a name
    without slashes is that name: it is the key under which the sample
    of that path is recorded. *)
Theorem basename_of_path (dir name : string) :
  Str.count name "/" = 0 -> Os.basename (dir ++ "/" ++ name) = name.
Proof.
  intros Hname. unfold Os.basename, Os.last_piece, Str.split.
  now apply (split_char_last "/"%char).
Qed.

Lemma basename_of_path_witness :
  Str.count "crab_s1" "/" = 0
  /\ Os.basename ("/sim/a/crab_logs" ++ "/" ++ "crab_s1") = "crab_s1".
Proof.
  split; [reflexivity|].
  exact (basename_of_path "/sim/a/crab_logs" "crab_s1" eq_refl).
Defined.

(** *** The work directory of a sample *)

(** X18. The work directory of a sample is the part of its path before
    the first [/crab_logs/], or the whole path when there is none. *)
Theorem workdir_before_crab_logs (f : string) :
  if Str.contains "/crab_logs/" f
  then exists rest,
         f = workdir f ++ "/crab_logs/" ++ rest
         /\ forall dir rest',
              f = dir ++ "/crab_logs/" ++ rest' ->
              String.length (workdir f) <= String.length dir
  else workdir f = f.
Proof.
  unfold workdir, Str.split.
  pose proof (split_first "/crab_logs/" ltac:(discriminate) f EmptyString)
    as Hfirst.
  destruct (Str.contains "/crab_logs/" f).
  - destruct Hfirst as [p [r [Hf [Hhd Hmin]]]]. exists r.
    rewrite Hhd. cbn [append]. split; [exact Hf|exact Hmin].
  - exact Hfirst.
Qed.

(** *** The progress bar *)

Lemma progress_segments_agree (pv pv' : dict string) :
  forall (cs : dict string) (cumul : num) (html : string),
    (forall sc, In sc cs -> Dict.get (fst sc) pv = Dict.get (fst sc) pv') ->
    progress_segments cs pv cumul html = progress_segments cs pv' cumul html.
Proof.
  induction cs as [|[status color] cs IH]; intros cumul html Hagree;
    [reflexivity|].
  cbn [progress_segments].
  pose proof (Hagree (status, color) (or_introl eq_refl)) as Hs.
  cbn [fst] in Hs. rewrite <- Hs.
  destruct (Dict.get status pv) as [percentage|].
  - destruct (py_float (Str.strip percentage "%")); cbn [bind_result];
      [|reflexivity].
    apply IH. intros sc Hsc. apply Hagree. now right.
  - apply IH. intros sc Hsc. apply Hagree. now right.
Qed.

(** X19. Two status mappings with the same entries for the four statuses
    of the bar give the same segments, and fail alike; their bars differ
    in the text only. *)
Theorem bar_of_four_statuses (pv pv' : dict string) :
  (forall status,
     In status ["finished"; "transferring"; "running"; "failed"] ->
     Dict.get status pv = Dict.get status pv') ->
  match make_progress_bar pv, make_progress_bar pv' with
  | Ok html, Ok html' =>
      exists segments,
        html = segments ++ bar_text pv /\ html' = segments ++ bar_text pv'
  | Raise x, Raise x' => x = x'
  | _, _ => False
  end.
Proof.
  intros Hagree. unfold make_progress_bar.
  rewrite (progress_segments_agree pv pv' colors).
  - destruct (progress_segments colors pv' (NInt 0) _) as [segments|x];
      cbn [bind_result]; [|reflexivity].
    now exists segments.
  - intros [status color] Hin. cbn [fst]. apply Hagree.
    unfold colors in Hin. cbn in Hin.
    repeat (destruct Hin as [[= <- <-]|Hin]; [cbn; tauto|]). destruct Hin.
Qed.

Lemma bar_of_four_statuses_witness :
  let pv := [("finished", "50%")] in
  let pv' := [("idle", "50%"); ("finished", "50%")] in
  (Dict.get "finished" pv = Dict.get "finished" pv'
   /\ Dict.get "transferring" pv = Dict.get "transferring" pv'
   /\ Dict.get "running" pv = Dict.get "running" pv'
   /\ Dict.get "failed" pv = Dict.get "failed" pv')
  /\ match make_progress_bar pv, make_progress_bar pv' with
     | Ok html, Ok html' =>
         exists segments,
           html = segments ++ bar_text pv /\ html' = segments ++ bar_text pv'
     | Raise x, Raise x' => x = x'
     | _, _ => False
     end.
Proof.
  cbv zeta. split; [repeat split|].
  apply (bar_of_four_statuses [("finished", "50%")]
           [("idle", "50%"); ("finished", "50%")]).
  intros status [<-|[<-|[<-|[<-|[]]]]]; reflexivity.
Defined.

Lemma make_progress_bar_not_number (st : dict string) (status v : string) :
  In status ["finished"; "transferring"; "running"; "failed"] ->
  Dict.get status st = Some v ->
  Float.of_string (Str.strip v "%") = None ->
  exists s, make_progress_bar st = Raise (ValueError s).
Proof.
  intros Hin Hget Hnone.
  destruct (make_progress_bar st) as [html|x] eqn:Hbar.
  - assert (Hret : exists html, make_progress_bar st = Ok html)
      by now exists html.
    apply make_progress_bar_returns in Hret. destruct Hret as [widths Hw].
    assert (Hbar_in : In status (bar_statuses st)).
    { unfold bar_statuses. apply filter_In. split; [exact Hin|].
      unfold Dict.mem. now rewrite Hget. }
    apply (in_map (percentage_value st)) in Hbar_in.
    rewrite Hw in Hbar_in. unfold percentage_value in Hbar_in.
    rewrite Hget, Hnone in Hbar_in.
    apply in_map_iff in Hbar_in. destruct Hbar_in as [x [Hx _]].
    discriminate.
  - destruct (make_progress_bar_raises st x Hbar) as [s ->]. now exists s.
Qed.

Lemma web_sample_not_number (force : bool) (sampledata : dict sample)
  (name : string) (record : sample) (st : dict string)
  (status v : string) :
  Dict.get name sampledata = Some record ->
  s_status record = Some st ->
  In status ["finished"; "transferring"; "running"; "failed"] ->
  Dict.get status st = Some v ->
  Float.of_string (Str.strip v "%") = None ->
  exists s, web_sample force sampledata name = Raise (ValueError s).
Proof.
  intros Hrecord Hst Hin Hget Hnone. unfold web_sample.
  rewrite Hrecord, Hst.
  destruct (fraction "finished" st) as [x1|e1] eqn:H1; cbn [bind_result];
    [|destruct (fraction_raises _ _ _ H1) as [s ->]; now exists s].
  destruct (fraction "transferring" st) as [x2|e2] eqn:H2; cbn [bind_result];
    [|destruct (fraction_raises _ _ _ H2) as [s ->]; now exists s].
  destruct (fraction "running" st) as [x3|e3] eqn:H3; cbn [bind_result];
    [|destruct (fraction_raises _ _ _ H3) as [s ->]; now exists s].
  rewrite py_eq_num_str, !andb_false_r.
  destruct (make_progress_bar_not_number st status v Hin Hget Hnone)
    as [s ->].
  now exists s.
Qed.

Lemma web_samples_stop (force : bool) (sampledata : dict sample)
  (name : string) (x : exn) :
  web_sample force sampledata name = Raise x ->
  forall (samples : list string) (page : string),
    In name samples ->
    exists x', web_samples force sampledata samples page = Raise x'.
Proof.
  intros Hraise. induction samples as [|s rest IH]; intros page Hin;
    [destruct Hin|].
  cbn [web_samples].
  destruct (web_sample force sampledata s) as [row|x'] eqn:Hrow;
    cbn [bind_result]; [|now exists x'].
  destruct Hin as [->|Hin]; [congruence|]. now apply IH.
Qed.

(** X20. A percentage that is not a number, under one of the four
    statuses of the bar, makes the rendering of the whole page fail: so
    does the placeholder that the parser stores for a missing
    percentage. *)
Theorem percentage_not_number_fails_page (now : datetime) (data : data)
  (force : bool) (sampledata : dict sample) (name : string)
  (record : sample) (st : dict string) (status v : string) :
  d_samples data = Some sampledata ->
  Dict.get name sampledata = Some record ->
  s_status record = Some st ->
  In status ["finished"; "transferring"; "running"; "failed"] ->
  Dict.get status st = Some v ->
  Float.of_string (Str.strip v "%") = None ->
  exists x, web_page now data force = Raise x.
Proof.
  intros Hdata Hrecord Hst Hin Hget Hnone. unfold web_page. rewrite Hdata.
  destruct (web_sample_not_number force sampledata name record st status v
              Hrecord Hst Hin Hget Hnone) as [s Hrow].
  assert (Horder : In name (web_order sampledata)).
  { unfold web_order.
    apply (Permutation_in _ (Permutation_sym (sorted_by_perm _ _))).
    now apply get_in_keys with record. }
  destruct (web_samples_stop force sampledata name _ Hrow
              (web_order sampledata)
              (page_head now ++ page_meta data ++ samples_heading) Horder)
    as [x Hx].
  exists x. unfold samples_heading in Hx.
  rewrite <- !append_assoc in Hx |- *. now rewrite Hx.
Qed.

Lemma percentage_not_number_fails_page_witness :
  let record := mkSample (Some [("finished", "<none>")]) (Some EmptyString) in
  d_samples Sample.no_percentage = Some [("crab_s1", record)]
  /\ Dict.get "finished" [("finished", "<none>")] = Some "<none>"
  /\ Float.of_string (Str.strip "<none>" "%") = None
  /\ exists x, web_page Sample.now Sample.no_percentage false = Raise x.
Proof.
  cbv zeta. split; [reflexivity|]. split; [reflexivity|].
  split; [reflexivity|].
  apply (percentage_not_number_fails_page Sample.now Sample.no_percentage
           false
           [("crab_s1",
             mkSample (Some [("finished", "<none>")]) (Some EmptyString))]
           "crab_s1"
           (mkSample (Some [("finished", "<none>")]) (Some EmptyString))
           [("finished", "<none>")] "finished" "<none>");
    try reflexivity.
  now left.
Defined.

(** *** The rows of the page *)

Lemma web_samples_rows (force : bool) (sampledata : dict sample) :
  forall (samples : list string) (page result : string),
    web_samples force sampledata samples page = Ok result
    <-> exists rows,
          Forall2 (fun name row =>
                     web_sample force sampledata name = Ok row)
                  samples rows
          /\ result = page ++ cat rows.
Proof.
  induction samples as [|s rest IH]; intros page result; cbn [web_samples].
  - split.
    + intros [= <-]. exists []. split; [constructor|].
      cbn. now rewrite append_empty_r.
    + intros [rows [Hrows ->]]. inversion Hrows. cbn.
      now rewrite append_empty_r.
  - split.
    + destruct (web_sample force sampledata s) as [row|x] eqn:Hrow;
        cbn [bind_result]; [|discriminate].
      intros Hrest. apply IH in Hrest. destruct Hrest as [rows [Hrows ->]].
      exists (row :: rows). split; [now constructor|].
      now rewrite cat_cons, append_assoc.
    + intros [rows [Hrows ->]].
      inversion Hrows as [|? row ? rows' Hrow Hrest]; subst.
      rewrite Hrow. cbn [bind_result]. apply IH. exists rows'.
      split; [exact Hrest|]. now rewrite cat_cons, append_assoc.
Qed.

(** X21. The page is the head, the meta information, and one row for
    each sample in the order of the renderer; it is rendered exactly
    when every row is. *)
Theorem web_page_rows (now : datetime) (data : data) (force : bool)
  (sampledata : dict sample) (page : string) :
  d_samples data = Some sampledata ->
  web_page now data force = Ok page
  <-> exists rows,
        Forall2 (fun name row =>
                   web_sample force sampledata name = Ok row)
                (web_order sampledata) rows
        /\ page = page_head now ++ page_meta data ++ samples_heading
                  ++ cat rows ++ page_end.
Proof.
  intros Hdata. unfold web_page. rewrite Hdata. cbv zeta.
  fold samples_heading.
  replace ((page_head now ++ page_meta data) ++ samples_heading)
    with (page_head now ++ page_meta data ++ samples_heading)
    by now rewrite append_assoc.
  split.
  - destruct (web_samples _ _ _ _) as [result|x] eqn:Hrows;
      cbn [bind_result]; [|discriminate].
    intros [= <-]. apply web_samples_rows in Hrows.
    destruct Hrows as [rows [Hrows ->]]. exists rows.
    split; [exact Hrows|]. unfold page_end. now rewrite !append_assoc.
  - intros [rows [Hrows ->]].
    assert (Hrun : web_samples force sampledata (web_order sampledata)
                     (page_head now ++ page_meta data ++ samples_heading)
                   = Ok ((page_head now ++ page_meta data ++ samples_heading)
                         ++ cat rows))
      by (apply web_samples_rows; now exists rows).
    rewrite Hrun. cbn [bind_result]. unfold page_end.
    now rewrite !append_assoc.
Qed.

Lemma web_page_rows_witness :
  let sampledata :=
    [("crab_s1", mkSample (Some [("finished", "0%")]) (Some EmptyString))] in
  let data := mkData None (Some sampledata) in
  let page := Sample.page_of data in
  d_samples data = Some sampledata
  /\ web_page Sample.now data false = Ok page
  /\ exists rows,
       Forall2 (fun name row => web_sample false sampledata name = Ok row)
               (web_order sampledata) rows
       /\ page = page_head Sample.now ++ page_meta data ++ samples_heading
                 ++ cat rows ++ page_end.
Proof.
  cbv zeta. split; [reflexivity|].
  assert (H : web_page Sample.now
                (mkData None
                   (Some [("crab_s1",
                           mkSample (Some [("finished", "0%")])
                                    (Some EmptyString))])) false
              = Ok (Sample.page_of
                      (mkData None
                         (Some [("crab_s1",
                                 mkSample (Some [("finished", "0%")])
                                          (Some EmptyString))]))))
    by (vm_compute; reflexivity).
  split; [exact H|].
  exact (proj1 (web_page_rows Sample.now
                  (mkData None
                     (Some [("crab_s1",
                             mkSample (Some [("finished", "0%")])
                                      (Some EmptyString))]))
                  false
                  [("crab_s1",
                    mkSample (Some [("finished", "0%")]) (Some EmptyString))]
                  _ eq_refl) H).
Defined.

(** *** Outcomes *)

Lemma outcome_ret {A : Type} (I : world -> Prop) (a : A)
  (Q : A -> world -> Prop) (X : exn -> Prop) :
  (forall w, I w -> Q a w) -> outcome I (ret a) Q X.
Proof. intros H w Hw. now apply H. Qed.

Lemma outcome_raise {A : Type} (I : world -> Prop) (x : exn)
  (Q : A -> world -> Prop) (X : exn -> Prop) :
  X x -> outcome I (raise x) Q X.
Proof. now intros H w Hw. Qed.

Lemma outcome_bind {A B : Type} (I : world -> Prop) (K : A -> world -> Prop)
  (Q : B -> world -> Prop) (X : exn -> Prop) (m : M A) (k : A -> M B) :
  outcome I m K X -> (forall a, outcome (K a) (k a) Q X) ->
  outcome I (bind m k) Q X.
Proof.
  intros Hm Hk w Hw. unfold bind. specialize (Hm w Hw).
  destruct (m w) as [[a|x] w']; cbn [fst snd] in *; [|exact Hm].
  now apply Hk.
Qed.

Lemma outcome_weaken {A : Type} (I I' : world -> Prop)
  (Q Q' : A -> world -> Prop) (X X' : exn -> Prop) (m : M A) :
  outcome I m Q X ->
  (forall w, I' w -> I w) -> (forall a w, Q a w -> Q' a w) ->
  (forall x, X x -> X' x) ->
  outcome I' m Q' X'.
Proof.
  intros Hm HI HQ HX w Hw. specialize (Hm w (HI w Hw)).
  destruct (fst (m w)); auto.
Qed.

Lemma outcome_when (I : world -> Prop) (X : exn -> Prop) (b : bool)
  (m : M unit) :
  outcome I m (fun _ => I) X -> outcome I (when b m) (fun _ => I) X.
Proof.
  destruct b; [trivial|]. intros _. now apply outcome_ret.
Qed.

(** *** Computations that always return *)

Lemma returns_ret {A : Type} (a : A) : returns (ret a).
Proof. intros w. now exists a. Qed.

Lemma returns_bind {A B : Type} (m : M A) (k : A -> M B) :
  returns m -> (forall a, returns (k a)) -> returns (bind m k).
Proof.
  intros Hm Hk w. unfold bind. destruct (Hm w) as [a Ha].
  destruct (m w) as [[a'|x] w']; cbn [fst] in Ha; [|discriminate].
  apply Hk.
Qed.

Lemma returns_when (b : bool) (m : M unit) : returns m -> returns (when b m).
Proof. destruct b; [trivial|]. intros _. apply returns_ret. Qed.

Lemma returns_print (s : string) : returns (print s).
Proof. intros w. now exists tt. Qed.

Lemma returns_print_data (d : data) : returns (print_data d).
Proof. intros w. now exists tt. Qed.

Lemma returns_get_data : returns get_data.
Proof. intros w. now eexists. Qed.

Lemma returns_exists (p : string) : returns (Os.exists_ p).
Proof. intros w. now eexists. Qed.

Lemma returns_isdir (p : string) : returns (Os.isdir p).
Proof. intros w. now eexists. Qed.

Lemma returns_isfile (p : string) : returns (Os.isfile p).
Proof. intros w. now eexists. Qed.

Lemma returns_system (cmd : string) (eff : Os.effect) :
  returns (Os.system cmd eff).
Proof. intros w. now exists tt. Qed.

Lemma returns_run_script (e : env) (cmd : string) : returns (run_script e cmd).
Proof. intros w. now exists tt. Qed.

Lemma returns_rm_tmpfile (e : env) : returns (rm_tmpfile e).
Proof. intros w. now exists tt. Qed.

#[export] Hint Resolve returns_ret returns_when returns_print
  returns_print_data returns_get_data returns_exists returns_isdir
  returns_isfile returns_system returns_run_script returns_rm_tmpfile : run.

Ltac returns_step :=
  match goal with
  | |- returns (bind _ _) => apply returns_bind; [|intros ?]
  | |- returns (when _ _) => apply returns_when
  | |- returns (if ?b then _ else _) => destruct b
  | |- returns _ => solve [auto with run]
  end.

Ltac returns := repeat returns_step.

(** A computation that leaves [data] alone and always returns keeps
    what holds of [data]. *)
Lemma outcome_keeps {A : Type} (names : list string) (X : exn -> Prop)
  (m : M A) :
  keeps_data m -> returns m ->
  outcome (recorded names) m (fun _ => recorded names) X.
Proof.
  intros Hkeeps Hret w Hw. destruct (Hret w) as [a Ha]. rewrite Ha.
  unfold recorded in *. now rewrite (proj1 (Hkeeps w)).
Qed.

(** *** The records of the samples *)

Lemma recorded_update (names names' : list string) (X : exn -> Prop)
  (change : dict sample -> result (dict sample)) :
  (forall samples,
     samples_recorded names samples ->
     match change samples with
     | Ok samples' => samples_recorded names' samples'
     | Raise x => X x
     end) ->
  outcome (recorded names) (update_samples change)
          (fun _ => recorded names') X.
Proof.
  intros Hchange w [samples [Hsamples Hrec]]. unfold update_samples.
  rewrite Hsamples. specialize (Hchange samples Hrec).
  destruct (change samples) as [samples'|x]; cbn [fst snd]; [|exact Hchange].
  exists samples'. now split.
Qed.

Lemma recorded_update_sample (names : list string) (name : string)
  (change : sample -> result sample) (samples : dict sample) :
  In name names ->
  (forall record,
     s_status record <> None -> s_grafana record <> None ->
     exists record',
       change record = Ok record'
       /\ s_status record' <> None /\ s_grafana record' <> None) ->
  samples_recorded names samples ->
  match update_sample name change samples with
  | Ok samples' => samples_recorded names samples'
  | Raise x => False
  end.
Proof.
  intros Hin Hchange [Hall Hnames]. unfold update_sample.
  pose proof (Hnames name Hin) as Hmem. unfold Dict.mem in Hmem.
  destruct (Dict.get name samples) as [record|] eqn:Hget; [|discriminate].
  destruct (Hall name record Hget) as [Hst Hlink].
  destruct (Hchange record Hst Hlink) as [record' [-> [Hst' Hlink']]].
  cbn [bind_result]. split.
  - intros name' r Hr. destruct (String.eqb name name') eqn:Heq.
    + apply String.eqb_eq in Heq. subst name'.
      rewrite get_set_eq in Hr. injection Hr as <-. now split.
    + apply String.eqb_neq in Heq. rewrite get_set_ne in Hr by exact Heq.
      now apply (Hall name').
  - intros name' Hin'. now apply mem_set, Hnames.
Qed.

Lemma recorded_init_sample (names : list string) (name : string)
  (samples : dict sample) :
  samples_recorded names samples ->
  match init_sample name samples with
  | Ok samples' => samples_recorded (name :: names) samples'
  | Raise x => False
  end.
Proof.
  intros [Hall Hnames]. unfold init_sample. split.
  - intros name' r Hr. destruct (String.eqb name name') eqn:Heq.
    + apply String.eqb_eq in Heq. subst name'.
      rewrite get_set_eq in Hr. injection Hr as <-. now split.
    + apply String.eqb_neq in Heq. rewrite get_set_ne in Hr by exact Heq.
      now apply (Hall name').
  - intros name' [<-|Hin'].
    + unfold Dict.mem. now rewrite get_set_eq.
    + now apply mem_set, Hnames.
Qed.

Lemma recorded_incl (names names' : list string) (w : world) :
  incl names' names -> recorded names w -> recorded names' w.
Proof.
  intros Hincl [samples [Hsamples [Hall Hnames]]]. exists samples.
  split; [exact Hsamples|]. split; [exact Hall|].
  intros name Hin. now apply Hnames, Hincl.
Qed.

Section Recorded.

Variable names : list string.
Variable name : string.
Hypothesis name_listed : In name names.

Lemma recorded_set_status (status frac : string) (X : exn -> Prop) :
  outcome (recorded names) (update_samples (set_status name status frac))
          (fun _ => recorded names) X.
Proof.
  apply recorded_update. intros samples Hrec.
  pose proof (recorded_update_sample names name
                (fun record =>
                   match s_status record with
                   | None => Raise (KeyError "status")
                   | Some sample_status =>
                       Ok (mkSample (Some (Dict.set status frac sample_status))
                                    (s_grafana record))
                   end) samples name_listed) as Hupd.
  unfold set_status.
  destruct (update_sample name _ samples); [|exfalso]; apply Hupd; trivial;
    intros record Hst Hlink;
    (destruct (s_status record) as [st|]; [|congruence]);
    eexists; (split; [reflexivity|]); cbn; (split; [discriminate|trivial]).
Qed.

Lemma recorded_set_grafana (link : string) (X : exn -> Prop) :
  outcome (recorded names) (update_samples (set_grafana name link))
          (fun _ => recorded names) X.
Proof.
  apply recorded_update. intros samples Hrec.
  pose proof (recorded_update_sample names name
                (fun record => Ok (mkSample (s_status record) (Some link)))
                samples name_listed) as Hupd.
  unfold set_grafana.
  destruct (update_sample name _ samples); [|exfalso]; apply Hupd; trivial;
    intros record Hst Hlink;
    eexists; (split; [reflexivity|]); cbn; (split; [trivial|discriminate]).
Qed.

Lemma recorded_set_failed (X : exn -> Prop) :
  outcome (recorded names) (update_samples (set_failed name))
          (fun _ => recorded names) X.
Proof.
  apply recorded_update. intros samples Hrec.
  pose proof (recorded_update_sample names name
                (fun record =>
                   Ok (mkSample (Some [("crab status", "failed")])
                                (s_grafana record)))
                samples name_listed) as Hupd.
  unfold set_failed.
  destruct (update_sample name _ samples); [|exfalso]; apply Hupd; trivial;
    intros record Hst Hlink;
    eexists; (split; [reflexivity|]); cbn; (split; [discriminate|trivial]).
Qed.

Lemma recorded_parse_statuses (words : list string) (X : exn -> Prop) :
  forall (statuses : list string) (jobsfailed : bool),
    outcome (recorded names) (parse_statuses name words statuses jobsfailed)
            (fun _ => recorded names) X.
Proof.
  induction statuses as [|status rest IH]; intros jobsfailed;
    cbn [parse_statuses]; [now apply outcome_ret|].
  destruct (Str.contains status (hd EmptyString words)); [|apply IH].
  eapply outcome_bind; [apply recorded_set_status|intros ?].
  eapply outcome_bind; [|intros ?; apply IH].
  apply outcome_keeps; auto with run.
Qed.

Lemma recorded_parse_line (line : string) (jobsfailed : bool) :
  outcome (recorded names) (parse_line name line jobsfailed)
          (fun _ => recorded names) (eq IndexError).
Proof.
  unfold parse_line. cbv zeta.
  destruct (List.length _ =? 0)%nat; [now apply outcome_ret|].
  eapply outcome_bind; [apply recorded_parse_statuses|intros jobsfailed'].
  destruct (Str.startswith _ _); [|now apply outcome_ret].
  destruct (nth_error _ 3) as [link|]; [|now apply outcome_raise].
  eapply outcome_bind; [apply recorded_set_grafana|intros ?].
  now apply outcome_ret.
Qed.

Lemma recorded_parse_lines :
  forall (outlines : list string) (line : option string) (jobsfailed : bool),
    (outlines = [] -> line <> None) ->
    outcome (recorded names) (parse_lines name outlines line jobsfailed)
            (fun r w => recorded names w /\ fst r <> None) (eq IndexError).
Proof.
  induction outlines as [|l rest IH]; intros line jobsfailed Hline;
    cbn [parse_lines].
  - apply outcome_ret. intros w Hw. split; [exact Hw|now apply Hline].
  - eapply outcome_bind; [apply recorded_parse_line|intros r].
    apply IH. discriminate.
Qed.

End Recorded.

(** *** The failures of a run *)

Lemma process_sample_log_directory (e : env) (nfproc fidx : nat)
  (f status_cmd : string) (line : option string) (w : world) :
  Dict.get (tmpfile e) (fs w) = Some Dir ->
  process_sample e nfproc fidx f status_cmd line w
  = (Raise (IsADirectoryError (tmpfile e)),
     with_commands
       (commands w ++ [("rm " ++ tmpfile e)%string; status_cmd])%list
       (with_stdout
          (stdout w
           ++ [Text ("Now processing sample " ++ Str.of_nat (fidx + 1)
                     ++ " of " ++ Str.of_nat nfproc);
               Text ("(" ++ f ++ ")")])%list w)).
Proof.
  intros Hdir.
  unfold process_sample, bind, print, Os.exists_, Dict.mem, rm_tmpfile,
    Os.system.
  cbn [fst snd fs with_stdout with_commands with_fs commands stdout].
  rewrite Hdir. cbn [when status_attempts].
  unfold bind, run_script, Os.system, Os.read.
  repeat (rewrite ?Hdir;
          cbn [fst snd fs with_stdout with_commands with_fs commands stdout]).
  now rewrite <- !app_assoc.
Qed.

Lemma returns_check_completed (f line : string) :
  returns (check_completed f (Some line)).
Proof.
  unfold check_completed. returns.
Qed.

Lemma returns_report_sample (e : env) (f status_cmd line : string)
  (jobsfailed : bool) :
  returns (report_sample e f status_cmd (Some line) jobsfailed).
Proof.
  unfold report_sample. pose proof returns_check_completed. returns.
Qed.

Section Polling.

Variable e : env.
Variable names : list string.

Lemma recorded_skip_sample (f : string) (line : option string)
  (X : exn -> Prop) :
  In (Os.basename f) names ->
  outcome (recorded names) (skip_sample f line) (fun _ => recorded names) X.
Proof.
  intros Hin. unfold skip_sample.
  eapply outcome_bind; [apply outcome_keeps; auto with run|intros ?].
  eapply outcome_bind; [now apply recorded_set_failed|intros ?].
  now apply outcome_ret.
Qed.

Lemma recorded_parse_sample (f status_cmd : string) (line : option string)
  (w : world) (c : string) :
  In (Os.basename f) names ->
  Dict.get (tmpfile e) (fs w) = Some (File c) ->
  thissucces (Str.splitlines (Str.universal_newlines false c)) = true ->
  recorded names w ->
  match fst (parse_sample e f status_cmd line w) with
  | Ok _ => recorded names (snd (parse_sample e f status_cmd line w))
  | Raise x => x = IndexError
  end.
Proof.
  intros Hin Hlog Hok Hw.
  rewrite (parse_sample_run e f status_cmd line w c Hlog).
  set (w1 := with_commands _ _).
  assert (Hw1 : recorded names w1) by exact Hw.
  clearbody w1. revert w1 Hw1.
  change (outcome (recorded names)
            (bind (parse_lines (Os.basename f)
                     (Str.splitlines (Str.universal_newlines false c)) line
                     false)
                  (fun r => report_sample e f status_cmd (fst r) (snd r)))
            (fun _ => recorded names) (fun x => x = IndexError)).
  eapply outcome_bind.
  - eapply outcome_weaken;
      [apply (recorded_parse_lines names (Os.basename f) Hin)| | |].
    + intros Hempty. rewrite Hempty in Hok. discriminate.
    + trivial.
    + intros a w' H. exact H.
    + intros x <-. reflexivity.
  - intros [[l|] jobsfailed]; cbn [fst snd].
    + intros w' [Hw' _]. revert w' Hw'.
      change (outcome (recorded names)
                (report_sample e f status_cmd (Some l) jobsfailed)
                (fun _ => recorded names) (fun x => x = IndexError)).
      apply outcome_keeps; [auto with run|apply returns_report_sample].
    + intros w' [_ Hnone]. now contradiction Hnone.
Qed.

Lemma recorded_process_sample (nfproc fidx : nat) (f status_cmd : string)
  (line : option string) :
  In (Os.basename f) names ->
  outcome (recorded names) (process_sample e nfproc fidx f status_cmd line)
          (fun _ => recorded names) (polling_failure e).
Proof.
  intros Hin w Hw.
  destruct (Dict.get (tmpfile e) (fs w)) as [[|c0]|] eqn:Hlog.
  - rewrite process_sample_log_directory by exact Hlog. now left.
  - destruct (process_sample_attempts e nfproc fidx f status_cmd line w)
      as [w1 [-> [_ [Hlog1 [Hdata [_ _]]]]]]; [congruence|].
    assert (Hw1 : recorded names w1)
      by (unfold recorded in *; now rewrite Hdata).
    destruct (attempt_succeeds _ _ _) eqn:Hok.
    + pose proof (recorded_parse_sample f status_cmd line w1 _ Hin Hlog1 Hok
                    Hw1) as Hparse.
      destruct (fst (parse_sample e f status_cmd line w1));
        [exact Hparse|now right].
    + now apply (recorded_skip_sample f line (polling_failure e) Hin w1).
  - destruct (process_sample_attempts e nfproc fidx f status_cmd line w)
      as [w1 [-> [_ [Hlog1 [Hdata [_ _]]]]]]; [congruence|].
    assert (Hw1 : recorded names w1)
      by (unfold recorded in *; now rewrite Hdata).
    destruct (attempt_succeeds _ _ _) eqn:Hok.
    + pose proof (recorded_parse_sample f status_cmd line w1 _ Hin Hlog1 Hok
                    Hw1) as Hparse.
      destruct (fst (parse_sample e f status_cmd line w1));
        [exact Hparse|now right].
    + now apply (recorded_skip_sample f line (polling_failure e) Hin w1).
Qed.

Lemma recorded_aggregate (nfproc : nat) :
  forall (todo : list (string * string)) (fidx : nat) (line : option string),
    (forall fc, In fc todo -> In (Os.basename (fst fc)) names) ->
    outcome (recorded names) (aggregate e nfproc fidx todo line)
            (fun _ => recorded names) (polling_failure e).
Proof.
  induction todo as [|[f status_cmd] rest IH]; intros fidx line Hall;
    cbn [aggregate]; [now apply outcome_ret|].
  eapply outcome_bind.
  - apply recorded_process_sample. apply (Hall (f, status_cmd)). now left.
  - intros line'. apply IH. intros fc Hfc. apply Hall. now right.
Qed.

End Polling.

Lemma recorded_initialize :
  forall (fproc names : list string) (X : exn -> Prop),
    outcome (recorded names) (initialize fproc)
            (fun _ => recorded (map Os.basename fproc ++ names)%list) X.
Proof.
  induction fproc as [|f rest IH]; intros names X; cbn [initialize].
  - now apply outcome_ret.
  - eapply outcome_bind.
    + apply (recorded_update names (Os.basename f :: names)).
      intros samples Hrec.
      pose proof (recorded_init_sample names (Os.basename f) samples Hrec)
        as Hinit.
      destruct (init_sample (Os.basename f) samples);
        [exact Hinit|destruct Hinit].
    + intros ?.
      apply (outcome_weaken
               (recorded (Os.basename f :: names)) _
               (fun _ => recorded (map Os.basename rest
                                   ++ Os.basename f :: names)%list) _ X X);
        [apply IH|trivial| |trivial].
      intros ? w. apply recorded_incl.
      intros name Hin. cbn [map app] in Hin. apply in_app_iff.
      destruct Hin as [<-|Hin]; [right; now left|].
      apply in_app_iff in Hin. destruct Hin as [Hin|Hin];
        [now left|right; now right].
Qed.

Lemma gather_run (e : env) (fproc : list string) (w : world) :
  gather e fproc w
  = match first_without_script fproc w with
    | Some f => (Raise (Exception (missing_script_msg f)), w)
    | None =>
        bind (initialize fproc)
             (fun _ => bind (aggregate e (List.length fproc) 0
                               (combine fproc (map (status_command e) fproc))
                               None)
                            (fun _ => ret tt)) w
    end.
Proof.
  unfold gather. unfold bind at 1. rewrite find_commands_run.
  now destruct (first_without_script fproc w).
Qed.

Lemma recorded_gather (e : env) (fproc names : list string) :
  outcome (recorded names) (gather e fproc)
          (fun _ => recorded (map Os.basename fproc ++ names)%list)
          (fun x => (exists f, In f fproc
                               /\ x = Exception (missing_script_msg f))
                    \/ polling_failure e x).
Proof.
  intros w Hw. rewrite gather_run.
  destruct (first_without_script fproc w) as [f|] eqn:Hfind.
  - cbn [fst]. left. exists f. split; [|reflexivity].
    now apply find_some in Hfind.
  - clear Hfind. revert w Hw.
    change (outcome (recorded names)
              (bind (initialize fproc)
                 (fun _ => bind (aggregate e (List.length fproc) 0
                                   (combine fproc
                                      (map (status_command e) fproc)) None)
                                (fun _ => ret tt)))
              (fun _ => recorded (map Os.basename fproc ++ names)%list)
              (fun x => (exists f, In f fproc
                                   /\ x = Exception (missing_script_msg f))
                        \/ polling_failure e x)).
    eapply outcome_bind; [apply recorded_initialize|intros ?].
    apply (outcome_bind _
             (fun _ => recorded (map Os.basename fproc ++ names)%list));
      [|intros ?; now apply outcome_ret].
    apply (outcome_weaken
             (recorded (map Os.basename fproc ++ names)%list) _
             (fun _ => recorded (map Os.basename fproc ++ names)%list) _
             (polling_failure e) _);
      [apply recorded_aggregate|trivial|trivial|now right].
    intros [f c] Hin. cbn [fst]. apply in_app_iff. left.
    apply in_map. now apply in_combine_l in Hin.
Qed.

Lemma outcome_returns {A : Type} (X : exn -> Prop) (m : M A) :
  returns m -> outcome (fun _ => True) m (fun _ _ => True) X.
Proof.
  intros Hret w _. destruct (Hret w) as [a ->]. exact Logic.I.
Qed.

Lemma recorded_startup (e : env) :
  outcome (fun _ => True) (startup e) (fun _ => recorded [])
          (configuration_error e).
Proof.
  unfold startup. cbv zeta.
  do 5 (apply (outcome_bind _ (fun _ _ => True));
        [apply outcome_returns; auto with run|intros ?]).
  apply (outcome_bind _ (fun _ _ => True));
    [apply outcome_returns; auto with run|intros isdir].
  destruct isdir; cbn [negb]; [|apply outcome_raise; now left].
  apply (outcome_bind _ (fun _ _ => True)).
  - destruct (proxy (argv e)) as [p|] eqn:Hproxy;
      [|now apply outcome_ret].
    apply (outcome_bind _ (fun _ _ => True));
      [apply outcome_returns; auto with run|intros present].
    destruct present; cbn [negb];
      [apply outcome_returns; auto with run|].
    apply outcome_raise. right. left. now exists p.
  - intros ?. apply (outcome_bind _ (fun _ => recorded [])).
    + intros w _. cbn [set_data fst snd]. exists []. split; [reflexivity|].
      split; [discriminate|intros name []].
    + intros ?.
      destruct (List.length (sorted (glob_crab_logs e)) =? 0)%nat;
        [apply outcome_raise; right; right; now left|].
      apply outcome_when. apply outcome_keeps; auto with run.
Qed.

(** *** The failures of the rendering *)

Lemma web_sample_recorded (force : bool) (sampledata : dict sample)
  (name : string) (record : sample) (x : exn) :
  Dict.get name sampledata = Some record ->
  s_status record <> None ->
  web_sample force sampledata name = Raise x ->
  exists s, x = ValueError s.
Proof.
  intros Hrecord Hst. unfold web_sample. rewrite Hrecord.
  destruct (s_status record) as [st|]; [|congruence].
  destruct (fraction "finished" st) as [x1|e1] eqn:H1; cbn [bind_result];
    [|intros [= <-]; now apply (fraction_raises _ _ _ H1)].
  destruct (fraction "transferring" st) as [x2|e2] eqn:H2; cbn [bind_result];
    [|intros [= <-]; now apply (fraction_raises _ _ _ H2)].
  destruct (fraction "running" st) as [x3|e3] eqn:H3; cbn [bind_result];
    [|intros [= <-]; now apply (fraction_raises _ _ _ H3)].
  rewrite py_eq_num_str, !andb_false_r.
  destruct (make_progress_bar st) as [bar|e4] eqn:H4; cbn [bind_result];
    [discriminate|].
  intros [= <-]. now apply (make_progress_bar_raises _ _ H4).
Qed.

Lemma web_samples_recorded (force : bool) (sampledata : dict sample)
  (x : exn) :
  (forall name record, Dict.get name sampledata = Some record ->
                       s_status record <> None) ->
  forall (samples : list string) (page : string),
    (forall name, In name samples -> In name (Dict.keys sampledata)) ->
    web_samples force sampledata samples page = Raise x ->
    exists s, x = ValueError s.
Proof.
  intros Hall. induction samples as [|name rest IH]; intros page Hkeys;
    cbn [web_samples]; [discriminate|].
  destruct (in_keys_get name sampledata (Hkeys name (or_introl eq_refl)))
    as [record Hrecord].
  destruct (web_sample force sampledata name) as [row|x'] eqn:Hrow;
    cbn [bind_result].
  - apply IH. intros n Hn. apply Hkeys. now right.
  - intros [= <-].
    now apply (web_sample_recorded force sampledata name record x' Hrecord
                 (Hall name record Hrecord)).
Qed.

Lemma web_page_recorded (now : datetime) (data : data) (force : bool)
  (names : list string) (samples : dict sample) (x : exn) :
  d_samples data = Some samples ->
  samples_recorded names samples ->
  web_page now data force = Raise x ->
  exists s, x = ValueError s.
Proof.
  intros Hdata [Hall _]. unfold web_page. rewrite Hdata. cbv zeta.
  destruct (web_samples _ _ _ _) as [page|x'] eqn:Hrows; cbn [bind_result];
    [discriminate|].
  intros [= <-].
  apply (web_samples_recorded force samples x'
           (fun name record Hr => proj1 (Hall name record Hr))
           (web_order samples) _) in Hrows; [exact Hrows|].
  intros name Hin. unfold web_order in Hin.
  now apply (Permutation_in _ (sorted_by_perm _ _)) in Hin.
Qed.

Lemma recorded_publish (e : env) (names : list string) :
  outcome (recorded names) (publish e) (fun _ => recorded names)
          publishing_failure.
Proof.
  intros w [samples [Hsamples Hrec]]. rewrite publish_run.
  set (w2 := with_stdout _ w).
  pose proof (fun x => web_raises_cases (clock e) (var_data w)
                         "monitor_crab_jobs" false w2 x plain_name_directory)
    as Hcases.
  pose proof (proj1 (keeps_web (clock e) (var_data w) "monitor_crab_jobs"
                       false w2)) as Hdata.
  destruct (web _ _ _ _ w2) as [[[]|x] w3]; cbn [fst snd] in *.
  - exists samples. cbn [var_data with_stdout]. rewrite Hdata.
    now split.
  - destruct (Hcases x eq_refl) as [Hpage|[[-> _]|[-> _]]].
    + left. exact (web_page_recorded (clock e) (var_data w) false names samples
                     x Hsamples Hrec Hpage).
    + right. now left.
    + right. now right.
Qed.

Lemma main_raises_cases (e : env) (w : world) (x : exn) :
  fst (main e w) = Raise x -> failure_of_run e x.
Proof.
  assert (Hmain : outcome (fun _ => True) (main e) (fun _ _ => True)
                          (failure_of_run e)).
  { unfold main, aggregation.
    eapply outcome_bind; [|intros ?].
    - eapply outcome_bind; [|intros ?].
      + eapply outcome_weaken; [apply recorded_startup| | |]; trivial.
        * intros a w' H. exact H.
        * intros x' Hx'. now left.
      + eapply outcome_weaken; [apply (recorded_gather e (selected e) [])| | |];
          trivial.
        * intros a' w' H. exact H.
        * intros x' [[f [Hf ->]]|Hx'].
          -- left. right. right. right. now exists f.
          -- right. now left.
    - eapply outcome_weaken; [apply recorded_publish| | |]; trivial.
      + intros w' H. exact H.
      + intros x' Hx'. right. now right. }
  intros Hraise. specialize (Hmain w Logic.I). now rewrite Hraise in Hmain.
Qed.

(** X22. Whatever a run fails on, it is never a missing key of [data]
    nor the variable [line] being undefined; and an [Exception] of the
    program's own is one of the four of the configuration: the guard of
    [web] never stops a run. *)
Theorem failures_of_run (e : env) (w : world) (x : exn) :
  fst (main e w) = Raise x ->
  (forall key, x <> KeyError key)
  /\ (forall name, x <> NameError name)
  /\ (forall msg, x = Exception msg -> configuration_error e x).
Proof.
  intros Hraise. apply main_raises_cases in Hraise.
  assert (Hother : forall y : exn,
             polling_failure e y \/ publishing_failure y ->
             (forall key, y <> KeyError key)
             /\ (forall name, y <> NameError name)
             /\ (forall msg, y <> Exception msg)).
  { intros y [[->| ->]|[[s ->]|[->| ->]]]; repeat split; discriminate. }
  destruct Hraise as [Hconf|Hrest].
  - split; [|split]; [| |intros msg _; exact Hconf];
      intros k ->;
      destruct Hconf as [H|[[p [_ H]]|[H|[f [_ H]]]]]; discriminate H.
  - destruct (Hother x Hrest) as (Hkey & Hname & Hexc).
    split; [exact Hkey|]. split; [exact Hname|].
    intros msg Hx. now contradiction (Hexc msg).
Qed.

Lemma failures_of_run_witness :
  let e := Sample.env_of [] (fun _ => Sample.garbage) in
  let x := Exception "No samples found in provided simpack dir; exiting." in
  fst (main e Sample.start) = Raise x
  /\ configuration_error e x.
Proof.
  cbv zeta.
  assert (H : fst (main (Sample.env_of [] (fun _ => Sample.garbage))
                        Sample.start)
              = Raise (Exception
                         "No samples found in provided simpack dir; exiting."))
    by (vm_compute; reflexivity).
  split; [exact H|].
  exact (proj2 (proj2 (failures_of_run _ _ _ H)) _ eq_refl).
Defined.

(** *** The meta information *)

Section SamplesOnly.

Variable t0 : list data.
Variable P : data -> Prop.
Hypothesis P_samples :
  forall meta samples samples',
    P (mkData meta (Some samples)) -> P (mkData meta (Some samples')).

Lemma only_update (change : dict sample -> result (dict sample)) :
  stable (since_now t0 P) (update_samples change).
Proof.
  apply since_now_update. intros meta samples samples' Hp _.
  now apply (P_samples meta samples).
Qed.

Ltac only_step :=
  match goal with
  | |- stable (since_now t0 P) (bind _ _) => apply stable_bind; [|intros ?]
  | |- stable (since_now t0 P) (when _ _) => apply stable_when
  | |- stable (since_now t0 P) (update_samples _) => apply only_update
  | |- stable (since_now t0 P) (if ?b then _ else _) => destruct b
  | |- stable (since_now t0 P) (match ?x with _ => _ end) => destruct x
  | |- stable (since_now t0 P) _ =>
      solve [auto | apply since_now_keeps; auto with run]
  end.

Lemma only_initialize (fproc : list string) :
  stable (since_now t0 P) (initialize fproc).
Proof.
  induction fproc as [|f rest IH]; cbn [initialize]; repeat only_step.
Qed.

Lemma only_parse_statuses (name : string) (words : list string) :
  forall (statuses : list string) (jobsfailed : bool),
    stable (since_now t0 P) (parse_statuses name words statuses jobsfailed).
Proof.
  induction statuses as [|status rest IH]; intros jobsfailed;
    cbn [parse_statuses]; repeat only_step.
Qed.

Lemma only_parse_line (name line : string) (jobsfailed : bool) :
  stable (since_now t0 P) (parse_line name line jobsfailed).
Proof.
  unfold parse_line. pose proof only_parse_statuses. repeat only_step.
Qed.

Lemma only_parse_lines (name : string) :
  forall (outlines : list string) (line : option string) (jobsfailed : bool),
    stable (since_now t0 P) (parse_lines name outlines line jobsfailed).
Proof.
  induction outlines as [|l rest IH]; intros line jobsfailed;
    cbn [parse_lines]; pose proof only_parse_line; repeat only_step.
Qed.

Lemma only_process_sample (e : env) (nfproc fidx : nat)
  (f status_cmd : string) (line : option string) :
  stable (since_now t0 P) (process_sample e nfproc fidx f status_cmd line).
Proof.
  unfold process_sample, skip_sample, parse_sample, report_sample.
  pose proof only_parse_lines. repeat only_step.
Qed.

Lemma only_aggregate (e : env) (nfproc : nat) :
  forall (todo : list (string * string)) (fidx : nat) (line : option string),
    stable (since_now t0 P) (aggregate e nfproc fidx todo line).
Proof.
  induction todo as [|[f status_cmd] rest IH]; intros fidx line;
    cbn [aggregate]; pose proof only_process_sample; repeat only_step.
Qed.

Lemma only_gather (e : env) (fproc : list string) :
  stable (since_now t0 P) (gather e fproc).
Proof.
  unfold gather. pose proof only_initialize. pose proof only_aggregate.
  repeat only_step.
Qed.

Lemma only_startup (e : env) :
  P (initial_data e) ->
  triple (since t0 P) (startup e) (since_now t0 P) (since t0 P).
Proof.
  intros Hinit. unfold startup.
  repeat (eapply triple_bind; [apply since_keeps; auto with run|intros ?]).
  destruct (negb _).
  { intros w Hs. exact Hs. }
  eapply triple_bind.
  { apply since_keeps. destruct (proxy (argv e)); keeps. }
  intros _.
  eapply triple_bind; [now apply since_set_data|].
  intros _.
  eapply triple_weaken; [|intros w H; exact H|apply since_now_since].
  match goal with
  | |- triple _ ?m _ _ => change (stable (since_now t0 P) m)
  end.
  repeat only_step.
Qed.

Lemma only_main (e : env) :
  P (initial_data e) -> stable (since t0 P) (main e).
Proof.
  intros Hinit. unfold main, aggregation.
  eapply triple_bind; [|intros _; apply since_keeps; auto with run].
  eapply triple_bind; [now apply only_startup|intros _].
  eapply triple_weaken; [apply only_gather| |]; apply since_now_since.
Qed.

End SamplesOnly.

(** X23. Every value that [data] takes in a run has the meta information
    that the run starts with: the script and the command-line arguments. *)
Theorem meta_of_data (e : env) (w : world) :
  Forall (fun d => d_meta d = Some (meta_of_run e))
         (skipn (List.length (trace w)) (trace (snd (main e w)))).
Proof.
  destruct (stable_elim _ (main e) w
              (only_main (trace w) (fun d => d_meta d = Some (meta_of_run e))
                 (fun meta samples samples' H => H) e eq_refl))
    as [l [Ht Hl]].
  - exists []. split; [now rewrite app_nil_r|constructor].
  - rewrite Ht, skipn_app, skipn_all, Nat.sub_diag. exact Hl.
Qed.

(** *** The records of the other samples *)

Lemma others_keeps {A : Type} (name : string) (m : M A) :
  keeps_data m -> keeps_others name m.
Proof.
  intros Hm w other _. unfold record_of. now rewrite (proj1 (Hm w)).
Qed.

Lemma others_bind {A B : Type} (name : string) (m : M A) (k : A -> M B) :
  keeps_others name m -> (forall a, keeps_others name (k a)) ->
  keeps_others name (bind m k).
Proof.
  intros Hm Hk w other Hne. unfold bind. specialize (Hm w other Hne).
  destruct (m w) as [[a|x] w']; cbn [snd] in *; [|exact Hm].
  now rewrite (Hk a w' other Hne).
Qed.

Lemma others_when (name : string) (b : bool) (m : M unit) :
  keeps_others name m -> keeps_others name (when b m).
Proof.
  destruct b; [trivial|]. intros _. apply others_keeps, keeps_ret.
Qed.

Lemma others_update (name : string) (change : sample -> result sample) :
  keeps_others name (update_samples (update_sample name change)).
Proof.
  intros w other Hne. unfold record_of, update_samples, update_sample.
  destruct (d_samples (var_data w)) as [samples|] eqn:Hs;
    [|cbn [snd]; now rewrite Hs].
  destruct (Dict.get name samples) as [record|];
    [|cbn [snd]; now rewrite Hs].
  destruct (change record) as [record'|x]; cbn [bind_result snd];
    [|now rewrite Hs].
  cbn [var_data with_data d_samples]. apply get_set_ne. congruence.
Qed.

Ltac others_step :=
  match goal with
  | |- keeps_others _ (bind _ _) => apply others_bind; [|intros ?]
  | |- keeps_others _ (when _ _) => apply others_when
  | |- keeps_others _ (update_samples (set_status _ _ _)) =>
      apply others_update
  | |- keeps_others _ (update_samples (set_grafana _ _)) =>
      apply others_update
  | |- keeps_others _ (update_samples (set_failed _)) =>
      apply others_update
  | |- keeps_others _ (if ?b then _ else _) => destruct b
  | |- keeps_others _ (match ?x with _ => _ end) => destruct x
  | |- keeps_others _ _ => solve [auto | apply others_keeps; auto with run]
  end.

Lemma others_parse_statuses (name : string) (words : list string) :
  forall (statuses : list string) (jobsfailed : bool),
    keeps_others name (parse_statuses name words statuses jobsfailed).
Proof.
  induction statuses as [|status rest IH]; intros jobsfailed;
    cbn [parse_statuses]; repeat others_step.
Qed.

Lemma others_parse_line (name line : string) (jobsfailed : bool) :
  keeps_others name (parse_line name line jobsfailed).
Proof.
  unfold parse_line. pose proof (others_parse_statuses name).
  repeat others_step.
Qed.

Lemma others_parse_lines (name : string) :
  forall (outlines : list string) (line : option string) (jobsfailed : bool),
    keeps_others name (parse_lines name outlines line jobsfailed).
Proof.
  induction outlines as [|l rest IH]; intros line jobsfailed;
    cbn [parse_lines]; pose proof (others_parse_line name);
    repeat others_step.
Qed.

(** X24. The polling of a sample changes no record but its own. *)
Theorem sample_isolation (e : env) (nfproc fidx : nat) (f status_cmd : string)
  (line : option string) (w : world) (other : string) :
  other <> Os.basename f ->
  record_of other (snd (process_sample e nfproc fidx f status_cmd line w))
  = record_of other w.
Proof.
  revert w other.
  change (keeps_others (Os.basename f)
            (process_sample e nfproc fidx f status_cmd line)).
  unfold process_sample, skip_sample, parse_sample, report_sample.
  pose proof (others_parse_lines (Os.basename f)).
  repeat others_step.
Qed.

Lemma sample_isolation_witness :
  let e := Sample.env_of Sample.crossed Sample.always_fails in
  let w := snd (startup e Sample.start) in
  let w1 := snd (initialize Sample.crossed w) in
  "crab_y" <> Os.basename "/sim/a/crab_logs/crab_z"
  /\ record_of "crab_y" w1
     = Some (mkSample (Some [("finished", "0%")]) (Some EmptyString))
  /\ record_of "crab_y"
       (snd (process_sample e 2 0 "/sim/a/crab_logs/crab_z"
                            (status_command e "/sim/a/crab_logs/crab_z")
                            None w1))
     = Some (mkSample (Some [("finished", "0%")]) (Some EmptyString)).
Proof.
  cbv zeta.
  assert (H : "crab_y" <> Os.basename "/sim/a/crab_logs/crab_z")
    by (vm_compute; discriminate).
  split; [exact H|]. split; [reflexivity|].
  rewrite (sample_isolation _ _ _ _ _ _ _ _ H). reflexivity.
Defined.

(** X25. After the loop over the samples, every sample that has been
    polled is on record, and every record has a status mapping and a
    link. *)
Theorem polled_samples_on_record (e : env) (w : world) :
  fst (aggregation e w) = Ok tt ->
  exists samples,
    d_samples (var_data (snd (aggregation e w))) = Some samples
    /\ (forall f, In f (selected e) ->
                  Dict.mem (Os.basename f) samples = true)
    /\ (forall name record,
          Dict.get name samples = Some record ->
          s_status record <> None /\ s_grafana record <> None).
Proof.
  intros Hok.
  assert (Hagg : outcome (fun _ => True) (aggregation e)
                   (fun _ => recorded (map Os.basename (selected e)))
                   (fun _ => True)).
  { unfold aggregation.
    apply (outcome_bind _ (fun _ => recorded []));
      [eapply outcome_weaken; [apply recorded_startup| | |]; trivial|].
    intros ?.
    eapply outcome_weaken; [apply (recorded_gather e (selected e) [])| | |];
      trivial.
    cbn beta. intros ? w'. now rewrite app_nil_r. }
  specialize (Hagg w Logic.I). rewrite Hok in Hagg.
  destruct Hagg as [samples [Hsamples [Hall Hnames]]].
  exists samples. split; [exact Hsamples|]. split; [|exact Hall].
  intros f Hf. apply Hnames. now apply in_map.
Qed.

Lemma polled_samples_on_record_witness :
  let e := Sample.env_of Sample.crossed Sample.runs_then_fails in
  fst (aggregation e Sample.start) = Ok tt
  /\ exists samples,
       d_samples (var_data (snd (aggregation e Sample.start))) = Some samples
       /\ (forall f, In f (selected e) ->
                     Dict.mem (Os.basename f) samples = true)
       /\ (forall name record,
             Dict.get name samples = Some record ->
             s_status record <> None /\ s_grafana record <> None).
Proof.
  cbv zeta.
  assert (H : fst (aggregation
                     (Sample.env_of Sample.crossed Sample.runs_then_fails)
                     Sample.start) = Ok tt)
    by (vm_compute; reflexivity).
  split; [exact H|].
  exact (polled_samples_on_record _ _ H).
Defined.

(** *** The log file after a sample *)





(** *** The time of the update *)

Lemma page_head_time (now : datetime) :
  page_head now
  = before_time ++ strftime now ++ "</td></tr>" ++ "</table>" ++ nl.
Proof.
  unfold page_head, before_time, cat.
  cbn [String.concat]. rewrite !append_assoc. reflexivity.
Qed.

Lemma web_samples_from (force : bool) (sampledata : dict sample) :
  forall (samples : list string) (page : string),
    web_samples force sampledata samples page
    = (rows <- web_samples force sampledata samples EmptyString ;;
       Ok (page ++ rows)).
Proof.
  induction samples as [|name rest IH]; intros page; cbn [web_samples].
  - cbn. now rewrite append_empty_r.
  - destruct (web_sample force sampledata name) as [row|x];
      cbn [bind_result]; [|reflexivity].
    rewrite (IH (page ++ row)), (IH (EmptyString ++ row)).
    destruct (web_samples force sampledata rest EmptyString) as [rows|x];
      cbn [bind_result]; [|reflexivity].
    now rewrite append_assoc.
Qed.

(** X28. Two renderings of the same data differ in the time of the
    update only, and fail alike. *)
Theorem page_but_for_time (data : data) (force : bool) (now now' : datetime) :
  match web_page now data force, web_page now' data force with
  | Ok page, Ok page' =>
      exists rest,
        page = before_time ++ strftime now ++ rest
        /\ page' = before_time ++ strftime now' ++ rest
  | Raise x, Raise x' => x = x'
  | _, _ => False
  end.
Proof.
  unfold web_page. destruct (d_samples data) as [sampledata|];
    [|reflexivity].
  cbv zeta.
  rewrite (web_samples_from force sampledata _
             ((page_head now ++ page_meta data) ++ _)),
          (web_samples_from force sampledata _
             ((page_head now' ++ page_meta data) ++ _)).
  destruct (web_samples force sampledata (web_order sampledata) EmptyString)
    as [rows|x]; cbn [bind_result]; [|reflexivity].
  exists ("</td></tr>" ++ "</table>" ++ nl ++ page_meta data
          ++ ("<div id=" ++ q "samples" ++ "><h1>Samples</h1></div>" ++ nl)
          ++ rows ++ "</table>" ++ nl ++ "</body>" ++ nl ++ "</html>").
  rewrite !page_head_time, !append_assoc. split; reflexivity.
Qed.

(** *** The entries of a whole log *)

Lemma find_last {A : Type} (p : A -> bool) (l : list A) (x : A) :
  find p (l ++ [x])
  = match find p l with
    | Some y => Some y
    | None => if p x then Some x else None
    end.
Proof.
  induction l as [|y l IH]; cbn [app find]; [reflexivity|].
  destruct (p y); [reflexivity|exact IH].
Qed.

Lemma lines_updates_last (key : string) :
  forall (outlines : list string) (st : dict string),
    Dict.get key (lines_updates outlines st)
    = match last_entry key outlines with
      | Some l => Some (second_word l)
      | None => Dict.get key st
      end.
Proof.
  unfold last_entry.
  induction outlines as [|l rest IH]; intros st; [reflexivity|].
  rewrite lines_updates_cons, IH. cbn [rev]. rewrite find_last.
  destruct (find (gives_entry key) (rev rest)) as [l'|]; [reflexivity|].
  rewrite line_updates_get. unfold gives_entry, first_word, second_word.
  now destruct (existsb (String.eqb key) known_statuses
                && Str.contains key (hd EmptyString (line_words l))).
Qed.

(** X29. After the lines of a log have been parsed without an exception,
    each known status has the second word of the last line that has it
    in its first word, and every other entry of the status mapping is as
    it was before. *)
Theorem last_line_wins (name : string) (outlines : list string)
  (line : option string) (jobsfailed : bool) (w : world) (st : dict string)
  (v : option string * bool) :
  status_of name w = Some st ->
  fst (parse_lines name outlines line jobsfailed w) = Ok v ->
  exists st',
    status_of name (snd (parse_lines name outlines line jobsfailed w))
    = Some st'
    /\ forall key,
         Dict.get key st'
         = match last_entry key outlines with
           | Some l => Some (second_word l)
           | None => Dict.get key st
           end.
Proof.
  intros Hst Hok.
  destruct (parse_lines_updates name outlines line jobsfailed w st Hst)
    as [done [rest [Hlines [Hrest Hstatus]]]].
  rewrite (Hrest v Hok), app_nil_r in Hlines. subst done.
  exists (lines_updates outlines st). split; [exact Hstatus|].
  intros key. apply lines_updates_last.
Qed.

Lemma last_line_wins_witness :
  let outlines := ["Jobs status: running 60.0% (9/15)";
                   "finished 20.0% (3/15)";
                   "running 80.0% (12/15)"] in
  let r := parse_lines "crab_s1" outlines None false Sample.polling in
  status_of "crab_s1" Sample.polling = Some [("finished", "0%")]
  /\ fst r = Ok (Some "running 80.0% (12/15)", false)
  /\ last_entry "running" outlines = Some "running 80.0% (12/15)"
  /\ last_entry "idle" outlines = None
  /\ exists st',
       status_of "crab_s1" (snd r) = Some st'
       /\ Dict.get "running" st' = Some "80.0%"
       /\ Dict.get "finished" st' = Some "20.0%"
       /\ Dict.get "idle" st' = None.
Proof.
  cbv zeta. split; [reflexivity|]. split; [reflexivity|].
  split; [reflexivity|]. split; [reflexivity|].
  destruct (last_line_wins "crab_s1"
              ["Jobs status: running 60.0% (9/15)";
               "finished 20.0% (3/15)";
               "running 80.0% (12/15)"]
              None false Sample.polling [("finished", "0%")]
              (Some "running 80.0% (12/15)", false) eq_refl eq_refl)
    as [st' [Hst' Hget]].
  exists st'. split; [exact Hst'|].
  split; [rewrite Hget; reflexivity|].
  split; rewrite Hget; reflexivity.
Defined.
